(** * Adaptive rendering pipeline of the music visualizer

    A shallow embedding of the performance monitor, the LOD manager, the
    object pool and the base visualization contract, followed by the
    properties checked against them.

    Conventions of the embedding.
    - A JavaScript [number] that counts or indexes (quality level, frame
      counter, pool sizes) is a [Z] or a [nat]; a [number] that measures
      (milliseconds, frames per second, ratios) is an exact rational [Q].
      Where the outcome of the code is sensitive to the rounding of IEEE
      doubles (the frame time and the frame-budget figures of [endFrame],
      and [mapRange]) the
      operations are those of the doubles: the exact result rounded to the
      nearest double, ties to even ([Num.roundDouble]), with overflow and
      underflow outside the model.  Elsewhere exact rationals stand for the
      doubles.
    - Readings of [performance.now()], of the memory API and of the renderer
      counters are explicit inputs of the operation that reads them.
    - A callback invocation is recorded in the state (or returned) in call
      order, and its known effect is applied.
    - A [TypeError] raised by a property access on [undefined] is the
      [Thrown] outcome, which keeps the state reached at the throw. *)

From Stdlib Require Import ZArith QArith Qround Qminmax Qpower Lia Lqa.
From stdpp Require Import base tactics option list gmap strings.

Local Open Scope Z_scope.
Set Warnings "-clear-no-such-hyp".

(** ** Numbers *)

Module Num.

(** [a < b] on measured numbers, as a boolean. *)
Definition Qltb (a b : Q) : bool := negb (Qle_bool b a).

(** [arr.reduce((a, b) => a + b, 0)] *)
Definition sumQ (l : list Q) : Q := fold_left Qplus l 0%Q.

(** [x || d] on numbers: zero is falsy. *)
Definition orDefault (x d : Q) : Q := if Qeq_bool x 0 then d else x.

(** [arr.push(x); if (arr.length > n) arr.shift();] *)
Definition pushWindow {A} (n : nat) (x : A) (l : list A) : list A :=
  let l' := l ++ [x] in
  if (n <? length l')%nat then tail l' else l'.

(** [a % b === 0] on integers: [a % 0] is [NaN], which is not [0]. *)
Definition remIsZero (a b : Z) : bool :=
  if b =? 0 then false else Z.rem a b =? 0.

(** *** Arithmetic of doubles

    A double is a rational [m * 2^e] with [|m| < 2^53].  Every operation
    of the doubles returns the double nearest to the exact result, ties
    going to the even [m]. *)

(** The nearest integer, ties to the even one. *)
Definition roundQ (s : Q) : Z :=
  let q := Qfloor s in
  match Qcompare (s - inject_Z q) (1 # 2) with
  | Lt => q
  | Gt => q + 1
  | Eq => if Z.even q then q else q + 1
  end.

Definition pow2 (e : Z) : Q := Qpower 2 e.

(** For [x > 0], the exponent [e] with [2^52 <= x / 2^e < 2^53]: the
    logarithms give it up to one, the comparison settles it. *)
Definition ulpExponent (x : Q) : Z :=
  let e0 := Z.log2 (Qnum x) - Z.log2 (Z.pos (Qden x)) - 52 in
  if Qltb (x / pow2 e0) (pow2 52) then e0 - 1 else e0.

Definition roundPositive (x : Q) : Q :=
  let e := ulpExponent x in
  (inject_Z (roundQ (x / pow2 e)) * pow2 e)%Q.

(** The double nearest to [x]. *)
Definition roundDouble (x : Q) : Q :=
  match Qcompare x 0 with
  | Gt => roundPositive x
  | Lt => (- roundPositive (- x))%Q
  | Eq => 0%Q
  end.

(** [a + b], [a - b], [a * b] and [a / b] on doubles. *)
Definition fadd (a b : Q) : Q := roundDouble (a + b).
Definition fsub (a b : Q) : Q := roundDouble (a - b).
Definition fmul (a b : Q) : Q := roundDouble (a * b).
Definition fdiv (a b : Q) : Q := roundDouble (a / b).

End Num.

Arguments Num.roundDouble : simpl never.
Arguments Num.pow2 : simpl never.

(** ** Outcomes of a call that may throw *)

Inductive result (S : Type) : Type :=
| Returned (s : S)
| Thrown (s : S).
Arguments Returned {S} s.
Arguments Thrown {S} s.

Definition stateOf {S} (r : result S) : S :=
  match r with Returned s => s | Thrown s => s end.

Definition bindR {S} (r : result S) (k : S -> result S) : result S :=
  match r with Returned s => k s | Thrown s => Thrown s end.

Definition hasThrown {S} (r : result S) : bool :=
  match r with Returned _ => false | Thrown _ => true end.

(** ** LOD manager (lod-manager.ts) *)

Module LodManager.

Inductive ShadowQuality := ShadowOff | ShadowLow | ShadowMedium | ShadowHigh.

Record LodLevel := {
  level : Z;
  name : string;
  particleCount : Z;
  geometryDetail : Q;
  textureSize : Q;
  shadowQuality : ShadowQuality;
  postProcessingEnabled : bool;
  effectComplexity : Q;
  maxObjects : Z;
  updateFrequency : Z
}.

Definition DEFAULT_LOD_LEVELS : list LodLevel := [
  {| level := 0; name := "Very Low"; particleCount := 100;
     geometryDetail := 2 # 10; textureSize := 25 # 100;
     shadowQuality := ShadowOff; postProcessingEnabled := false;
     effectComplexity := 1 # 10; maxObjects := 10; updateFrequency := 5 |};
  {| level := 1; name := "Low"; particleCount := 300;
     geometryDetail := 4 # 10; textureSize := 5 # 10;
     shadowQuality := ShadowOff; postProcessingEnabled := false;
     effectComplexity := 3 # 10; maxObjects := 30; updateFrequency := 3 |};
  {| level := 2; name := "Medium"; particleCount := 800;
     geometryDetail := 6 # 10; textureSize := 75 # 100;
     shadowQuality := ShadowLow; postProcessingEnabled := true;
     effectComplexity := 5 # 10; maxObjects := 100; updateFrequency := 2 |};
  {| level := 3; name := "High"; particleCount := 1500;
     geometryDetail := 9 # 10; textureSize := 1;
     shadowQuality := ShadowMedium; postProcessingEnabled := true;
     effectComplexity := 75 # 100; maxObjects := 250; updateFrequency := 1 |};
  {| level := 4; name := "Ultra"; particleCount := 3000;
     geometryDetail := 11 # 10; textureSize := 1;
     shadowQuality := ShadowHigh; postProcessingEnabled := true;
     effectComplexity := 1; maxObjects := 500; updateFrequency := 1 |}
].

(** What [detectDeviceCapabilities] probes in the browser. *)
Record DeviceProbe := {
  hasWebGL : bool;
  isMobile : bool;
  rendererRTX : bool;
  rendererRadeon : bool;
  rendererMobile : bool;
  rendererIntel : bool;
  rendererIris : bool
}.

Definition detectDeviceCapabilities (d : DeviceProbe) : Z :=
  if negb (hasWebGL d) then 0
  else
    let isHighEnd :=
      rendererRTX d
      || (rendererRadeon d && negb (rendererMobile d))
      || (rendererIntel d && rendererIris d) in
    if isMobile d then 1 else if isHighEnd then 3 else 2.

(** The renderer settings the manager writes. *)
Inductive ShadowMapType := BasicShadowMap | PCFShadowMap | PCFSoftShadowMap.

Record Renderer := {
  shadowMapEnabled : bool;
  shadowMapType : ShadowMapType;
  pixelRatio : Q;
  maxAnisotropyCapped : bool
}.

Inductive Event :=
| LodChanged (lod : LodLevel)          (* onLodChange(lodLevel) *)
| LodMemoryOptimization (lvl : Z).     (* 'lod-memory-optimization' *)

Record t := {
  levels : list LodLevel;
  currentLevel : Z;
  frameCounter : Z;
  dynamicUpdateFrequency : bool;
  distanceScalingEnabled : bool;
  importanceBasedLod : bool;
  importantObjects : gset nat;
  adaptiveDistance : Q;
  devicePixelRatio : Q;             (* window.devicePixelRatio *)
  renderer : Renderer;
  events : list Event               (* oldest first *)
}.

Definition setCurrentLevel (n : Z) (m : t) : t :=
  {| levels := levels m; currentLevel := n; frameCounter := frameCounter m;
     dynamicUpdateFrequency := dynamicUpdateFrequency m;
     distanceScalingEnabled := distanceScalingEnabled m;
     importanceBasedLod := importanceBasedLod m;
     importantObjects := importantObjects m;
     adaptiveDistance := adaptiveDistance m;
     devicePixelRatio := devicePixelRatio m;
     renderer := renderer m; events := events m |}.

Definition setFrameCounter (n : Z) (m : t) : t :=
  {| levels := levels m; currentLevel := currentLevel m; frameCounter := n;
     dynamicUpdateFrequency := dynamicUpdateFrequency m;
     distanceScalingEnabled := distanceScalingEnabled m;
     importanceBasedLod := importanceBasedLod m;
     importantObjects := importantObjects m;
     adaptiveDistance := adaptiveDistance m;
     devicePixelRatio := devicePixelRatio m;
     renderer := renderer m; events := events m |}.

Definition setAdaptiveDistance (d : Q) (m : t) : t :=
  {| levels := levels m; currentLevel := currentLevel m;
     frameCounter := frameCounter m;
     dynamicUpdateFrequency := dynamicUpdateFrequency m;
     distanceScalingEnabled := distanceScalingEnabled m;
     importanceBasedLod := importanceBasedLod m;
     importantObjects := importantObjects m;
     adaptiveDistance := d;
     devicePixelRatio := devicePixelRatio m;
     renderer := renderer m; events := events m |}.

Definition setRenderer (r : Renderer) (m : t) : t :=
  {| levels := levels m; currentLevel := currentLevel m;
     frameCounter := frameCounter m;
     dynamicUpdateFrequency := dynamicUpdateFrequency m;
     distanceScalingEnabled := distanceScalingEnabled m;
     importanceBasedLod := importanceBasedLod m;
     importantObjects := importantObjects m;
     adaptiveDistance := adaptiveDistance m;
     devicePixelRatio := devicePixelRatio m;
     renderer := r; events := events m |}.

Definition setImportantObjects (s : gset nat) (m : t) : t :=
  {| levels := levels m; currentLevel := currentLevel m;
     frameCounter := frameCounter m;
     dynamicUpdateFrequency := dynamicUpdateFrequency m;
     distanceScalingEnabled := distanceScalingEnabled m;
     importanceBasedLod := importanceBasedLod m;
     importantObjects := s;
     adaptiveDistance := adaptiveDistance m;
     devicePixelRatio := devicePixelRatio m;
     renderer := renderer m; events := events m |}.

Definition emit (e : Event) (m : t) : t :=
  {| levels := levels m; currentLevel := currentLevel m;
     frameCounter := frameCounter m;
     dynamicUpdateFrequency := dynamicUpdateFrequency m;
     distanceScalingEnabled := distanceScalingEnabled m;
     importanceBasedLod := importanceBasedLod m;
     importantObjects := importantObjects m;
     adaptiveDistance := adaptiveDistance m;
     devicePixelRatio := devicePixelRatio m;
     renderer := renderer m; events := events m ++ [e] |}.

(** [arr[i]]: [undefined] outside the array. *)
Definition index {A} (l : list A) (i : Z) : option A :=
  if i <? 0 then None else l !! Z.to_nat i.

Definition getCurrentLodLevel (m : t) : option LodLevel :=
  index (levels m) (currentLevel m).

Definition applyRendererSettings (dpr : Q) (lod : LodLevel) (r : Renderer)
  : Renderer :=
  {| shadowMapEnabled :=
       match shadowQuality lod with ShadowOff => false | _ => true end;
     shadowMapType :=
       match shadowQuality lod with
       | ShadowLow => BasicShadowMap
       | ShadowMedium => PCFShadowMap
       | ShadowHigh => PCFSoftShadowMap
       | ShadowOff => shadowMapType r
       end;
     pixelRatio :=
       if level lod =? 0 then (dpr * (5 # 10))%Q
       else if level lod =? 1 then (dpr * (75 # 100))%Q
       else dpr;
     maxAnisotropyCapped :=
       if level lod <=? 1 then true else maxAnisotropyCapped r |}.

Definition clampLevel (m : t) (lvl : Z) : Z :=
  Z.max 0 (Z.min (Z.of_nat (length (levels m)) - 1) lvl).

Definition setQualityLevel (lvl : Z) (m : t) : result t :=
  let newLevel := clampLevel m lvl in
  if newLevel =? currentLevel m then Returned m
  else
    let m1 := setCurrentLevel newLevel m in
    match getCurrentLodLevel m1 with
    | None => Thrown m1      (* applyRendererSettings reads lod.shadowQuality *)
    | Some lodLevel =>
        let m2 :=
          setRenderer
            (applyRendererSettings (devicePixelRatio m1) lodLevel (renderer m1))
            m1 in
        Returned (emit (LodChanged lodLevel) m2)
    end.

(** The constructor, up to the call into the performance monitor. *)
Definition create (d : DeviceProbe) (dpr : Q) (r : Renderer)
    (lvls : list LodLevel) : option t :=
  let initialQualityGuess := detectDeviceCapabilities d in
  let cur := Z.min initialQualityGuess (Z.of_nat (length lvls) - 1) in
  match index lvls cur with
  | None => None             (* levels[this.currentLevel].name throws *)
  | Some lod =>
      Some {| levels := lvls; currentLevel := cur; frameCounter := 0;
              dynamicUpdateFrequency := true;
              distanceScalingEnabled := true;
              importanceBasedLod := true;
              importantObjects := ∅;
              adaptiveDistance := 50;
              devicePixelRatio := dpr;
              renderer := applyRendererSettings dpr lod r;
              events := [] |}
  end.

(** [shouldUpdate(importance = 0.5, distance = 0)]: the answer ([None] when
    reading [lod.updateFrequency] throws) and the manager with its frame
    counter advanced. *)
Definition shouldUpdate (importance distance : Q) (m : t)
  : option bool * t :=
  let m1 := setFrameCounter (frameCounter m + 1) m in
  match getCurrentLodLevel m with
  | None => (None, m1)
  | Some lod =>
      let f0 := updateFrequency lod in
      let f1 :=
        if dynamicUpdateFrequency m then
          let fa :=
            if Num.Qltb (8 # 10) importance then Z.max 1 (f0 - 1) else f0 in
          if Num.Qltb (adaptiveDistance m) distance
             && distanceScalingEnabled m
          then
            let distanceFactor :=
              Z.min 3
                (Qfloor ((distance - adaptiveDistance m) / 30) + 1) in
            Z.min 6 (fa + distanceFactor)
          else fa
        else f0 in
      (Some (Num.remIsZero (frameCounter m1) f1), m1)
  end.

(** [getParticleCount(baseCount, importance = 0.5, distance = 0)] *)
Definition getParticleCount (baseCount importance distance : Q) (m : t)
  : option Z :=
  match getCurrentLodLevel m, last DEFAULT_LOD_LEVELS with
  | Some lod, Some top =>
      let baseFactor :=
        (inject_Z (particleCount lod) / inject_Z (particleCount top))%Q in
      let s1 :=
        if importanceBasedLod m
        then (baseFactor * ((5 # 10) + importance))%Q
        else baseFactor in
      let s2 :=
        if Num.Qltb 0 distance && distanceScalingEnabled m then
          if Num.Qltb (adaptiveDistance m) distance then
            (s1 * Qmax (2 # 10) (1 - (distance - adaptiveDistance m) / 150))%Q
          else s1
        else s1 in
      let minCount := Z.max 10 (Qfloor (baseCount * (1 # 10))) in
      Some (Z.max minCount (Qfloor (baseCount * s2)))
  | _, _ => None
  end.

Definition markAsImportant (o : nat) (m : t) : t :=
  setImportantObjects ({[o]} ∪ importantObjects m) m.

Definition clearImportance (o : nat) (m : t) : t :=
  setImportantObjects (importantObjects m ∖ {[o]}) m.

Definition isImportant (o : nat) (m : t) : bool :=
  bool_decide (o ∈ importantObjects m).

Definition handleMemoryPressure (m : t) : result t :=
  bindR
    (if 0 <? currentLevel m
     then setQualityLevel (Z.max 0 (currentLevel m - 1)) m
     else Returned m)
    (fun m1 =>
       let m2 := setAdaptiveDistance 30 m1 in
       Returned (emit (LodMemoryOptimization (currentLevel m2)) m2)).

Definition isPostProcessingEnabled (m : t) : option bool :=
  postProcessingEnabled <$> getCurrentLodLevel m.

Definition getEffectComplexity (m : t) : option Q :=
  effectComplexity <$> getCurrentLodLevel m.

Definition getMaxObjectCount (m : t) : option Z :=
  maxObjects <$> getCurrentLodLevel m.

(** How many times the LOD-change callback has run. *)
Definition isLodChanged (e : Event) : bool :=
  match e with LodChanged _ => true | _ => false end.

Definition lodChangeCalls (m : t) : nat :=
  length (List.filter isLodChanged (events m)).

(** The current index points into the table. *)
Definition indexValid (m : t) : Prop :=
  0 <= currentLevel m <= Z.of_nat (length (levels m)) - 1.

(** The local [effectiveFrequency] of [shouldUpdate] at a level. *)
Definition effectiveFrequency (importance distance : Q) (m : t)
    (lod : LodLevel) : Z :=
  let f0 := updateFrequency lod in
  if dynamicUpdateFrequency m then
    let fa :=
      if Num.Qltb (8 # 10) importance then Z.max 1 (f0 - 1) else f0 in
    if Num.Qltb (adaptiveDistance m) distance && distanceScalingEnabled m
    then
      let distanceFactor :=
        Z.min 3 (Qfloor ((distance - adaptiveDistance m) / 30) + 1) in
      Z.min 6 (fa + distanceFactor)
    else fa
  else f0.

(** [n] calls of [shouldUpdate] in a row with the same arguments: the
    answers in call order and the manager after the last call. *)
Fixpoint shouldUpdateCalls (n : nat) (importance distance : Q) (m : t)
  : list (option bool) * t :=
  match n with
  | O => ([], m)
  | S k =>
      let '(answer, m1) := shouldUpdate importance distance m in
      let '(rest, m2) := shouldUpdateCalls k importance distance m1 in
      (answer :: rest, m2)
  end.

(** [getGeometryDetail(baseDetail, distanceToCamera?, importance = 0.5)] *)
Definition getGeometryDetail (baseDetail : Q) (distanceToCamera : option Q)
    (importance : Q) (m : t) : option Q :=
  match getCurrentLodLevel m with
  | None => None
  | Some lod =>
      let d0 := (baseDetail * geometryDetail lod)%Q in
      let d1 :=
        if importanceBasedLod m && negb (Qeq_bool importance (5 # 10)) then
          let importanceFactor :=
            ((5 # 10) + (importance - (5 # 10)) * (5 # 10))%Q in
          (d0 * importanceFactor)%Q
        else d0 in
      let d2 :=
        match distanceToCamera with
        | Some d =>
            if distanceScalingEnabled m then
              if Num.Qltb (adaptiveDistance m) d then
                let falloffFactor :=
                  Qmax (1 # 10) (1 - (d - adaptiveDistance m) / 100) in
                (d1 * falloffFactor)%Q
              else d1
            else d1
        | None => d1
        end in
      let minDetail := (geometryDetail lod * (1 # 10))%Q in
      Some (Qmax minDetail d2)
  end.

(** [setQualityLevel] called with each level of a list in turn. *)
Definition setQualityLevels (lvls : list Z) (m : t) : t :=
  fold_left (fun m lvl => stateOf (setQualityLevel lvl m)) lvls m.

End LodManager.

(** ** Performance monitor (performance-monitor.ts) *)

Module PerformanceMonitor.

Import Num.

Record PerformanceSettings := {
  targetFps : Q;
  criticalFps : Q;
  adjustmentPeriod : Q;
  qualityLevels : Z
}.

(** [Partial<PerformanceSettings>] *)
Record PartialSettings := {
  targetFpsOpt : option Q;
  criticalFpsOpt : option Q;
  adjustmentPeriodOpt : option Q;
  qualityLevelsOpt : option Z
}.

Record PerformanceMetrics := {
  fps : Q;
  averageFps : Q;
  minFps : option Q;                 (* [None] is [Infinity] *)
  maxFps : Q;
  fpsStability : Q;
  frameTime : Q;
  averageFrameTime : Q;
  maxFrameTime : Q;
  memoryUsage : Q;
  memoryPeak : Q;
  isPerformanceCritical : bool;
  isMemoryConstrained : bool;
  currentQualityLevel : Z;
  targetQualityLevel : Z;
  updateTime : Q;
  renderTime : Q;
  shaderTime : Q;
  postProcessingTime : Q;
  physicsTime : Q;
  gcTime : Q;
  drawCalls : Z;
  triangles : Z;
  particles : Z;
  frameBudgetUsage : Q;
  hasFrameDrops : bool
}.

Record t := {
  metrics : PerformanceMetrics;
  settings : PerformanceSettings;
  fpsHistory : list Q;
  frameTimeHistory : list Q;
  memoryHistory : list Q;
  lastAdjustmentTime : Q;
  frameCount : Z;
  timingMarkers : gmap string Q;
  sectionTimes : gmap string (list Q);
  memoryPeakSeen : Q;                (* this.memoryPeak *)
  frameStartTime : Q;
  lastFrameTime : Q;
  lastDrawCalls : Z;
  currentDrawCalls : Z;
  triangleCount : Z;
  particleCount : Z;
  warnings : nat;                    (* console.warn calls of endSection *)
  memoryPressureEvents : nat         (* 'memory-pressure' dispatches *)
}.

Definition historySize : nat := 60.
Definition gcDetectionThreshold : Q := 50.

(** What one [endFrame] reads from the platform. *)
Record FrameEnv := {
  now : Q;                    (* performance.now() in endFrame *)
  nowCheck : Q;               (* performance.now() in checkQualityAdjustment *)
  memory : option (Q * Q);    (* usedJSHeapSize, jsHeapSizeLimit *)
  renderInfo : option (Z * Z) (* renderer.info.render: calls, triangles *)
}.

Definition withMetrics (m : PerformanceMetrics) (s : t) : t :=
  {| metrics := m; settings := settings s; fpsHistory := fpsHistory s;
     frameTimeHistory := frameTimeHistory s;
     memoryHistory := memoryHistory s;
     lastAdjustmentTime := lastAdjustmentTime s;
     frameCount := frameCount s; timingMarkers := timingMarkers s;
     sectionTimes := sectionTimes s; memoryPeakSeen := memoryPeakSeen s;
     frameStartTime := frameStartTime s; lastFrameTime := lastFrameTime s;
     lastDrawCalls := lastDrawCalls s;
     currentDrawCalls := currentDrawCalls s;
     triangleCount := triangleCount s; particleCount := particleCount s;
     warnings := warnings s;
     memoryPressureEvents := memoryPressureEvents s |}.

Definition withLastAdjustmentTime (x : Q) (s : t) : t :=
  {| metrics := metrics s; settings := settings s;
     fpsHistory := fpsHistory s;
     frameTimeHistory := frameTimeHistory s;
     memoryHistory := memoryHistory s;
     lastAdjustmentTime := x;
     frameCount := frameCount s; timingMarkers := timingMarkers s;
     sectionTimes := sectionTimes s; memoryPeakSeen := memoryPeakSeen s;
     frameStartTime := frameStartTime s; lastFrameTime := lastFrameTime s;
     lastDrawCalls := lastDrawCalls s;
     currentDrawCalls := currentDrawCalls s;
     triangleCount := triangleCount s; particleCount := particleCount s;
     warnings := warnings s;
     memoryPressureEvents := memoryPressureEvents s |}.

Definition withQuality (cur tgt : Z) (m : PerformanceMetrics)
  : PerformanceMetrics :=
  {| fps := fps m; averageFps := averageFps m; minFps := minFps m;
     maxFps := maxFps m; fpsStability := fpsStability m;
     frameTime := frameTime m; averageFrameTime := averageFrameTime m;
     maxFrameTime := maxFrameTime m; memoryUsage := memoryUsage m;
     memoryPeak := memoryPeak m;
     isPerformanceCritical := isPerformanceCritical m;
     isMemoryConstrained := isMemoryConstrained m;
     currentQualityLevel := cur; targetQualityLevel := tgt;
     updateTime := updateTime m; renderTime := renderTime m;
     shaderTime := shaderTime m;
     postProcessingTime := postProcessingTime m;
     physicsTime := physicsTime m; gcTime := gcTime m;
     drawCalls := drawCalls m; triangles := triangles m;
     particles := particles m; frameBudgetUsage := frameBudgetUsage m;
     hasFrameDrops := hasFrameDrops m |}.

Definition withParticles (n : Z) (m : PerformanceMetrics)
  : PerformanceMetrics :=
  {| fps := fps m; averageFps := averageFps m; minFps := minFps m;
     maxFps := maxFps m; fpsStability := fpsStability m;
     frameTime := frameTime m; averageFrameTime := averageFrameTime m;
     maxFrameTime := maxFrameTime m; memoryUsage := memoryUsage m;
     memoryPeak := memoryPeak m;
     isPerformanceCritical := isPerformanceCritical m;
     isMemoryConstrained := isMemoryConstrained m;
     currentQualityLevel := currentQualityLevel m;
     targetQualityLevel := targetQualityLevel m;
     updateTime := updateTime m; renderTime := renderTime m;
     shaderTime := shaderTime m;
     postProcessingTime := postProcessingTime m;
     physicsTime := physicsTime m; gcTime := gcTime m;
     drawCalls := drawCalls m; triangles := triangles m;
     particles := n; frameBudgetUsage := frameBudgetUsage m;
     hasFrameDrops := hasFrameDrops m |}.

(** The five section names with a dedicated metric field. *)
Definition withSectionTime (section : string) (d : Q)
    (m : PerformanceMetrics) : PerformanceMetrics :=
  let named x := bool_decide (section = x) in
  {| fps := fps m; averageFps := averageFps m; minFps := minFps m;
     maxFps := maxFps m; fpsStability := fpsStability m;
     frameTime := frameTime m; averageFrameTime := averageFrameTime m;
     maxFrameTime := maxFrameTime m; memoryUsage := memoryUsage m;
     memoryPeak := memoryPeak m;
     isPerformanceCritical := isPerformanceCritical m;
     isMemoryConstrained := isMemoryConstrained m;
     currentQualityLevel := currentQualityLevel m;
     targetQualityLevel := targetQualityLevel m;
     updateTime := if named "update" then d else updateTime m;
     renderTime := if named "render" then d else renderTime m;
     shaderTime := if named "shaders" then d else shaderTime m;
     postProcessingTime :=
       if named "postProcessing" then d else postProcessingTime m;
     physicsTime := if named "physics" then d else physicsTime m;
     gcTime := gcTime m;
     drawCalls := drawCalls m; triangles := triangles m;
     particles := particles m; frameBudgetUsage := frameBudgetUsage m;
     hasFrameDrops := hasFrameDrops m |}.

Definition defaultSettings (p : PartialSettings) : PerformanceSettings :=
  {| targetFps := default 60%Q (targetFpsOpt p);
     criticalFps := default 30%Q (criticalFpsOpt p);
     adjustmentPeriod := default 2000%Q (adjustmentPeriodOpt p);
     qualityLevels := default 5 (qualityLevelsOpt p) |}.

(** The constructor. *)
Definition create (p : PartialSettings) : t :=
  let st := defaultSettings p in
  {| metrics :=
       {| fps := 0; averageFps := 0; minFps := None; maxFps := 0;
          fpsStability := 1; frameTime := 0; averageFrameTime := 0;
          maxFrameTime := 0; memoryUsage := 0; memoryPeak := 0;
          isPerformanceCritical := false; isMemoryConstrained := false;
          currentQualityLevel := qualityLevels st - 1;
          targetQualityLevel := qualityLevels st - 1;
          updateTime := 0; renderTime := 0; shaderTime := 0;
          postProcessingTime := 0; physicsTime := 0; gcTime := 0;
          drawCalls := 0; triangles := 0; particles := 0;
          frameBudgetUsage := 0; hasFrameDrops := false |};
     settings := st;
     fpsHistory := []; frameTimeHistory := []; memoryHistory := [];
     lastAdjustmentTime := 0; frameCount := 0;
     timingMarkers := ∅; sectionTimes := ∅; memoryPeakSeen := 0;
     frameStartTime := 0; lastFrameTime := 0;
     lastDrawCalls := 0; currentDrawCalls := 0; triangleCount := 0;
     particleCount := 0; warnings := 0%nat;
     memoryPressureEvents := 0%nat |}.

Definition beginFrame (tnow : Q) (info : option (Z * Z)) (s : t) : t :=
  {| metrics := metrics s; settings := settings s;
     fpsHistory := fpsHistory s;
     frameTimeHistory := frameTimeHistory s;
     memoryHistory := memoryHistory s;
     lastAdjustmentTime := lastAdjustmentTime s;
     frameCount := frameCount s; timingMarkers := timingMarkers s;
     sectionTimes := sectionTimes s; memoryPeakSeen := memoryPeakSeen s;
     frameStartTime := tnow; lastFrameTime := lastFrameTime s;
     lastDrawCalls :=
       match info with Some (c, _) => c | None => lastDrawCalls s end;
     currentDrawCalls := currentDrawCalls s;
     triangleCount :=
       match info with Some (_, tr) => tr | None => triangleCount s end;
     particleCount := particleCount s;
     warnings := warnings s;
     memoryPressureEvents := memoryPressureEvents s |}.

Definition beginSection (section : string) (tnow : Q) (s : t) : t :=
  {| metrics := metrics s; settings := settings s;
     fpsHistory := fpsHistory s;
     frameTimeHistory := frameTimeHistory s;
     memoryHistory := memoryHistory s;
     lastAdjustmentTime := lastAdjustmentTime s;
     frameCount := frameCount s;
     timingMarkers := <[section := tnow]> (timingMarkers s);
     sectionTimes := sectionTimes s; memoryPeakSeen := memoryPeakSeen s;
     frameStartTime := frameStartTime s; lastFrameTime := lastFrameTime s;
     lastDrawCalls := lastDrawCalls s;
     currentDrawCalls := currentDrawCalls s;
     triangleCount := triangleCount s; particleCount := particleCount s;
     warnings := warnings s;
     memoryPressureEvents := memoryPressureEvents s |}.

Definition endSection (section : string) (tnow : Q) (s : t) : t :=
  match timingMarkers s !! section with
  | None =>
      {| metrics := metrics s; settings := settings s;
         fpsHistory := fpsHistory s;
         frameTimeHistory := frameTimeHistory s;
         memoryHistory := memoryHistory s;
         lastAdjustmentTime := lastAdjustmentTime s;
         frameCount := frameCount s; timingMarkers := timingMarkers s;
         sectionTimes := sectionTimes s;
         memoryPeakSeen := memoryPeakSeen s;
         frameStartTime := frameStartTime s;
         lastFrameTime := lastFrameTime s;
         lastDrawCalls := lastDrawCalls s;
         currentDrawCalls := currentDrawCalls s;
         triangleCount := triangleCount s;
         particleCount := particleCount s;
         warnings := S (warnings s);
         memoryPressureEvents := memoryPressureEvents s |}
  | Some startTime =>
      let duration := (tnow - startTime)%Q in
      let times := default [] (sectionTimes s !! section) in
      {| metrics := withSectionTime section duration (metrics s);
         settings := settings s;
         fpsHistory := fpsHistory s;
         frameTimeHistory := frameTimeHistory s;
         memoryHistory := memoryHistory s;
         lastAdjustmentTime := lastAdjustmentTime s;
         frameCount := frameCount s; timingMarkers := timingMarkers s;
         sectionTimes :=
           <[section := pushWindow historySize duration times]>
             (sectionTimes s);
         memoryPeakSeen := memoryPeakSeen s;
         frameStartTime := frameStartTime s;
         lastFrameTime := lastFrameTime s;
         lastDrawCalls := lastDrawCalls s;
         currentDrawCalls := currentDrawCalls s;
         triangleCount := triangleCount s;
         particleCount := particleCount s;
         warnings := warnings s;
         memoryPressureEvents := memoryPressureEvents s |}
  end.

Definition trackParticles (count : Z) (s : t) : t :=
  {| metrics := withParticles count (metrics s); settings := settings s;
     fpsHistory := fpsHistory s;
     frameTimeHistory := frameTimeHistory s;
     memoryHistory := memoryHistory s;
     lastAdjustmentTime := lastAdjustmentTime s;
     frameCount := frameCount s; timingMarkers := timingMarkers s;
     sectionTimes := sectionTimes s; memoryPeakSeen := memoryPeakSeen s;
     frameStartTime := frameStartTime s; lastFrameTime := lastFrameTime s;
     lastDrawCalls := lastDrawCalls s;
     currentDrawCalls := currentDrawCalls s;
     triangleCount := triangleCount s; particleCount := count;
     warnings := warnings s;
     memoryPressureEvents := memoryPressureEvents s |}.

(** [sum / arr.length] *)
Definition average (l : list Q) : Q :=
  (sumQ l / inject_Z (Z.of_nat (length l)))%Q.

(** [reduce((sum, fps) => sum + Math.pow(fps - avg, 2), 0) / length] *)
Definition variance (avg : Q) (l : list Q) : Q :=
  (fold_left (fun sum x => sum + (x - avg) * (x - avg)) l 0
   / inject_Z (Z.of_nat (length l)))%Q.

(** The rule cascade of [checkQualityAdjustment]: the proposed target level
    and [needsAdjustment].  [frameBudgetUsage] holds a double, and the
    literals it is compared with are the doubles nearest to 0.9 and 0.7. *)
Definition proposeTarget (s : t) : Z * bool :=
  let m := metrics s in
  let st := settings s in
  let down l := Z.max 0 (l - 1) in
  let cur := currentQualityLevel m in
  let '(targetLevel, needsAdjustment) :=
    if isMemoryConstrained m then (down cur, true)
    else if isPerformanceCritical m then (down cur, true)
    else if Qltb (roundDouble (9 # 10)) (frameBudgetUsage m)
            && Qltb (fpsStability m) (7 # 10)
    then (down cur, true)
    else if Qltb (targetFps st * (11 # 10)) (averageFps m)
            && Qltb (8 # 10) (fpsStability m)
            && Qltb (frameBudgetUsage m) (roundDouble (7 # 10))
    then
      if cur <? qualityLevels st - 1 then (cur + 1, true) else (cur, false)
    else if Qltb (averageFps m) (targetFps st * (9 # 10))
            || Qltb (fpsStability m) (6 # 10)
    then (down cur, true)
    else (cur, false) in
  if Qltb 30 (gcTime m) then (down targetLevel, true)
  else (targetLevel, needsAdjustment).

(** Neither early return of [checkQualityAdjustment] is taken: the rules
    are evaluated. *)
Definition evaluatesRules (tnow : Q) (s : t) : bool :=
  negb (Qltb (tnow - lastAdjustmentTime s) (adjustmentPeriod (settings s)))
  && negb (frameCount s <? 100).

(** The monitor after the check and the argument of [onQualityChange] when
    it is called. *)
Definition checkQualityAdjustment (tnow : Q) (s : t) : t * option Z :=
  if Qltb (tnow - lastAdjustmentTime s) (adjustmentPeriod (settings s))
  then (s, None)
  else if frameCount s <? 100 then (s, None)
  else
    let '(targetLevel, needsAdjustment) := proposeTarget s in
    if needsAdjustment
       && negb (targetLevel =? targetQualityLevel (metrics s))
    then
      (withLastAdjustmentTime tnow
         (withMetrics
            (withQuality (currentQualityLevel (metrics s)) targetLevel
               (metrics s)) s),
       Some targetLevel)
    else (s, None).

Section WithSqrt.

(** [Math.sqrt] *)
Variable sqrt : Q -> Q.

(** [Math.max(0, 1 - (fpsStdDev / averageFps))] *)
Definition stabilityOf (window : list Q) : Q :=
  let avg := average window in
  Qmax 0 (1 - sqrt (variance avg window) / avg).

(** [endFrame] up to the call of [checkQualityAdjustment].  The frame time
    and the frame budget block ([targetFrameTime], [frameBudgetUsage],
    [hasFrameDrops] and the comparison with [0.95]) are computed on
    doubles, each operation rounded as the code's; [1.2] and [0.95] are the
    doubles nearest to them. *)
Definition endFrameMetrics (e : FrameEnv) (s : t) : t :=
  let m := metrics s in
  let frameTime' := fsub (now e) (frameStartTime s) in
  let timeSinceLastFrame := (now e - lastFrameTime s)%Q in
  let gcTime' :=
    if Qltb 0 (lastFrameTime s)
       && Qltb gcDetectionThreshold timeSinceLastFrame
    then timeSinceLastFrame
    else (gcTime m * (9 # 10))%Q in
  let currentFps := orDefault (fps m) 60 in
  let frameTimeHistory' :=
    pushWindow historySize frameTime' (frameTimeHistory s) in
  let fpsHistory' := pushWindow historySize currentFps (fpsHistory s) in
  let averageFps' := average fpsHistory' in
  let fpsStability' :=
    if (5 <? length fpsHistory')%nat then stabilityOf fpsHistory'
    else fpsStability m in
  let currentMemory :=
    match memory e with
    | Some (used, _) => (used / (1024 * 1024))%Q
    | None => memoryUsage m
    end in
  let memoryPeak' :=
    match memory e with
    | Some _ => Qmax (memoryPeakSeen s) currentMemory
    | None => memoryPeakSeen s
    end in
  let targetFrameTime := fdiv 1000 (targetFps (settings s)) in
  let frameBudgetUsage' := Qmin 1 (fdiv frameTime' targetFrameTime) in
  {| metrics :=
       {| fps := currentFps;
          averageFps := averageFps';
          minFps :=
            Some match minFps m with
                 | None => currentFps
                 | Some x => Qmin x currentFps
                 end;
          maxFps := Qmax (maxFps m) currentFps;
          fpsStability := fpsStability';
          frameTime := frameTime';
          averageFrameTime := average frameTimeHistory';
          maxFrameTime := Qmax (maxFrameTime m) frameTime';
          memoryUsage := currentMemory;
          memoryPeak :=
            match memory e with
            | Some _ => memoryPeak'
            | None => memoryPeak m
            end;
          isPerformanceCritical :=
            Qltb averageFps' (criticalFps (settings s))
            || Qltb (roundDouble (95 # 100)) frameBudgetUsage';
          isMemoryConstrained :=
            match memory e with
            | Some (_, limit) =>
                Qltb (limit / (1024 * 1024) * (8 # 10)) currentMemory
            | None => isMemoryConstrained m
            end;
          currentQualityLevel := currentQualityLevel m;
          targetQualityLevel := targetQualityLevel m;
          updateTime := updateTime m; renderTime := renderTime m;
          shaderTime := shaderTime m;
          postProcessingTime := postProcessingTime m;
          physicsTime := physicsTime m;
          gcTime := gcTime';
          drawCalls :=
            match renderInfo e with
            | Some (c, _) => c
            | None => drawCalls m
            end;
          triangles :=
            match renderInfo e with
            | Some (_, tr) => tr
            | None => triangles m
            end;
          particles := particles m;
          frameBudgetUsage := frameBudgetUsage';
          hasFrameDrops :=
            Qltb (fmul targetFrameTime (roundDouble (12 # 10))) frameTime'
       |};
     settings := settings s;
     fpsHistory := fpsHistory';
     frameTimeHistory := frameTimeHistory';
     memoryHistory :=
       match memory e with
       | Some _ => pushWindow historySize currentMemory (memoryHistory s)
       | None => memoryHistory s
       end;
     lastAdjustmentTime := lastAdjustmentTime s;
     frameCount := frameCount s + 1;
     timingMarkers := timingMarkers s;
     sectionTimes := sectionTimes s;
     memoryPeakSeen := memoryPeak';
     frameStartTime := frameStartTime s;
     lastFrameTime := now e;
     lastDrawCalls := lastDrawCalls s;
     currentDrawCalls :=
       match renderInfo e with
       | Some (c, _) => c
       | None => currentDrawCalls s
       end;
     triangleCount := triangleCount s;
     particleCount := particleCount s;
     warnings := warnings s;
     memoryPressureEvents := memoryPressureEvents s |}.

Definition endFrame (e : FrameEnv) (s : t) : t * option Z :=
  checkQualityAdjustment (nowCheck e) (endFrameMetrics e s).

End WithSqrt.

Definition clampLevel (s : t) (lvl : Z) : Z :=
  Z.max 0 (Z.min (qualityLevels (settings s) - 1) lvl).

(** [setQualityLevel]: the callback is always called. *)
Definition setQualityLevel (lvl : Z) (s : t) : t * option Z :=
  let clampedLevel := clampLevel s lvl in
  (withMetrics (withQuality clampedLevel clampedLevel (metrics s)) s,
   Some clampedLevel).

(** [getMetrics] refreshes the particle count and returns a copy. *)
Definition getMetrics (s : t) : PerformanceMetrics * t :=
  let m := withParticles (particleCount s) (metrics s) in
  (m, withMetrics m s).

Definition getSectionPerformance (section : string) (s : t) : Q :=
  match sectionTimes s !! section with
  | None | Some [] => 0
  | Some times => average times
  end.

Definition isUnderMemoryPressure (s : t) : bool :=
  isMemoryConstrained (metrics s).

(** [handleMemoryPressure]: the monitor and whether the
    ['memory-pressure'] event was dispatched. *)
Definition handleMemoryPressure (s : t) : t * bool :=
  if isUnderMemoryPressure s then
    ({| metrics := metrics s; settings := settings s;
        fpsHistory := fpsHistory s;
        frameTimeHistory := frameTimeHistory s;
        memoryHistory := memoryHistory s;
        lastAdjustmentTime := lastAdjustmentTime s;
        frameCount := frameCount s; timingMarkers := timingMarkers s;
        sectionTimes := sectionTimes s;
        memoryPeakSeen := memoryPeakSeen s;
        frameStartTime := frameStartTime s;
        lastFrameTime := lastFrameTime s;
        lastDrawCalls := lastDrawCalls s;
        currentDrawCalls := currentDrawCalls s;
        triangleCount := triangleCount s;
        particleCount := particleCount s;
        warnings := warnings s;
        memoryPressureEvents := S (memoryPressureEvents s) |}, true)
  else (s, false).

End PerformanceMonitor.

(** ** The monitor wired to the LOD manager

    [VisualizationManager.initPerformanceMonitoring] builds a monitor and
    then a LOD manager on it; the LOD manager's constructor first calls the
    monitor's [setQualityLevel] (which runs the callback installed so far)
    and then replaces the monitor's [onQualityChange] by its own
    [setQualityLevel]. *)

Module System.

Record World := {
  monitor : PerformanceMonitor.t;
  lodManager : option LodManager.t;
  qualityChanges : list Z          (* arguments of onQualityChange calls *)
}.

Definition withMonitor (m : PerformanceMonitor.t) (w : World) : World :=
  {| monitor := m; lodManager := lodManager w;
     qualityChanges := qualityChanges w |}.

Definition withLod (l : option LodManager.t) (w : World) : World :=
  {| monitor := monitor w; lodManager := l;
     qualityChanges := qualityChanges w |}.

Definition liftLod (w : World) (r : result LodManager.t) : result World :=
  match r with
  | Returned l => Returned (withLod (Some l) w)
  | Thrown l => Thrown (withLod (Some l) w)
  end.

(** The callback held by the monitor: without a LOD manager it only
    reports; with one it also sets the manager's level. *)
Definition onQualityChange (lvl : Z) (w : World) : result World :=
  let w1 :=
    {| monitor := monitor w; lodManager := lodManager w;
       qualityChanges := qualityChanges w ++ [lvl] |} in
  match lodManager w1 with
  | None => Returned w1
  | Some l => liftLod w1 (LodManager.setQualityLevel lvl l)
  end.

(** Store the monitor a method returned and run the callback it asked
    for. *)
Definition notify (r : PerformanceMonitor.t * option Z) (w : World)
  : result World :=
  let w1 := withMonitor (fst r) w in
  match snd r with
  | None => Returned w1
  | Some lvl => onQualityChange lvl w1
  end.

Inductive Op :=
| BeginFrame (tnow : Q) (info : option (Z * Z))
| BeginSection (section : string) (tnow : Q)
| EndSection (section : string) (tnow : Q)
| TrackParticles (count : Z)
| EndFrame (e : PerformanceMonitor.FrameEnv)
| SetQualityLevel (lvl : Z)          (* PerformanceMonitor.setQualityLevel *)
| GetMetrics
| HandleMemoryPressure               (* PerformanceMonitor.handleMemoryPressure *)
| NewLodManager (d : LodManager.DeviceProbe) (dpr : Q)
                (r : LodManager.Renderer) (lvls : list LodManager.LodLevel)
| LodSetQualityLevel (lvl : Z)       (* LodManager.setQualityLevel *)
| LodShouldUpdate (importance distance : Q).

Definition create (p : PerformanceMonitor.PartialSettings) : World :=
  {| monitor := PerformanceMonitor.create p; lodManager := None;
     qualityChanges := [] |}.

Section WithSqrt.

Variable sqrt : Q -> Q.

Definition step (op : Op) (w : World) : result World :=
  match op with
  | BeginFrame tnow info =>
      Returned
        (withMonitor (PerformanceMonitor.beginFrame tnow info (monitor w)) w)
  | BeginSection n tnow =>
      Returned
        (withMonitor (PerformanceMonitor.beginSection n tnow (monitor w)) w)
  | EndSection n tnow =>
      Returned
        (withMonitor (PerformanceMonitor.endSection n tnow (monitor w)) w)
  | TrackParticles c =>
      Returned
        (withMonitor (PerformanceMonitor.trackParticles c (monitor w)) w)
  | EndFrame e => notify (PerformanceMonitor.endFrame sqrt e (monitor w)) w
  | SetQualityLevel lvl =>
      notify (PerformanceMonitor.setQualityLevel lvl (monitor w)) w
  | GetMetrics =>
      Returned
        (withMonitor (snd (PerformanceMonitor.getMetrics (monitor w))) w)
  | HandleMemoryPressure =>
      let '(m, dispatched) :=
        PerformanceMonitor.handleMemoryPressure (monitor w) in
      let w1 := withMonitor m w in
      if dispatched then
        match lodManager w1 with
        | None => Returned w1
        | Some l => liftLod w1 (LodManager.handleMemoryPressure l)
        end
      else Returned w1
  | NewLodManager d dpr r lvls =>
      match LodManager.create d dpr r lvls with
      | None => Thrown w
      | Some l =>
          bindR
            (notify
               (PerformanceMonitor.setQualityLevel
                  (LodManager.currentLevel l) (monitor w)) w)
            (fun w1 => Returned (withLod (Some l) w1))
      end
  | LodSetQualityLevel lvl =>
      match lodManager w with
      | None => Returned w
      | Some l => liftLod w (LodManager.setQualityLevel lvl l)
      end
  | LodShouldUpdate importance distance =>
      match lodManager w with
      | None => Returned w
      | Some l =>
          match LodManager.shouldUpdate importance distance l with
          | (None, l') => Thrown (withLod (Some l') w)
          | (Some _, l') => Returned (withLod (Some l') w)
          end
      end
  end.

(** A sequence of calls; a caller that catches a throw goes on from the
    state reached. *)
Definition run (ops : list Op) (w : World) : World :=
  fold_left (fun w op => stateOf (step op w)) ops w.

(** Whether an operation is an [endFrame] that evaluates the
    adjustment rules. *)
Definition evaluates (op : Op) (w : World) : bool :=
  match op with
  | EndFrame e =>
      PerformanceMonitor.evaluatesRules
        (PerformanceMonitor.nowCheck e)
        (PerformanceMonitor.endFrameMetrics sqrt e (monitor w))
  | _ => false
  end.

(** For every call of a sequence, whether it evaluated the rules. *)
Fixpoint evaluationLog (ops : list Op) (w : World) : list bool :=
  match ops with
  | [] => []
  | op :: rest =>
      evaluates op w :: evaluationLog rest (stateOf (step op w))
  end.

End WithSqrt.

(** Both levels of the monitor are within [[0, qualityLevels - 1]]. *)
Definition monitorInRange (m : PerformanceMonitor.t) : Prop :=
  let top :=
    PerformanceMonitor.qualityLevels (PerformanceMonitor.settings m) - 1 in
  0 <= PerformanceMonitor.currentQualityLevel (PerformanceMonitor.metrics m)
    <= top
  /\ 0 <= PerformanceMonitor.targetQualityLevel (PerformanceMonitor.metrics m)
       <= top.

(** The LOD manager, when there is one, points into its table. *)
Definition lodValid (o : option LodManager.t) : Prop :=
  forall l, o = Some l -> LodManager.indexValid l.

Definition levelsInRange (w : World) : Prop :=
  monitorInRange (monitor w) /\ lodValid (lodManager w).

(** Operations whose code calls [PerformanceMonitor.setQualityLevel]. *)
Definition callsSetQualityLevel (op : Op) : bool :=
  match op with
  | SetQualityLevel _ | NewLodManager _ _ _ _ => true
  | _ => false
  end.

End System.

(** ** Object pool (object-pool.ts)

    Objects are compared by identity, so the element type only needs a
    decidable, countable identity.  The factory is the sequence of objects
    it returns: [createFn n] is the object of the [n]-th creation by this
    pool.  Elapsed times of the two internal timers are inputs. *)

Module Pool.

Import Num.

Section Pool.

Context {T : Type} `{Countable T}.

Variable createFn : nat -> T.

Record t := {
  pool : list T;                 (* free list, pushed and popped at the end *)
  inUse : gset T;
  maxSize : Z;
  minSize : Z;
  objectSize : Z;
  creationTime : Q;
  resetTime : Q;
  creationCount : nat;
  usageHistory : list nat;
  poolHits : nat;
  poolMisses : nat;
  maxUsageCount : nat;
  lastAdaptiveCheck : Q;
  resets : list T;               (* resetFn(obj) calls, oldest first *)
  timers : list (nat * nat);     (* pending createBatch: created, toCreate *)
  warnings : nat                 (* console.warn calls *)
}.

Definition size (p : t) : nat := (length (pool p) + size (inUse p))%nat.
Definition available (p : t) : nat := length (pool p).
Definition inUseCount (p : t) : nat := base.size (inUse p).

Definition withPool (l : list T) (p : t) : t :=
  {| pool := l; inUse := inUse p; maxSize := maxSize p;
     minSize := minSize p; objectSize := objectSize p;
     creationTime := creationTime p; resetTime := resetTime p;
     creationCount := creationCount p; usageHistory := usageHistory p;
     poolHits := poolHits p; poolMisses := poolMisses p;
     maxUsageCount := maxUsageCount p;
     lastAdaptiveCheck := lastAdaptiveCheck p; resets := resets p;
     timers := timers p; warnings := warnings p |}.

(** [arr.pop()] *)
Definition pop (l : list T) : option (T * list T) :=
  match rev l with
  | [] => None
  | x :: r => Some (x, rev r)
  end.

(** One run of the [createBatch] closure of [prewarm]. *)
Definition createBatch (dt : Q) (created toCreate : nat) (p : t) : t :=
  let batchEnd := Nat.min (created + 10) toCreate in
  let n := (batchEnd - created)%nat in
  {| pool := pool p ++ map createFn (seq (creationCount p) n);
     inUse := inUse p; maxSize := maxSize p;
     minSize := minSize p; objectSize := objectSize p;
     creationTime := (creationTime p + dt)%Q; resetTime := resetTime p;
     creationCount := (creationCount p + n)%nat;
     usageHistory := usageHistory p;
     poolHits := poolHits p; poolMisses := poolMisses p;
     maxUsageCount := maxUsageCount p;
     lastAdaptiveCheck := lastAdaptiveCheck p; resets := resets p;
     timers :=
       if (batchEnd <? toCreate)%nat
       then timers p ++ [(batchEnd, toCreate)]
       else timers p;
     warnings := warnings p |}.

Definition prewarm (dt : Q) (count : Z) (p : t) : t :=
  let toCreate := Z.max 0 (count - Z.of_nat (length (pool p))) in
  if toCreate <=? 0 then p
  else createBatch dt 0 (Z.to_nat toCreate) p.

(** A pending [setTimeout(createBatch, 0)] fires. *)
Definition runTimer (dt : Q) (p : t) : t :=
  match timers p with
  | [] => p
  | (created, toCreate) :: rest =>
      createBatch dt created toCreate
        {| pool := pool p; inUse := inUse p; maxSize := maxSize p;
           minSize := minSize p; objectSize := objectSize p;
           creationTime := creationTime p; resetTime := resetTime p;
           creationCount := creationCount p;
           usageHistory := usageHistory p;
           poolHits := poolHits p; poolMisses := poolMisses p;
           maxUsageCount := maxUsageCount p;
           lastAdaptiveCheck := lastAdaptiveCheck p; resets := resets p;
           timers := rest; warnings := warnings p |}
  end.

(** The constructor. *)
Definition create (dt : Q) (initialSize maxSz minSz estimatedObjectSize : Z)
  : t :=
  let p :=
    {| pool := []; inUse := ∅; maxSize := maxSz; minSize := minSz;
       objectSize := estimatedObjectSize;
       creationTime := 0; resetTime := 0; creationCount := 0;
       usageHistory := []; poolHits := 0; poolMisses := 0;
       maxUsageCount := 0; lastAdaptiveCheck := 0; resets := [];
       timers := []; warnings := 0 |} in
  if 0 <? initialSize then prewarm dt initialSize p else p.

(** [pool.splice(0, removeCount)] inside [trim]. *)
Definition trim (maxSz : Z) (p : t) : t :=
  if Z.of_nat (length (pool p)) <=? maxSz then p
  else
    let removeCount := Z.of_nat (length (pool p)) - maxSz in
    withPool (drop (Z.to_nat removeCount) (pool p)) p.

Definition recordUsage (p : t) : list nat :=
  pushWindow 100 (base.size (inUse p)) (usageHistory p).

Definition checkAdaptiveSize (dt : Q) (p : t) : t :=
  if (length (usageHistory p) <? 50)%nat then p
  else
    let maxUsage := foldr Nat.max 0%nat (usageHistory p) in
    let idealPoolSize :=
      Z.max (minSize p)
            (Qceiling (inject_Z (Z.of_nat maxUsage) * (12 # 10))) in
    let len := Z.of_nat (length (pool p)) in
    if Qltb (inject_Z idealPoolSize * (15 # 10)) (inject_Z len)
    then trim idealPoolSize p
    else if (len <? idealPoolSize)
            && ((maxSize p =? 0)
                || (len + Z.of_nat (base.size (inUse p)) <? maxSize p))
    then prewarm dt (idealPoolSize - len) p
    else p.

(** [get()]: [dt] is the time the factory took when it is called. *)
Definition get (dt : Q) (p : t) : T * t :=
  let history := recordUsage p in
  match pop (pool p) with
  | Some (obj, rest) =>
      let inUse' := {[obj]} ∪ inUse p in
      (obj,
       {| pool := rest; inUse := inUse'; maxSize := maxSize p;
          minSize := minSize p; objectSize := objectSize p;
          creationTime := creationTime p; resetTime := resetTime p;
          creationCount := creationCount p; usageHistory := history;
          poolHits := S (poolHits p); poolMisses := poolMisses p;
          maxUsageCount := Nat.max (maxUsageCount p) (base.size inUse');
          lastAdaptiveCheck := lastAdaptiveCheck p; resets := resets p;
          timers := timers p; warnings := warnings p |})
  | None =>
      let obj := createFn (creationCount p) in
      let inUse' := {[obj]} ∪ inUse p in
      (obj,
       {| pool := pool p; inUse := inUse'; maxSize := maxSize p;
          minSize := minSize p; objectSize := objectSize p;
          creationTime := (creationTime p + dt)%Q;
          resetTime := resetTime p;
          creationCount := S (creationCount p); usageHistory := history;
          poolHits := poolHits p; poolMisses := S (poolMisses p);
          maxUsageCount := Nat.max (maxUsageCount p) (base.size inUse');
          lastAdaptiveCheck := lastAdaptiveCheck p; resets := resets p;
          timers := timers p; warnings := warnings p |})
  end.

(** [release(obj)]: [dtReset] is the time [resetFn] took, [dtCreate] the
    time of a prewarm batch the adaptive check may start. *)
Definition release (dtReset dtCreate : Q) (obj : T) (p : t) : t :=
  if negb (bool_decide (obj ∈ inUse p)) then
    {| pool := pool p; inUse := inUse p; maxSize := maxSize p;
       minSize := minSize p; objectSize := objectSize p;
       creationTime := creationTime p; resetTime := resetTime p;
       creationCount := creationCount p; usageHistory := usageHistory p;
       poolHits := poolHits p; poolMisses := poolMisses p;
       maxUsageCount := maxUsageCount p;
       lastAdaptiveCheck := lastAdaptiveCheck p; resets := resets p;
       timers := timers p; warnings := S (warnings p) |}
  else
    let p1 :=
      {| pool := pool p; inUse := inUse p ∖ {[obj]};
         maxSize := maxSize p;
         minSize := minSize p; objectSize := objectSize p;
         creationTime := creationTime p;
         resetTime := (resetTime p + dtReset)%Q;
         creationCount := creationCount p;
         usageHistory := usageHistory p;
         poolHits := poolHits p; poolMisses := poolMisses p;
         maxUsageCount := maxUsageCount p;
         lastAdaptiveCheck := lastAdaptiveCheck p;
         resets := resets p ++ [obj];
         timers := timers p; warnings := warnings p |} in
    if (0 <? maxSize p1) && (maxSize p1 <=? Z.of_nat (length (pool p1)))
    then p1
    else checkAdaptiveSize dtCreate (withPool (pool p1 ++ [obj]) p1).

Definition handleMemoryPressure (p : t) : t :=
  if minSize p <? Z.of_nat (length (pool p)) then
    let removeCount := Z.of_nat (length (pool p)) - minSize p in
    withPool (drop (Z.to_nat removeCount) (pool p)) p
  else p.

Definition getMemoryUsage (p : t) : Z :=
  Z.of_nat (length (pool p) + base.size (inUse p)) * objectSize p.

Definition clear (p : t) : t :=
  {| pool := []; inUse := ∅; maxSize := maxSize p;
     minSize := minSize p; objectSize := objectSize p;
     creationTime := creationTime p; resetTime := resetTime p;
     creationCount := creationCount p; usageHistory := [];
     poolHits := 0; poolMisses := 0; maxUsageCount := 0;
     lastAdaptiveCheck := 0; resets := resets p;
     timers := timers p; warnings := warnings p |}.

(** [getBatch(count)]: the objects handed out, in order, and the pool. *)
Fixpoint popMany (k : nat) (l acc : list T) : list T * list T :=
  match k with
  | O => (acc, l)
  | S k' =>
      match pop l with
      | Some (obj, rest) => popMany k' rest (acc ++ [obj])
      | None => (acc, l)
      end
  end.

Definition getBatch (dt : Q) (count : Z) (p : t) : list T * t :=
  let history := recordUsage p in
  let fromPool := Z.min count (Z.of_nat (length (pool p))) in
  let toCreate := count - fromPool in
  let '(taken, rest) := popMany (Z.to_nat fromPool) (pool p) [] in
  let n := Z.to_nat toCreate in
  let created := map createFn (seq (creationCount p) n) in
  let inUse' := list_to_set (taken ++ created) ∪ inUse p in
  (taken ++ created,
   {| pool := rest; inUse := inUse'; maxSize := maxSize p;
      minSize := minSize p; objectSize := objectSize p;
      creationTime :=
        if 0 <? toCreate then (creationTime p + dt)%Q else creationTime p;
      resetTime := resetTime p;
      creationCount := (creationCount p + n)%nat;
      usageHistory := history;
      poolHits := (poolHits p + Z.to_nat fromPool)%nat;
      poolMisses := (poolMisses p + n)%nat;
      maxUsageCount := Nat.max (maxUsageCount p) (base.size inUse');
      lastAdaptiveCheck := lastAdaptiveCheck p; resets := resets p;
      timers := timers p; warnings := warnings p |}).

(** The body of the loop of [releaseBatch]. *)
Definition releaseOne (obj : T) (p : t) : t :=
  if negb (bool_decide (obj ∈ inUse p)) then
    {| pool := pool p; inUse := inUse p; maxSize := maxSize p;
       minSize := minSize p; objectSize := objectSize p;
       creationTime := creationTime p; resetTime := resetTime p;
       creationCount := creationCount p; usageHistory := usageHistory p;
       poolHits := poolHits p; poolMisses := poolMisses p;
       maxUsageCount := maxUsageCount p;
       lastAdaptiveCheck := lastAdaptiveCheck p; resets := resets p;
       timers := timers p; warnings := S (warnings p) |}
  else
    {| pool :=
         if (0 <? maxSize p) && (maxSize p <=? Z.of_nat (length (pool p)))
         then pool p else pool p ++ [obj];
       inUse := inUse p ∖ {[obj]};
       maxSize := maxSize p;
       minSize := minSize p; objectSize := objectSize p;
       creationTime := creationTime p; resetTime := resetTime p;
       creationCount := creationCount p; usageHistory := usageHistory p;
       poolHits := poolHits p; poolMisses := poolMisses p;
       maxUsageCount := maxUsageCount p;
       lastAdaptiveCheck := lastAdaptiveCheck p;
       resets := resets p ++ [obj];
       timers := timers p; warnings := warnings p |}.

(** [releaseBatch(objects)]: [dtReset] is the time the loop took, [tnow] the
    clock read after it, [dtCreate] the time of a prewarm batch the adaptive
    check may start. *)
Definition releaseBatch (dtReset tnow dtCreate : Q) (objects : list T)
    (p : t) : t :=
  match objects with
  | [] => p
  | _ =>
      let p1 := fold_left (fun q obj => releaseOne obj q) objects p in
      let p2 :=
        {| pool := pool p1; inUse := inUse p1; maxSize := maxSize p1;
           minSize := minSize p1; objectSize := objectSize p1;
           creationTime := creationTime p1;
           resetTime := (resetTime p1 + dtReset)%Q;
           creationCount := creationCount p1;
           usageHistory := usageHistory p1;
           poolHits := poolHits p1; poolMisses := poolMisses p1;
           maxUsageCount := maxUsageCount p1;
           lastAdaptiveCheck := lastAdaptiveCheck p1; resets := resets p1;
           timers := timers p1; warnings := warnings p1 |} in
      if Qltb 5000 (tnow - lastAdaptiveCheck p2) then
        let p3 := checkAdaptiveSize dtCreate p2 in
        {| pool := pool p3; inUse := inUse p3; maxSize := maxSize p3;
           minSize := minSize p3; objectSize := objectSize p3;
           creationTime := creationTime p3; resetTime := resetTime p3;
           creationCount := creationCount p3;
           usageHistory := usageHistory p3;
           poolHits := poolHits p3; poolMisses := poolMisses p3;
           maxUsageCount := maxUsageCount p3;
           lastAdaptiveCheck := tnow; resets := resets p3;
           timers := timers p3; warnings := warnings p3 |}
      else p2
  end.

(** The calls a user of the pool can make, and a pending prewarm timer
    firing. *)
Inductive Op :=
| Get (dt : Q)
| Release (dtReset dtCreate : Q) (obj : T)
| GetBatch (dt : Q) (count : Z)
| ReleaseBatch (dtReset tnow dtCreate : Q) (objects : list T)
| Prewarm (dt : Q) (count : Z)
| Trim (maxSz : Z)
| HandleMemoryPressure
| Clear
| RunTimer (dt : Q).

Definition step (op : Op) (p : t) : t :=
  match op with
  | Get dt => snd (get dt p)
  | Release dtReset dtCreate obj => release dtReset dtCreate obj p
  | GetBatch dt count => snd (getBatch dt count p)
  | ReleaseBatch dtReset tnow dtCreate objects =>
      releaseBatch dtReset tnow dtCreate objects p
  | Prewarm dt count => prewarm dt count p
  | Trim maxSz => trim maxSz p
  | HandleMemoryPressure => handleMemoryPressure p
  | Clear => clear p
  | RunTimer dt => runTimer dt p
  end.

Definition run (ops : list Op) (p : t) : t :=
  fold_left (fun q op => step op q) ops p.

(** No object is twice in the free list, none is both free and in use, and
    every object the pool holds came from the factory. *)
Definition consistent (p : t) : Prop :=
  NoDup (pool p)
  /\ (forall x, x ∈ pool p -> x ∉ inUse p)
  /\ (forall x, x ∈ pool p \/ x ∈ inUse p ->
       exists k, (k < creationCount p)%nat /\ x = createFn k).

End Pool.

Arguments t T {_ _}.
Arguments Op T : clear implicits.

End Pool.

(** ** Base visualization (base-visualization.ts)

    Three.js objects, materials, geometries and textures are identities
    ([nat]).  An [Object3D] carries its subtree; [scene] is
    [scene.children].  [Object3D.add] detaches the object from where it
    was and appends it; [Object3D.remove] splices out the first child that
    is the object.  The clock reading of [clock.getElapsedTime()] and the
    distance of the camera from the origin are inputs of [update].  Calls
    into collaborators that are not modelled further are returned as a list
    of events, oldest first.  The LOD manager field holds the manager the
    visualization shares with its owner, and [update] returns it advanced. *)

Module BaseVisualization.

Import Num.

Inductive Materials :=
| SingleMaterial (m : nat)
| MaterialArray (ms : list nat).

Inductive Kind :=
| Mesh (geometry : nat) (material : Materials)
| Points
| Line
| Sprite
| Plain.

#[warnings="-register-all"] Inductive Object3D :=
| Obj (id : nat) (kind : Kind) (children : list Object3D).

Definition objId (o : Object3D) : nat := match o with Obj i _ _ => i end.
Definition objKind (o : Object3D) : Kind := match o with Obj _ k _ => k end.

(** Every object of a subtree. *)
Fixpoint subtreeIds (o : Object3D) : list nat :=
  match o with
  | Obj i _ cs => i :: List.flat_map subtreeIds cs
  end.

(** Every object of the scene graph. *)
Definition graphIds (sc : list Object3D) : list nat :=
  List.flat_map subtreeIds sc.

(** [scene.remove(object)] *)
Fixpoint sceneRemove (i : nat) (sc : list Object3D) : list Object3D :=
  match sc with
  | [] => []
  | c :: rest => if (objId c =? i)%nat then rest else c :: sceneRemove i rest
  end.

(** The object leaves its parent, wherever in the graph it was. *)
Fixpoint detach (i : nat) (o : Object3D) : Object3D :=
  match o with
  | Obj j k cs =>
      Obj j k
        ((fix go (l : list Object3D) : list Object3D :=
            match l with
            | [] => []
            | c :: r =>
                if (objId c =? i)%nat then go r else detach i c :: go r
            end) cs)
  end.

(** [scene.add(object)] *)
Definition sceneAdd (o : Object3D) (sc : list Object3D) : list Object3D :=
  map (detach (objId o))
      (List.filter (fun c => negb (objId c =? objId o)%nat) sc)
  ++ [o].

Record AudioAnalysisData := {
  volume : Q;
  beatDetected : bool;
  beatConfidence : Q;
  beatBpm : Q
}.

Record DetectedInstrument := {
  instrumentType : string;
  confidence : Q;
  amplitude : Q
}.

(** A cached resource and its [userData.lastUsed]. *)
Record Cached := {
  resource : nat;
  lastUsed : option Q
}.

Inductive ShaderComplexity := Low | Medium | High.

Inductive Event :=
| MonitorBeginSection (section : string)
| MonitorEndSection (section : string)
| RemoveEventListener
| DisposeMaterial (m : nat)
| DisposeGeometry (g : nat)
| DisposeTexture (x : nat)
| PoolClear (key : string)
| PoolMemoryPressure (key : string)
| UpdateVisualization (a : AudioAnalysisData).

Record t := {
  scene : list Object3D;
  objects : list nat;
  materials : list nat;
  geometries : list nat;
  uTime : Q;                         (* uniforms.time.value *)
  uBeat : Q;
  uVolume : Q;
  uQualityScale : Q;
  detectedInstruments : list DetectedInstrument;
  objectPools : gset string;
  lastUpdateTime : Q;
  frameCount : Z;
  isVisible : bool;
  distanceToCamera : Q;
  visibilityThreshold : Q;
  updateFrequency : Z;
  qualityScale : Q;
  drawCallBudget : Z;
  currentDrawCalls : Z;
  shouldBatchGeometry : bool;
  shaderComplexity : ShaderComplexity;
  useFrustumCulling : bool;
  boundingSpheres : gset nat;
  textureCache : gmap string Cached;
  materialCache : gmap string Cached;
  geometryCache : gmap string Cached;
  lastCleanupTime : Q;
  memoryCleanupInterval : Q;
  lodManager : option LodManager.t;
  performanceMonitor : bool          (* whether a monitor is attached *)
}.

(** The abstract method every visual style implements. *)
Class VisualStyle := {
  updateVisualization : AudioAnalysisData -> t -> t
}.

Definition section (v : t) (e : Event) : list Event :=
  if performanceMonitor v then [e] else [].

Definition complexityOf (q : Q) : ShaderComplexity :=
  if Qltb q (4 # 10) then Low
  else if Qltb q (8 # 10) then Medium
  else High.

(** The per-frame bookkeeping at the start of [update]. *)
Definition withFrame (time beat vol : Q) (ins : list DetectedInstrument)
    (dist : Q) (vis : bool) (v : t) : t :=
  {| scene := scene v; objects := objects v; materials := materials v;
     geometries := geometries v;
     uTime := time; uBeat := beat; uVolume := vol;
     uQualityScale := uQualityScale v;
     detectedInstruments := ins;
     objectPools := objectPools v; lastUpdateTime := lastUpdateTime v;
     frameCount := frameCount v + 1;
     isVisible := vis; distanceToCamera := dist;
     visibilityThreshold := visibilityThreshold v;
     updateFrequency := updateFrequency v;
     qualityScale := qualityScale v;
     drawCallBudget := drawCallBudget v;
     currentDrawCalls := currentDrawCalls v;
     shouldBatchGeometry := shouldBatchGeometry v;
     shaderComplexity := shaderComplexity v;
     useFrustumCulling := useFrustumCulling v;
     boundingSpheres := boundingSpheres v;
     textureCache := textureCache v; materialCache := materialCache v;
     geometryCache := geometryCache v;
     lastCleanupTime := lastCleanupTime v;
     memoryCleanupInterval := memoryCleanupInterval v;
     lodManager := lodManager v;
     performanceMonitor := performanceMonitor v |}.

Definition withLod (l : option LodManager.t) (v : t) : t :=
  {| scene := scene v; objects := objects v; materials := materials v;
     geometries := geometries v;
     uTime := uTime v; uBeat := uBeat v; uVolume := uVolume v;
     uQualityScale := uQualityScale v;
     detectedInstruments := detectedInstruments v;
     objectPools := objectPools v; lastUpdateTime := lastUpdateTime v;
     frameCount := frameCount v;
     isVisible := isVisible v; distanceToCamera := distanceToCamera v;
     visibilityThreshold := visibilityThreshold v;
     updateFrequency := updateFrequency v;
     qualityScale := qualityScale v;
     drawCallBudget := drawCallBudget v;
     currentDrawCalls := currentDrawCalls v;
     shouldBatchGeometry := shouldBatchGeometry v;
     shaderComplexity := shaderComplexity v;
     useFrustumCulling := useFrustumCulling v;
     boundingSpheres := boundingSpheres v;
     textureCache := textureCache v; materialCache := materialCache v;
     geometryCache := geometryCache v;
     lastCleanupTime := lastCleanupTime v;
     memoryCleanupInterval := memoryCleanupInterval v;
     lodManager := l;
     performanceMonitor := performanceMonitor v |}.

Definition withQualityScale (q : Q) (v : t) : t :=
  {| scene := scene v; objects := objects v; materials := materials v;
     geometries := geometries v;
     uTime := uTime v; uBeat := uBeat v; uVolume := uVolume v;
     uQualityScale := q;
     detectedInstruments := detectedInstruments v;
     objectPools := objectPools v; lastUpdateTime := lastUpdateTime v;
     frameCount := frameCount v;
     isVisible := isVisible v; distanceToCamera := distanceToCamera v;
     visibilityThreshold := visibilityThreshold v;
     updateFrequency := updateFrequency v;
     qualityScale := q;
     drawCallBudget := drawCallBudget v;
     currentDrawCalls := currentDrawCalls v;
     shouldBatchGeometry := shouldBatchGeometry v;
     shaderComplexity := complexityOf q;
     useFrustumCulling := useFrustumCulling v;
     boundingSpheres := boundingSpheres v;
     textureCache := textureCache v; materialCache := materialCache v;
     geometryCache := geometryCache v;
     lastCleanupTime := lastCleanupTime v;
     memoryCleanupInterval := memoryCleanupInterval v;
     lodManager := lodManager v;
     performanceMonitor := performanceMonitor v |}.

Definition withCaches (tc mc gc : gmap string Cached) (cleaned : Q) (v : t)
  : t :=
  {| scene := scene v; objects := objects v; materials := materials v;
     geometries := geometries v;
     uTime := uTime v; uBeat := uBeat v; uVolume := uVolume v;
     uQualityScale := uQualityScale v;
     detectedInstruments := detectedInstruments v;
     objectPools := objectPools v; lastUpdateTime := lastUpdateTime v;
     frameCount := frameCount v;
     isVisible := isVisible v; distanceToCamera := distanceToCamera v;
     visibilityThreshold := visibilityThreshold v;
     updateFrequency := updateFrequency v;
     qualityScale := qualityScale v;
     drawCallBudget := drawCallBudget v;
     currentDrawCalls := currentDrawCalls v;
     shouldBatchGeometry := shouldBatchGeometry v;
     shaderComplexity := shaderComplexity v;
     useFrustumCulling := useFrustumCulling v;
     boundingSpheres := boundingSpheres v;
     textureCache := tc; materialCache := mc; geometryCache := gc;
     lastCleanupTime := cleaned;
     memoryCleanupInterval := memoryCleanupInterval v;
     lodManager := lodManager v;
     performanceMonitor := performanceMonitor v |}.

Definition withUpdate (updated : Q) (calls : Z) (v : t) : t :=
  {| scene := scene v; objects := objects v; materials := materials v;
     geometries := geometries v;
     uTime := uTime v; uBeat := uBeat v; uVolume := uVolume v;
     uQualityScale := uQualityScale v;
     detectedInstruments := detectedInstruments v;
     objectPools := objectPools v; lastUpdateTime := updated;
     frameCount := frameCount v;
     isVisible := isVisible v; distanceToCamera := distanceToCamera v;
     visibilityThreshold := visibilityThreshold v;
     updateFrequency := updateFrequency v;
     qualityScale := qualityScale v;
     drawCallBudget := drawCallBudget v;
     currentDrawCalls := calls;
     shouldBatchGeometry := shouldBatchGeometry v;
     shaderComplexity := shaderComplexity v;
     useFrustumCulling := useFrustumCulling v;
     boundingSpheres := boundingSpheres v;
     textureCache := textureCache v; materialCache := materialCache v;
     geometryCache := geometryCache v;
     lastCleanupTime := lastCleanupTime v;
     memoryCleanupInterval := memoryCleanupInterval v;
     lodManager := lodManager v;
     performanceMonitor := performanceMonitor v |}.

Definition withTracking (sc : list Object3D) (os ms gs : list nat)
    (spheres : gset nat) (v : t) : t :=
  {| scene := sc; objects := os; materials := ms; geometries := gs;
     uTime := uTime v; uBeat := uBeat v; uVolume := uVolume v;
     uQualityScale := uQualityScale v;
     detectedInstruments := detectedInstruments v;
     objectPools := objectPools v; lastUpdateTime := lastUpdateTime v;
     frameCount := frameCount v;
     isVisible := isVisible v; distanceToCamera := distanceToCamera v;
     visibilityThreshold := visibilityThreshold v;
     updateFrequency := updateFrequency v;
     qualityScale := qualityScale v;
     drawCallBudget := drawCallBudget v;
     currentDrawCalls := currentDrawCalls v;
     shouldBatchGeometry := shouldBatchGeometry v;
     shaderComplexity := shaderComplexity v;
     useFrustumCulling := useFrustumCulling v;
     boundingSpheres := spheres;
     textureCache := textureCache v; materialCache := materialCache v;
     geometryCache := geometryCache v;
     lastCleanupTime := lastCleanupTime v;
     memoryCleanupInterval := memoryCleanupInterval v;
     lodManager := lodManager v;
     performanceMonitor := performanceMonitor v |}.

Definition withPools (ps : gset string) (v : t) : t :=
  {| scene := scene v; objects := objects v; materials := materials v;
     geometries := geometries v;
     uTime := uTime v; uBeat := uBeat v; uVolume := uVolume v;
     uQualityScale := uQualityScale v;
     detectedInstruments := detectedInstruments v;
     objectPools := ps; lastUpdateTime := lastUpdateTime v;
     frameCount := frameCount v;
     isVisible := isVisible v; distanceToCamera := distanceToCamera v;
     visibilityThreshold := visibilityThreshold v;
     updateFrequency := updateFrequency v;
     qualityScale := qualityScale v;
     drawCallBudget := drawCallBudget v;
     currentDrawCalls := currentDrawCalls v;
     shouldBatchGeometry := shouldBatchGeometry v;
     shaderComplexity := shaderComplexity v;
     useFrustumCulling := useFrustumCulling v;
     boundingSpheres := boundingSpheres v;
     textureCache := textureCache v; materialCache := materialCache v;
     geometryCache := geometryCache v;
     lastCleanupTime := lastCleanupTime v;
     memoryCleanupInterval := memoryCleanupInterval v;
     lodManager := lodManager v;
     performanceMonitor := performanceMonitor v |}.

(** [!x.userData.lastUsed || time - x.userData.lastUsed > 60] *)
Definition stale (time : Q) (c : Cached) : bool :=
  match lastUsed c with
  | None => true
  | Some u => Qeq_bool u 0 || Qltb 60 (time - u)
  end.

Definition kept (time : Q) (cache : gmap string Cached)
  : gmap string Cached :=
  filter (fun kv => stale time kv.2 = false) cache.

Definition allCached (cache : gmap string Cached) : list nat :=
  resource <$> (map_to_list cache).*2.

Definition swept (time : Q) (cache : gmap string Cached) : list nat :=
  allCached (filter (fun kv => stale time kv.2 = true) cache).

Definition cleanupUnusedResources (v : t) : t * list Event :=
  let time := uTime v in
  (withCaches (kept time (textureCache v)) (kept time (materialCache v))
     (kept time (geometryCache v)) (lastCleanupTime v) v,
   section v (MonitorBeginSection "cleanup")
   ++ (DisposeTexture <$> swept time (textureCache v))
   ++ (DisposeMaterial <$> swept time (materialCache v))
   ++ (DisposeGeometry <$> swept time (geometryCache v))
   ++ section v (MonitorEndSection "cleanup")).

Definition handleMemoryPressure (v : t) : t * list Event :=
  let '(v1, ev) := cleanupUnusedResources v in
  (withCaches ∅ ∅ ∅ (lastCleanupTime v1) v1,
   ev
   ++ (DisposeTexture <$> allCached (textureCache v1))
   ++ (DisposeMaterial <$> allCached (materialCache v1))
   ++ (DisposeGeometry <$> allCached (geometryCache v1))
   ++ (PoolMemoryPressure <$> elements (objectPools v1))).

(** [while (scene.children.length > 0) scene.remove(scene.children[0])];
    the fuel is the number of children at entry. *)
Fixpoint removeChildren (fuel : nat) (sc : list Object3D) : list Object3D :=
  match fuel, sc with
  | S f, c :: _ => removeChildren f (sceneRemove (objId c) sc)
  | _, _ => sc
  end.

Definition clearScene (removeAllChildren : bool) (v : t) : t :=
  let sc := fold_left (fun sc o => sceneRemove o sc) (objects v) (scene v) in
  withTracking
    (if removeAllChildren then removeChildren (length sc) sc else sc)
    [] (materials v) (geometries v) (boundingSpheres v) v.

Definition init (v : t) : t := clearScene true v.

Definition dispose (v : t) : t * list Event :=
  let events :=
    section v (MonitorBeginSection "dispose")
    ++ [RemoveEventListener]
    ++ (DisposeMaterial <$> materials v)
    ++ (DisposeGeometry <$> geometries v)
    ++ (PoolClear <$> elements (objectPools v))
    ++ (DisposeTexture <$> allCached (textureCache v))
    ++ (DisposeMaterial <$> allCached (materialCache v))
    ++ (DisposeGeometry <$> allCached (geometryCache v))
    ++ section v (MonitorEndSection "dispose") in
  let v1 := withCaches ∅ ∅ ∅ (lastCleanupTime v) v in
  let v2 := withPools ∅ (withTracking (scene v1) (objects v1) [] [] ∅ v1) in
  (clearScene true v2, events).

(** The frequency gate of [update]: the LOD manager's [shouldUpdate] and the
    quality resync, or the local modulo check; [None] when the LOD manager
    throws. *)
Definition frequencyGate (importanceFactor : Q) (v : t) : option bool * t :=
  match lodManager v with
  | Some l =>
      match LodManager.shouldUpdate importanceFactor (distanceToCamera v) l
      with
      | (None, l1) => (None, withLod (Some l1) v)
      | (Some due, l1) =>
          let v1 := withLod (Some l1) v in
          match LodManager.getEffectComplexity l1 with
          | None => (None, v1)
          | Some newQualityScale =>
              if negb (Qeq_bool newQualityScale (qualityScale v1))
              then (Some true, withQualityScale newQualityScale v1)
              else (Some due, v1)
          end
      end
  | None => (Some (remIsZero (frameCount v) (updateFrequency v)), v)
  end.

(** [isVisible] as [update] computes it from the camera. *)
Definition visibleFrom (camera : option Q) (v : t) : bool :=
  match camera with
  | Some d => Qltb d (visibilityThreshold v)
  | None => true
  end.

Definition update `{VisualStyle} (audioData : AudioAnalysisData)
    (instruments : list DetectedInstrument) (camera : option Q)
    (elapsed : Q) (v : t) : result t * list Event :=
  let ev0 := section v (MonitorBeginSection "update") in
  let v1 :=
    withFrame elapsed (if beatDetected audioData then 1 else 0)
      (volume audioData) instruments (default 0%Q camera)
      (visibleFrom camera v) v in
  let importanceFactor :=
    if beatDetected audioData then (9 # 10)%Q
    else if Qltb (7 # 10) (volume audioData) then (8 # 10)%Q
    else (5 # 10)%Q in
  match frequencyGate importanceFactor v1 with
  | (None, v2) => (Thrown v2, ev0)
  | (Some due, v2) =>
      let shouldUpdate :=
        if beatDetected audioData && Qltb (5 # 10) (beatConfidence audioData)
        then true else due in
      let currentTime := uTime v2 in
      let '(v3, ev1) :=
        if Qltb (memoryCleanupInterval v2 / 1000)
                (currentTime - lastCleanupTime v2)
        then
          let '(c, e) := cleanupUnusedResources v2 in
          (withCaches (textureCache c) (materialCache c) (geometryCache c)
             currentTime c, e)
        else (v2, []) in
      if negb (isVisible v3) || negb shouldUpdate then
        (Returned v3, ev0 ++ ev1 ++ section v3 (MonitorEndSection "update"))
      else
        let v4 := withUpdate (uTime v3) 0 v3 in
        let v5 := updateVisualization audioData v4 in
        (Returned v5,
         ev0 ++ ev1 ++ [UpdateVisualization audioData]
         ++ section v5 (MonitorEndSection "update"))
  end.

Definition isDrawable (k : Kind) : bool :=
  match k with Plain => false | _ => true end.

Definition isMesh (k : Kind) : bool :=
  match k with Mesh _ _ => true | _ => false end.

(** [if (!arr.includes(x)) arr.push(x)] *)
Definition pushNew (x : nat) (l : list nat) : list nat :=
  if bool_decide (x ∈ l) then l else l ++ [x].

Definition mergeWithExistingGeometry (o : Object3D) (v : t) : t :=
  match objKind o with
  | Mesh g m =>
      withTracking (sceneAdd o (scene v)) (objects v ++ [objId o])
        (match m with
         | SingleMaterial x => pushNew x (materials v)
         | MaterialArray _ => materials v
         end)
        (pushNew g (geometries v)) (boundingSpheres v) v
  | _ =>
      withTracking (sceneAdd o (scene v)) (objects v ++ [objId o])
        (materials v) (geometries v) (boundingSpheres v) v
  end.

Definition addObject (o : Object3D) (trackForDisposal : bool)
    (importance : Q) (v : t) : t * list Event :=
  let calls :=
    if isDrawable (objKind o) then currentDrawCalls v + 1
    else currentDrawCalls v in
  let v0 := withUpdate (lastUpdateTime v) calls v in
  let v1 :=
    if (drawCallBudget v0 <? calls) && isMesh (objKind o)
       && shouldBatchGeometry v0
    then mergeWithExistingGeometry o v0
    else
      let sc := sceneAdd o (scene v0) in
      let os :=
        if trackForDisposal then objects v0 ++ [objId o] else objects v0 in
      let tracked :=
        match objKind o with
        | Mesh g m =>
            withTracking sc os
              (match m with
               | SingleMaterial x => pushNew x (materials v0)
               | MaterialArray xs =>
                   fold_left (fun acc x => pushNew x acc) xs (materials v0)
               end)
              (pushNew g (geometries v0))
              (if useFrustumCulling v0
               then {[objId o]} ∪ boundingSpheres v0
               else boundingSpheres v0)
              v0
        | _ =>
            withTracking sc os (materials v0) (geometries v0)
              (boundingSpheres v0) v0
        end in
      if Qltb (7 # 10) importance
      then withLod (LodManager.markAsImportant (objId o) <$> lodManager tracked)
             tracked
      else tracked in
  (v1,
   section v (MonitorBeginSection "addObject")
   ++ section v (MonitorEndSection "addObject")).

Definition getObjectPool (key : string) (v : t) : t :=
  if bool_decide (key ∈ objectPools v) then v
  else withPools ({[key]} ∪ objectPools v) v.

(** [mapRange(value, inMin, inMax, outMin, outMax, clamp = false)]: the
    arguments are doubles and so is the result of each operation. *)
Definition mapRange (value inMin inMax outMin outMax : Q) (clamp : bool) : Q :=
  let result :=
    fadd (fdiv (fmul (fsub value inMin) (fsub outMax outMin))
               (fsub inMax inMin))
         outMin in
  if clamp then Qmax outMin (Qmin outMax result) else result.

(** [getParticleCount(baseCount)] of the visualization: [None] when the LOD
    manager throws. *)
Definition getParticleCount (baseCount : Q) (v : t) : option Z :=
  match lodManager v with
  | Some l => LodManager.getParticleCount baseCount (5 # 10) 0 l
  | None => Some (Qfloor (baseCount * qualityScale v))
  end.

(** [getGeometryDetail(baseDetail)] of the visualization. *)
Definition getGeometryDetail (baseDetail : Q) (v : t) : option Q :=
  match lodManager v with
  | Some l =>
      LodManager.getGeometryDetail baseDetail (Some (distanceToCamera v))
        (5 # 10) l
  | None =>
      let detail := (baseDetail * qualityScale v)%Q in
      Some (if Qltb 50 (distanceToCamera v)
            then (detail * Qmax (25 # 100)
                             (1 - (distanceToCamera v - 50) / 100))%Q
            else detail)
  end.

End BaseVisualization.

(** ** Concrete inputs used by the examples *)

Module Sample.

(** A rational stand-in for [Math.sqrt] on concrete runs: the integer square
    root taken at six decimals, exact on squares of such numbers. *)
Definition approxSqrt (q : Q) : Q :=
  Z.sqrt (Qnum q * Zpos (Qden q) * 10 ^ 12) # (Qden q * 10 ^ 6).

(** No setting overridden. *)
Definition noSettings : PerformanceMonitor.PartialSettings :=
  {| PerformanceMonitor.targetFpsOpt := None;
     PerformanceMonitor.criticalFpsOpt := None;
     PerformanceMonitor.adjustmentPeriodOpt := None;
     PerformanceMonitor.qualityLevelsOpt := None |}.

(** An [endFrame] reading at clock [t], without memory API or renderer
    counters. *)
Definition frameAt (t : Z) : PerformanceMonitor.FrameEnv :=
  {| PerformanceMonitor.now := inject_Z t;
     PerformanceMonitor.nowCheck := inject_Z t;
     PerformanceMonitor.memory := None;
     PerformanceMonitor.renderInfo := None |}.

(** A render loop: [n] frames 16 ms apart from clock [t0], each taking
    5 ms between [beginFrame] and [endFrame]. *)
Fixpoint steadyLoop (n : nat) (t0 : Z) : list System.Op :=
  match n with
  | O => []
  | S k =>
      System.BeginFrame (inject_Z t0) None
      :: System.EndFrame (frameAt (t0 + 5))
      :: steadyLoop k (t0 + 16)
  end.

Definition desktopProbe : LodManager.DeviceProbe :=
  {| LodManager.hasWebGL := true; LodManager.isMobile := false;
     LodManager.rendererRTX := true; LodManager.rendererRadeon := false;
     LodManager.rendererMobile := false; LodManager.rendererIntel := false;
     LodManager.rendererIris := false |}.

Definition plainRenderer : LodManager.Renderer :=
  {| LodManager.shadowMapEnabled := false;
     LodManager.shadowMapType := LodManager.BasicShadowMap;
     LodManager.pixelRatio := 1;
     LodManager.maxAnisotropyCapped := false |}.

(** A manager on the default table at the given level. *)
Definition managerAt (lvl : Z) : LodManager.t :=
  {| LodManager.levels := LodManager.DEFAULT_LOD_LEVELS;
     LodManager.currentLevel := lvl;
     LodManager.frameCounter := 0;
     LodManager.dynamicUpdateFrequency := true;
     LodManager.distanceScalingEnabled := true;
     LodManager.importanceBasedLod := true;
     LodManager.importantObjects := ∅;
     LodManager.adaptiveDistance := 50;
     LodManager.devicePixelRatio := 1;
     LodManager.renderer := plainRenderer;
     LodManager.events := [] |}.

(** A pool of numbered objects: the factory returns its call count. *)
Definition freshPool : Pool.t nat := Pool.create id 0 0 0 0 1024.

(** [n] times: [get()] an object and [release] it at once. *)
Fixpoint getReleaseCycles (n : nat) (p : Pool.t nat) : Pool.t nat :=
  match n with
  | O => p
  | S k =>
      let '(obj, p1) := Pool.get id 0 p in
      getReleaseCycles k (Pool.release id 0 0 obj p1)
  end.

(** A style whose [updateVisualization] only counts a draw call. *)
Definition countingStyle : BaseVisualization.VisualStyle :=
  {| BaseVisualization.updateVisualization :=
       fun _ v =>
         BaseVisualization.withUpdate (BaseVisualization.lastUpdateTime v)
           (BaseVisualization.currentDrawCalls v + 1) v |}.

(** A visualization wired to the LOD manager at the lowest level (update
    every 5 frames), in sync with its quality scale, holding two tracked
    objects, one of them nested under an untracked group, and one cached
    material. *)
Definition throttledVisualization : BaseVisualization.t :=
  {| BaseVisualization.scene :=
       [BaseVisualization.Obj 1
          (BaseVisualization.Mesh 10 (BaseVisualization.SingleMaterial 20)) [];
        BaseVisualization.Obj 2 BaseVisualization.Plain
          [BaseVisualization.Obj 3 BaseVisualization.Points []]];
     BaseVisualization.objects := [1; 3]%nat;
     BaseVisualization.materials := [20%nat];
     BaseVisualization.geometries := [10%nat];
     BaseVisualization.uTime := 0;
     BaseVisualization.uBeat := 0;
     BaseVisualization.uVolume := 0;
     BaseVisualization.uQualityScale := 1 # 10;
     BaseVisualization.detectedInstruments := [];
     BaseVisualization.objectPools := {["particles"]};
     BaseVisualization.lastUpdateTime := 0;
     BaseVisualization.frameCount := 0;
     BaseVisualization.isVisible := true;
     BaseVisualization.distanceToCamera := 0;
     BaseVisualization.visibilityThreshold := 100;
     BaseVisualization.updateFrequency := 5;
     BaseVisualization.qualityScale := 1 # 10;
     BaseVisualization.drawCallBudget := 20;
     BaseVisualization.currentDrawCalls := 0;
     BaseVisualization.shouldBatchGeometry := true;
     BaseVisualization.shaderComplexity := BaseVisualization.Low;
     BaseVisualization.useFrustumCulling := true;
     BaseVisualization.boundingSpheres := {[1%nat]};
     BaseVisualization.textureCache := ∅;
     BaseVisualization.materialCache :=
       {["glow" := {| BaseVisualization.resource := 21%nat;
                      BaseVisualization.lastUsed := Some 1%Q |}]};
     BaseVisualization.geometryCache := ∅;
     BaseVisualization.lastCleanupTime := 0;
     BaseVisualization.memoryCleanupInterval := 30000;
     BaseVisualization.lodManager := Some (managerAt 0);
     BaseVisualization.performanceMonitor := true |}.

(** A beat with confidence 0.9. *)
Definition confidentBeat : BaseVisualization.AudioAnalysisData :=
  {| BaseVisualization.volume := 3 # 10;
     BaseVisualization.beatDetected := true;
     BaseVisualization.beatConfidence := 9 # 10;
     BaseVisualization.beatBpm := 120 |}.

End Sample.

(** * Properties *)

(** ** Comparisons on measured numbers *)

Lemma Qltb_lt (a b : Q) : Num.Qltb a b = true <-> (a < b)%Q.
Proof.
  unfold Num.Qltb. rewrite negb_true_iff. split.
  - intros Hb. apply Qnot_le_lt. intros Hle.
    apply Qle_bool_iff in Hle. congruence.
  - intros Hlt. destruct (Qle_bool b a) eqn:E; [|reflexivity].
    apply Qle_bool_iff in E. exfalso. exact (Qlt_not_le _ _ Hlt E).
Qed.

Lemma Qltb_ge (a b : Q) : Num.Qltb a b = false <-> (b <= a)%Q.
Proof.
  unfold Num.Qltb. rewrite negb_false_iff. apply Qle_bool_iff.
Qed.

(** ** Rounding to the nearest double *)

Section Rounding.

Import Num.
Local Open Scope Q_scope.

Lemma pow2_pos (e : Z) : 0 < pow2 e.
Proof. apply Qpower_0_lt. reflexivity. Qed.

Lemma pow2_add (a b : Z) : pow2 (a + b) == pow2 a * pow2 b.
Proof. apply Qpower_plus. discriminate. Qed.

Lemma pow2_inject (z : Z) : (0 <= z)%Z -> pow2 z == inject_Z (2 ^ z).
Proof. intros Hz. unfold pow2. rewrite Zpower_Qpower by exact Hz. reflexivity. Qed.

Lemma pow2_le (a b : Z) : (a <= b)%Z -> pow2 a <= pow2 b.
Proof. intros Hab. apply Qpower_le_compat_l; [exact Hab|discriminate]. Qed.

Lemma pow2_succ (e : Z) : pow2 (e + 1) == 2 * pow2 e.
Proof. rewrite pow2_add. change (pow2 1) with 2. ring. Qed.

(** [roundQ] is a nearest integer, is monotone and fixes the integers. *)
Lemma roundQ_cases (s : Q) :
  (roundQ s = Qfloor s /\ s - inject_Z (Qfloor s) <= 1 # 2)
  \/ (roundQ s = (Qfloor s + 1)%Z /\ 1 # 2 <= s - inject_Z (Qfloor s)).
Proof.
  unfold roundQ.
  destruct (Qcompare_spec (s - inject_Z (Qfloor s)) (1 # 2)) as [E|E|E].
  - destruct (Z.even (Qfloor s)); [left|right]; split; try reflexivity;
      rewrite E; apply Qle_refl.
  - left. split; [reflexivity|apply Qlt_le_weak, E].
  - right. split; [reflexivity|apply Qlt_le_weak, E].
Qed.

Lemma roundQ_near (s : Q) :
  - (1 # 2) <= inject_Z (roundQ s) - s <= 1 # 2.
Proof.
  pose proof (Qfloor_le s) as Hlo. pose proof (Qlt_floor s) as Hhi.
  rewrite inject_Z_plus in Hhi. change (inject_Z 1) with 1 in Hhi.
  destruct (roundQ_cases s) as [[-> H]|[-> H]].
  - split; lra.
  - rewrite inject_Z_plus. change (inject_Z 1) with 1. split; lra.
Qed.

Lemma roundQ_inject (z : Z) : roundQ (inject_Z z) = z.
Proof.
  unfold roundQ. rewrite Qfloor_Z.
  destruct (Qcompare_spec (inject_Z z - inject_Z z) (1 # 2)) as [E|E|E].
  - exfalso. assert (H : inject_Z z - inject_Z z == 0) by ring.
    rewrite H in E. discriminate.
  - reflexivity.
  - exfalso. assert (H : inject_Z z - inject_Z z == 0) by ring.
    rewrite H in E. discriminate.
Qed.

Lemma roundQ_mono (s s' : Q) : s <= s' -> (roundQ s <= roundQ s')%Z.
Proof.
  intros Hs. pose proof (Qfloor_resp_le _ _ Hs) as Hq.
  destruct (Z.eq_dec (Qfloor s) (Qfloor s')) as [E|E].
  - unfold roundQ. rewrite <- E.
    destruct (Qcompare_spec (s - inject_Z (Qfloor s)) (1 # 2)) as [E1|E1|E1];
      destruct (Qcompare_spec (s' - inject_Z (Qfloor s)) (1 # 2))
        as [E2|E2|E2];
      try (destruct (Z.even (Qfloor s))); try lia; exfalso; lra.
  - destruct (roundQ_cases s) as [[-> _]|[-> _]];
      destruct (roundQ_cases s') as [[-> _]|[-> _]]; lia.
Qed.

(** The binade of a positive number. *)
Lemma ulpExponent_spec (x : Q) :
  0 < x ->
  pow2 52 * pow2 (ulpExponent x) <= x < pow2 53 * pow2 (ulpExponent x).
Proof.
  intros Hx. destruct x as [n d]. unfold ulpExponent. cbn [Qnum Qden].
  assert (Hn : (0 < n)%Z) by (unfold Qlt in Hx; cbn in Hx; lia).
  set (a := Z.log2 n). set (b := Z.log2 (Z.pos d)).
  destruct (Z.log2_spec n Hn) as [Ha1 Ha2]. fold a in Ha1, Ha2.
  destruct (Z.log2_spec (Z.pos d) eq_refl) as [Hb1 Hb2]. fold b in Hb1, Hb2.
  assert (Ha0 : (0 <= a)%Z) by apply Z.log2_nonneg.
  assert (Hb0 : (0 <= b)%Z) by apply Z.log2_nonneg.
  set (x := n # d) in *. set (e0 := (a - b - 52)%Z).
  assert (Hxd : x * inject_Z (Z.pos d) == inject_Z n).
  { unfold x. rewrite Qmake_Qdiv. field. discriminate. }
  assert (Hup : x < pow2 53 * pow2 e0).
  { apply (Qmult_lt_r _ _ (pow2 b) (pow2_pos b)).
    apply Qle_lt_trans with (inject_Z n).
    - rewrite <- Hxd. apply Qmult_le_l; [exact Hx|].
      rewrite pow2_inject by exact Hb0. rewrite <- Zle_Qle. exact Hb1.
    - rewrite <- !pow2_add. replace (53 + e0 + b)%Z with (Z.succ a)
        by (unfold e0; lia).
      rewrite pow2_inject by lia. rewrite <- Zlt_Qlt. exact Ha2. }
  assert (Hlo : pow2 51 * pow2 e0 < x).
  { apply (Qmult_lt_r _ _ (pow2 (Z.succ b)) (pow2_pos _)).
    apply Qle_lt_trans with (inject_Z n).
    - rewrite <- !pow2_add. replace (51 + e0 + Z.succ b)%Z with a
        by (unfold e0; lia).
      rewrite pow2_inject by lia. rewrite <- Zle_Qle. exact Ha1.
    - rewrite <- Hxd. apply Qmult_lt_l; [exact Hx|].
      rewrite pow2_inject by lia. rewrite <- Zlt_Qlt. exact Hb2. }
  destruct (Qltb (x / pow2 e0) (pow2 52)) eqn:E.
  - assert (Hlt : x / pow2 e0 < pow2 52).
    { unfold Qltb in E. apply negb_true_iff in E.
      apply Qnot_le_lt. intros H. apply Qle_bool_iff in H. congruence. }
    assert (Hx52 : x < pow2 52 * pow2 e0).
    { apply (Qmult_lt_r _ _ (/ pow2 e0)).
      - apply Qinv_lt_0_compat, pow2_pos.
      - assert (H1 : pow2 52 * pow2 e0 * / pow2 e0 == pow2 52).
        { field. intros H0. pose proof (pow2_pos e0) as Hp. rewrite H0 in Hp.
          discriminate. }
        rewrite H1. exact Hlt. }
    pose proof (pow2_succ (e0 - 1)) as Hs.
    replace (e0 - 1 + 1)%Z with e0 in Hs by lia.
    assert (H51 : pow2 52 == 2 * pow2 51) by reflexivity.
    assert (H53 : pow2 53 == 2 * pow2 52) by reflexivity.
    split.
    + apply Qlt_le_weak. rewrite H51.
      assert (Heq : 2 * pow2 51 * pow2 (e0 - 1) == pow2 51 * pow2 e0)
        by (rewrite Hs; ring).
      rewrite Heq. exact Hlo.
    + assert (Heq : pow2 53 * pow2 (e0 - 1) == pow2 52 * pow2 e0)
        by (rewrite H53, Hs; ring).
      rewrite Heq. exact Hx52.
  - split; [|exact Hup].
    unfold Qltb in E. apply negb_false_iff, Qle_bool_iff in E.
    apply (Qmult_le_r _ _ (/ pow2 e0)).
    + apply Qinv_lt_0_compat, pow2_pos.
    + assert (H1 : pow2 52 * pow2 e0 * / pow2 e0 == pow2 52).
      { field. intros H0. pose proof (pow2_pos e0) as Hp. rewrite H0 in Hp.
        discriminate. }
      rewrite H1. exact E.
Qed.


(** A positive number is rounded inside its binade, to within half a unit
    in the last place. *)
Lemma roundPositive_spec (x : Q) :
  0 < x ->
  let e := ulpExponent x in
  pow2 52 * pow2 e <= roundPositive x <= pow2 53 * pow2 e
  /\ - (pow2 e / 2) <= roundPositive x - x <= pow2 e / 2.
Proof.
  intros Hx. cbv zeta. destruct (ulpExponent_spec x Hx) as [Hlo Hhi].
  unfold roundPositive. set (e := ulpExponent x) in *.
  pose proof (pow2_pos e) as Hp.
  set (s := x / pow2 e).
  assert (Hs : s * pow2 e == x).
  { unfold s. field. intros H0. rewrite H0 in Hp. discriminate. }
  assert (Hs1 : pow2 52 <= s).
  { apply (Qmult_le_r _ _ (pow2 e) Hp). rewrite Hs. exact Hlo. }
  assert (Hs2 : s <= pow2 53).
  { apply Qlt_le_weak, (Qmult_lt_r _ _ (pow2 e) Hp). rewrite Hs. exact Hhi. }
  assert (Hm1 : pow2 52 <= inject_Z (roundQ s)).
  { change (pow2 52) with (inject_Z (2 ^ 52)) in *.
    rewrite <- Zle_Qle. rewrite <- (roundQ_inject (2 ^ 52)).
    apply roundQ_mono, Hs1. }
  assert (Hm2 : inject_Z (roundQ s) <= pow2 53).
  { change (pow2 53) with (inject_Z (2 ^ 53)) in *.
    rewrite <- Zle_Qle. rewrite <- (roundQ_inject (2 ^ 53)).
    apply roundQ_mono, Hs2. }
  pose proof (roundQ_near s) as [Hn1 Hn2].
  split; [split|split].
  - apply Qmult_le_compat_r; [exact Hm1|apply Qlt_le_weak, Hp].
  - apply Qmult_le_compat_r; [exact Hm2|apply Qlt_le_weak, Hp].
  - rewrite <- Hs.
    assert (H : 0 <= (inject_Z (roundQ s) - s + (1 # 2)) * pow2 e)
      by (apply Qmult_le_0_compat; lra).
    assert (E : inject_Z (roundQ s) * pow2 e - s * pow2 e
                == (inject_Z (roundQ s) - s + (1 # 2)) * pow2 e - pow2 e / 2)
      by field.
    rewrite E. set (t := (inject_Z (roundQ s) - s + (1 # 2)) * pow2 e) in *.
    clearbody t. clear -H. lra.
  - rewrite <- Hs.
    assert (H : 0 <= ((1 # 2) - (inject_Z (roundQ s) - s)) * pow2 e)
      by (apply Qmult_le_0_compat; lra).
    assert (E : inject_Z (roundQ s) * pow2 e - s * pow2 e
                == pow2 e / 2
                   - ((1 # 2) - (inject_Z (roundQ s) - s)) * pow2 e)
      by field.
    rewrite E. set (t := ((1 # 2) - (inject_Z (roundQ s) - s)) * pow2 e) in *.
    clearbody t. clear -H. lra.
Qed.

Lemma roundPositive_pos (x : Q) : 0 < x -> 0 < roundPositive x.
Proof.
  intros Hx. destruct (roundPositive_spec x Hx) as [[Hlo _] _].
  eapply Qlt_le_trans; [|exact Hlo].
  apply Qmult_lt_0_compat; apply pow2_pos.
Qed.

Lemma roundPositive_mono (x y : Q) :
  0 < x -> x <= y -> roundPositive x <= roundPositive y.
Proof.
  intros Hx Hxy. assert (Hy : 0 < y) by (eapply Qlt_le_trans; eassumption).
  destruct (ulpExponent_spec x Hx) as [Hx1 Hx2].
  destruct (ulpExponent_spec y Hy) as [Hy1 Hy2].
  destruct (roundPositive_spec x Hx) as [[_ Hrx] _].
  destruct (roundPositive_spec y Hy) as [[Hry _] _].
  cbv zeta in Hrx, Hry.
  set (ex := ulpExponent x) in *. set (ey := ulpExponent y) in *.
  assert (H53 : pow2 53 == 2 * pow2 52) by reflexivity.
  destruct (Z.lt_trichotomy ex ey) as [Hlt|[Heq|Hgt]].
  - apply Qle_trans with (pow2 53 * pow2 ex); [exact Hrx|].
    apply Qle_trans with (pow2 52 * pow2 ey); [|exact Hry].
    rewrite H53. pose proof (pow2_le (ex + 1) ey ltac:(lia)) as Hle.
    rewrite pow2_succ in Hle. pose proof (pow2_pos ex). nra.
  - unfold roundPositive. fold ex ey. rewrite Heq.
    apply Qmult_le_compat_r; [|apply Qlt_le_weak, pow2_pos].
    rewrite <- Zle_Qle. apply roundQ_mono.
    apply Qmult_le_compat_r; [exact Hxy|].
    apply Qlt_le_weak, Qinv_lt_0_compat, pow2_pos.
  - exfalso. pose proof (pow2_le (ey + 1) ex ltac:(lia)) as Hle.
    rewrite pow2_succ in Hle. pose proof (pow2_pos ey).
    assert (Hc : y < x); [|lra].
    eapply Qlt_le_trans; [exact Hy2|].
    eapply Qle_trans; [|exact Hx1]. rewrite H53. nra.
Qed.

(** Rounding to the nearest double is monotone, keeps the sign, fixes 0
    and has a relative error of at most [2^-53]. *)
Lemma roundDouble_zero (x : Q) : x == 0 -> roundDouble x = 0.
Proof. intros Hx. unfold roundDouble. apply Qeq_alt in Hx. rewrite Hx. reflexivity. Qed.

Lemma roundDouble_pos (x : Q) : 0 < x -> 0 < roundDouble x.
Proof.
  intros Hx. unfold roundDouble. pose proof Hx as Hc. apply Qgt_alt in Hc.
  rewrite Hc. apply roundPositive_pos, Hx.
Qed.

Lemma roundDouble_mono (x y : Q) : x <= y -> roundDouble x <= roundDouble y.
Proof.
  intros Hxy. unfold roundDouble.
  destruct (Qcompare_spec x 0) as [Ex|Ex|Ex];
    destruct (Qcompare_spec y 0) as [Ey|Ey|Ey]; try (exfalso; lra).
  - apply Qle_refl.
  - apply Qlt_le_weak, roundPositive_pos, Ey.
  - assert (H : 0 < roundPositive (- x)) by (apply roundPositive_pos; lra).
    lra.
  - assert (H : roundPositive (- y) <= roundPositive (- x))
      by (apply roundPositive_mono; lra).
    lra.
  - assert (H : 0 < roundPositive (- x)) by (apply roundPositive_pos; lra).
    pose proof (roundPositive_pos y Ey). lra.
  - apply roundPositive_mono; assumption.
Qed.

Lemma roundDouble_nonneg (x : Q) : 0 <= x -> 0 <= roundDouble x.
Proof. intros Hx. apply (roundDouble_mono 0 x Hx). Qed.

Lemma roundDouble_comp (x y : Q) : x == y -> roundDouble x == roundDouble y.
Proof.
  intros Hxy. apply Qle_antisym; apply roundDouble_mono; rewrite Hxy;
    apply Qle_refl.
Qed.

Lemma roundDouble_error (x : Q) :
  0 < x ->
  x * (1 - pow2 (-53)) <= roundDouble x <= x * (1 + pow2 (-53)).
Proof.
  intros Hx. unfold roundDouble. pose proof Hx as Hc. apply Qgt_alt in Hc.
  rewrite Hc. destruct (roundPositive_spec x Hx) as [_ [He1 He2]].
  destruct (ulpExponent_spec x Hx) as [Hlo _]. cbv zeta in He1, He2.
  set (u := pow2 (ulpExponent x)) in *.
  assert (Hu : u / 2 <= x * pow2 (-53)).
  { assert (H1 : pow2 52 * u * pow2 (-53) <= x * pow2 (-53))
      by (apply Qmult_le_compat_r; [exact Hlo|discriminate]).
    assert (H2 : pow2 52 * u * pow2 (-53) == u / 2).
    { assert (Hh : pow2 52 * pow2 (-53) == 1 # 2) by reflexivity.
      assert (Hr : pow2 52 * u * pow2 (-53) == pow2 52 * pow2 (-53) * u)
        by ring.
      rewrite Hr, Hh. field. }
    rewrite H2 in H1. exact H1. }
  set (r := roundPositive x) in *. set (k := x * pow2 (-53)) in *.
  assert (E1 : x * (1 - pow2 (-53)) == x - k) by (unfold k; ring).
  assert (E2 : x * (1 + pow2 (-53)) == x + k) by (unfold k; ring).
  rewrite E1, E2. clearbody r k u. clear -He1 He2 Hu. split; lra.
Qed.

Lemma Qmult_le_l' (x y z : Q) : 0 <= z -> x <= y -> z * x <= z * y.
Proof.
  intros Hz Hxy. rewrite (Qmult_comm z x), (Qmult_comm z y).
  apply Qmult_le_compat_r; assumption.
Qed.

Lemma fmul_error (a b : Q) :
  0 < a -> 0 < b ->
  a * b * (1 - pow2 (-53)) <= fmul a b <= a * b * (1 + pow2 (-53)).
Proof.
  intros Ha Hb. apply roundDouble_error. apply Qmult_lt_0_compat; assumption.
Qed.

Lemma fdiv_error (a b : Q) :
  0 < a -> 0 < b ->
  a / b * (1 - pow2 (-53)) <= fdiv a b <= a / b * (1 + pow2 (-53)).
Proof.
  intros Ha Hb. apply roundDouble_error.
  apply Qlt_shift_div_l; [exact Hb|]. rewrite Qmult_0_l. exact Ha.
Qed.

Lemma Qdiv_le_compat_pos (t a b : Q) :
  0 <= t -> 0 < a -> a <= b -> t / b <= t / a.
Proof.
  intros Ht Ha Hab. assert (Hb : 0 < b) by (eapply Qlt_le_trans; eassumption).
  apply Qle_shift_div_r; [exact Hb|].
  assert (Hq : 0 <= t / a).
  { apply Qle_shift_div_l; [exact Ha|]. rewrite Qmult_0_l. exact Ht. }
  assert (E : t == t / a * a) by (field; intros H0; rewrite H0 in Ha;
                                 discriminate).
  rewrite E at 1. apply Qmult_le_l'; assumption.
Qed.

(** The threshold [targetFrameTime * 1.2] of [endFrame], computed on
    doubles from a target FPS [f], is within a relative [2^-51] of
    [1.2 * (1000 / f)]. *)
Lemma budget_threshold_error (f : Q) :
  0 < f ->
  let threshold := fmul (fdiv 1000 f) (roundDouble (12 # 10)) in
  (12 # 10) * (1000 / f) * (1 - pow2 (-51)) <= threshold
  /\ threshold <= (12 # 10) * (1000 / f) * (1 + pow2 (-51)).
Proof.
  intros Hf. cbv zeta.
  assert (HT : 0 < 1000 / f).
  { apply Qlt_shift_div_l; [exact Hf|]. rewrite Qmult_0_l. reflexivity. }
  destruct (fdiv_error 1000 f eq_refl Hf) as [HA1 HA2].
  destruct (roundDouble_error (12 # 10) eq_refl) as [HB1 HB2].
  assert (HA : 0 < fdiv 1000 f)
    by (apply roundDouble_pos; exact HT).
  assert (HB : 0 < roundDouble (12 # 10))
    by (apply roundDouble_pos; reflexivity).
  destruct (fmul_error _ _ HA HB) as [HP1 HP2].
  set (A := fdiv 1000 f) in *. set (B := roundDouble (12 # 10)) in *.
  set (P := fmul A B) in *. set (T := 1000 / f) in *.
  assert (Hlo0 : 0 <= T * (1 - pow2 (-53))).
  { apply Qmult_le_0_compat; [apply Qlt_le_weak, HT|discriminate]. }
  split.
  - apply Qle_trans with (A * B * (1 - pow2 (-53))); [|exact HP1].
    apply Qle_trans
      with (T * (1 - pow2 (-53)) * ((12 # 10) * (1 - pow2 (-53)))
            * (1 - pow2 (-53))).
    + assert (E : T * (1 - pow2 (-53)) * ((12 # 10) * (1 - pow2 (-53)))
                  * (1 - pow2 (-53))
                  == (12 # 10) * T
                     * ((1 - pow2 (-53)) * (1 - pow2 (-53))
                        * (1 - pow2 (-53)))) by ring.
      rewrite E. apply Qmult_le_l'.
      * apply Qmult_le_0_compat; [discriminate|apply Qlt_le_weak, HT].
      * vm_compute. discriminate.
    + apply Qmult_le_compat_r; [|discriminate].
      apply Qmult_le_compat_nonneg; split; try assumption; discriminate.
  - apply Qle_trans with (A * B * (1 + pow2 (-53))); [exact HP2|].
    apply Qle_trans
      with (T * (1 + pow2 (-53)) * ((12 # 10) * (1 + pow2 (-53)))
            * (1 + pow2 (-53))).
    + apply Qmult_le_compat_r; [|discriminate].
      apply Qmult_le_compat_nonneg; split;
        try assumption; apply Qlt_le_weak; assumption.
    + assert (E : T * (1 + pow2 (-53)) * ((12 # 10) * (1 + pow2 (-53)))
                  * (1 + pow2 (-53))
                  == (12 # 10) * T
                     * ((1 + pow2 (-53)) * (1 + pow2 (-53))
                        * (1 + pow2 (-53)))) by ring.
      rewrite E. apply Qmult_le_l'.
      * apply Qmult_le_0_compat; [discriminate|apply Qlt_le_weak, HT].
      * vm_compute. discriminate.
Qed.

(** The quotient [frameTime / targetFrameTime] of [endFrame], computed on
    doubles, is within a relative [2^-51] of [t / (1000 / f)]. *)
Lemma budget_quotient_error (t f : Q) :
  0 <= t -> 0 < f ->
  let quotient := fdiv t (fdiv 1000 f) in
  t / (1000 / f) * (1 - pow2 (-51)) <= quotient
  /\ quotient <= t / (1000 / f) * (1 + pow2 (-51)).
Proof.
  intros Ht Hf. cbv zeta.
  assert (HT : 0 < 1000 / f).
  { apply Qlt_shift_div_l; [exact Hf|]. rewrite Qmult_0_l. reflexivity. }
  destruct (fdiv_error 1000 f eq_refl Hf) as [HA1 HA2].
  assert (HA : 0 < fdiv 1000 f) by (apply roundDouble_pos; exact HT).
  set (A := fdiv 1000 f) in *. set (T := 1000 / f) in *.
  destruct (Qle_lt_or_eq _ _ Ht) as [Hpos|Hzero].
  - destruct (fdiv_error t A Hpos HA) as [HD1 HD2].
    assert (Hlo : 0 < T * (1 - pow2 (-53))).
    { apply Qmult_lt_0_compat; [exact HT|reflexivity]. }
    assert (Hq : 0 <= t / T).
    { apply Qle_shift_div_l; [exact HT|]. rewrite Qmult_0_l. exact Ht. }
    pose proof (Qdiv_le_compat_pos t _ _ Ht HA HA2) as Hd1.
    pose proof (Qdiv_le_compat_pos t _ _ Ht Hlo HA1) as Hd2.
    split.
    + apply Qle_trans with (t / A * (1 - pow2 (-53))); [|exact HD1].
      apply Qle_trans
        with (t / (T * (1 + pow2 (-53))) * (1 - pow2 (-53))).
      * assert (E : t / (T * (1 + pow2 (-53))) * (1 - pow2 (-53))
                    == t / T * ((1 - pow2 (-53)) / (1 + pow2 (-53)))).
        { field. split; [discriminate|].
          intros H0. rewrite H0 in HT. discriminate. }
        rewrite E. apply Qmult_le_l'; [exact Hq|]. vm_compute. discriminate.
      * apply Qmult_le_compat_r; [exact Hd1|discriminate].
    + apply Qle_trans with (t / A * (1 + pow2 (-53))); [exact HD2|].
      apply Qle_trans
        with (t / (T * (1 - pow2 (-53))) * (1 + pow2 (-53))).
      * apply Qmult_le_compat_r; [exact Hd2|discriminate].
      * assert (E : t / (T * (1 - pow2 (-53))) * (1 + pow2 (-53))
                    == t / T * ((1 + pow2 (-53)) / (1 - pow2 (-53)))).
        { field. split; [discriminate|].
          intros H0. rewrite H0 in HT. discriminate. }
        rewrite E. apply Qmult_le_l'; [exact Hq|]. vm_compute. discriminate.
  - assert (Hz : fdiv t A = 0).
    { apply roundDouble_zero. rewrite <- Hzero. unfold Qdiv. ring. }
    rewrite Hz. assert (Ez : t / T == 0) by (rewrite <- Hzero; unfold Qdiv; ring).
    rewrite Ez. split; rewrite Qmult_0_l; apply Qle_refl.
Qed.

End Rounding.

(** ** LOD manager *)

Lemma index_Some_range {A} (l : list A) (i : Z) (x : A) :
  LodManager.index l i = Some x -> 0 <= i <= Z.of_nat (length l) - 1.
Proof.
  unfold LodManager.index. destruct (Z.ltb_spec i 0) as [|Hi]; [discriminate|].
  intros Hl. apply lookup_lt_Some in Hl. lia.
Qed.

Lemma index_range_Some {A} (l : list A) (i : Z) :
  0 <= i <= Z.of_nat (length l) - 1 -> is_Some (LodManager.index l i).
Proof.
  intros Hi. unfold LodManager.index.
  destruct (Z.ltb_spec i 0); [lia|]. apply lookup_lt_is_Some. lia.
Qed.

Lemma clampLevel_valid (m : LodManager.t) (n : Z) :
  LodManager.indexValid m ->
  0 <= LodManager.clampLevel m n <= Z.of_nat (length (LodManager.levels m)) - 1.
Proof. unfold LodManager.indexValid, LodManager.clampLevel. lia. Qed.

Lemma lod_setQualityLevel_levels (n : Z) (m : LodManager.t) :
  LodManager.levels (stateOf (LodManager.setQualityLevel n m))
  = LodManager.levels m.
Proof.
  unfold LodManager.setQualityLevel.
  destruct (_ =? _); [reflexivity|].
  destruct (LodManager.getCurrentLodLevel _); reflexivity.
Qed.

Lemma lod_setQualityLevel_current (n : Z) (m : LodManager.t) :
  LodManager.currentLevel (stateOf (LodManager.setQualityLevel n m))
  = LodManager.clampLevel m n.
Proof.
  unfold LodManager.setQualityLevel.
  destruct (Z.eqb_spec (LodManager.clampLevel m n) (LodManager.currentLevel m))
    as [E|E]; [symmetry; exact E|].
  destruct (LodManager.getCurrentLodLevel _); reflexivity.
Qed.

Lemma lod_setQualityLevel_valid (n : Z) (m : LodManager.t) :
  LodManager.indexValid m ->
  LodManager.indexValid (stateOf (LodManager.setQualityLevel n m)).
Proof.
  intros Hm. unfold LodManager.indexValid.
  rewrite lod_setQualityLevel_levels, lod_setQualityLevel_current.
  apply clampLevel_valid, Hm.
Qed.

(** On a manager whose index is valid, [setQualityLevel] does not throw. *)
Lemma lod_setQualityLevel_returns (n : Z) (m : LodManager.t) :
  LodManager.indexValid m ->
  hasThrown (LodManager.setQualityLevel n m) = false.
Proof.
  intros Hm. unfold LodManager.setQualityLevel.
  destruct (_ =? _); [reflexivity|].
  destruct (index_range_Some (LodManager.levels m) (LodManager.clampLevel m n))
    as [lod Hlod]; [apply clampLevel_valid, Hm|].
  unfold LodManager.getCurrentLodLevel. cbn. rewrite Hlod. reflexivity.
Qed.

Lemma lod_create_valid d dpr r lvls (m : LodManager.t) :
  LodManager.create d dpr r lvls = Some m -> LodManager.indexValid m.
Proof.
  unfold LodManager.create.
  destruct (LodManager.index lvls _) eqn:E; [|discriminate].
  intros [= <-]. apply index_Some_range in E. exact E.
Qed.

Lemma lod_handleMemoryPressure_valid (m : LodManager.t) :
  LodManager.indexValid m ->
  LodManager.indexValid (stateOf (LodManager.handleMemoryPressure m)).
Proof.
  intros Hm. unfold LodManager.handleMemoryPressure.
  destruct (0 <? LodManager.currentLevel m).
  - pose proof (lod_setQualityLevel_valid
                  (Z.max 0 (LodManager.currentLevel m - 1)) m Hm) as Hv.
    destruct (LodManager.setQualityLevel _ m); exact Hv.
  - exact Hm.
Qed.

Lemma lod_shouldUpdate_valid (i d : Q) (m : LodManager.t) :
  LodManager.indexValid m ->
  LodManager.indexValid (snd (LodManager.shouldUpdate i d m)).
Proof.
  intros Hm. unfold LodManager.shouldUpdate.
  destruct (LodManager.getCurrentLodLevel m); exact Hm.
Qed.

Lemma lod_shouldUpdate_answers (i d : Q) (m : LodManager.t) :
  LodManager.indexValid m ->
  is_Some (fst (LodManager.shouldUpdate i d m)).
Proof.
  intros Hm. unfold LodManager.shouldUpdate, LodManager.getCurrentLodLevel.
  destruct (index_range_Some _ _ Hm) as [lod ->]. cbn. eauto.
Qed.

(** C5. [LodManager.setQualityLevel] is idempotent.  For every manager and
    every level [n]: a second call with the same [n] right after the first
    returns without changing anything, so the two calls together run the
    LOD-change callback at most once; and a call whose clamped level is the
    current level returns the manager unchanged (no state change, no
    callback). *)
Theorem lod_setQualityLevel_idempotent (n : Z) (m : LodManager.t) :
  let r1 := LodManager.setQualityLevel n m in
  let r2 := LodManager.setQualityLevel n (stateOf r1) in
  r2 = Returned (stateOf r1)
  /\ (LodManager.lodChangeCalls (stateOf r2)
      <= S (LodManager.lodChangeCalls m))%nat
  /\ (LodManager.clampLevel m n = LodManager.currentLevel m ->
      r1 = Returned m).
Proof.
  cbv zeta.
  assert (Hnoop : forall m', LodManager.clampLevel m' n
                             = LodManager.currentLevel m' ->
                             LodManager.setQualityLevel n m' = Returned m').
  { intros m' E. unfold LodManager.setQualityLevel.
    rewrite E, Z.eqb_refl. reflexivity. }
  assert (H2 : LodManager.setQualityLevel n
                 (stateOf (LodManager.setQualityLevel n m))
               = Returned (stateOf (LodManager.setQualityLevel n m))).
  { apply Hnoop. rewrite lod_setQualityLevel_current.
    unfold LodManager.clampLevel. rewrite lod_setQualityLevel_levels.
    reflexivity. }
  split; [exact H2|]. split; [|apply Hnoop].
  rewrite H2. cbn [stateOf].
  unfold LodManager.setQualityLevel.
  destruct (_ =? _); cbn [stateOf]; [lia|].
  destruct (LodManager.getCurrentLodLevel _); cbn [stateOf].
  - unfold LodManager.lodChangeCalls. cbn.
    rewrite List.filter_app, length_app. cbn. lia.
  - unfold LodManager.lodChangeCalls. cbn. lia.
Qed.

(** C6. With the default table at the highest level,
    [getParticleCount(1000, 0.5, 0)] is exactly 1000; and at every valid
    level, for every base count, importance and distance, the count is at
    least [max(10, floor(0.1 * baseCount))]. *)
Theorem getParticleCount_floor (m : LodManager.t)
    (baseCount importance distance : Q) :
  LodManager.indexValid m ->
  (LodManager.levels m = LodManager.DEFAULT_LOD_LEVELS ->
   LodManager.currentLevel m = 4 ->
   LodManager.getParticleCount 1000 (1 # 2) 0 m = Some 1000)
  /\ exists n,
       LodManager.getParticleCount baseCount importance distance m = Some n
       /\ Z.max 10 (Qfloor (baseCount * (1 # 10))) <= n.
Proof.
  intros Hm. split.
  - intros Hl Hc. unfold LodManager.getParticleCount,
      LodManager.getCurrentLodLevel. rewrite Hl, Hc. cbn.
    destruct (LodManager.importanceBasedLod m); reflexivity.
  - unfold LodManager.getParticleCount, LodManager.getCurrentLodLevel.
    destruct (index_range_Some _ _ Hm) as [lod ->]. cbn.
    eexists. split; [reflexivity|]. apply Z.le_max_l.
Qed.

Lemma lod_setQualityLevel_idempotent_witness :
  LodManager.setQualityLevel 9 (Sample.managerAt 4)
  = Returned (Sample.managerAt 4)
  /\ (LodManager.lodChangeCalls
        (stateOf (LodManager.setQualityLevel 1
           (stateOf (LodManager.setQualityLevel 1 (Sample.managerAt 4)))))
      <= 1)%nat.
Proof.
  pose proof (lod_setQualityLevel_idempotent 9 (Sample.managerAt 4))
    as (_ & _ & Hnoop).
  pose proof (lod_setQualityLevel_idempotent 1 (Sample.managerAt 4))
    as (_ & Hcalls & _).
  split; [apply Hnoop; reflexivity | exact Hcalls].
Defined.

Lemma getParticleCount_floor_witness :
  LodManager.getParticleCount 1000 (1 # 2) 0 (Sample.managerAt 4) = Some 1000
  /\ exists n,
       LodManager.getParticleCount 250 (1 # 10) 200 (Sample.managerAt 0)
       = Some n
       /\ Z.max 10 (Qfloor (250 * (1 # 10))) <= n.
Proof.
  split.
  - apply (getParticleCount_floor (Sample.managerAt 4) 0 0 0);
      [unfold LodManager.indexValid; cbn; lia | reflexivity | reflexivity].
  - apply (getParticleCount_floor (Sample.managerAt 0) 250 (1 # 10) 200).
    unfold LodManager.indexValid; cbn; lia.
Defined.

(** ** Performance monitor *)

Section MonitorProperties.

Import PerformanceMonitor.

(** What [checkQualityAdjustment] can do: nothing, or, having evaluated the
    rules, stamp the time and store the proposed target. *)
Lemma checkQualityAdjustment_cases (tnow : Q) (s : t) :
  checkQualityAdjustment tnow s = (s, None)
  \/ exists lvl,
       evaluatesRules tnow s = true
       /\ proposeTarget s = (lvl, true)
       /\ lvl <> targetQualityLevel (metrics s)
       /\ checkQualityAdjustment tnow s
          = (withLastAdjustmentTime tnow
               (withMetrics
                  (withQuality (currentQualityLevel (metrics s)) lvl
                     (metrics s)) s),
             Some lvl).
Proof.
  unfold checkQualityAdjustment, evaluatesRules.
  destruct (Num.Qltb _ _); [left; reflexivity|].
  destruct (frameCount s <? 100); [left; reflexivity|].
  destruct (proposeTarget s) as [lvl needs].
  destruct needs; cbn [andb]; [|left; reflexivity].
  destruct (Z.eqb_spec lvl (targetQualityLevel (metrics s)));
    cbn [negb]; [left; reflexivity|].
  right. exists lvl. repeat split; assumption.
Qed.

Lemma checkQualityAdjustment_skips (tnow : Q) (s : t) :
  evaluatesRules tnow s = false -> checkQualityAdjustment tnow s = (s, None).
Proof.
  unfold checkQualityAdjustment, evaluatesRules.
  destruct (Num.Qltb _ _); [reflexivity|].
  destruct (frameCount s <? 100); [reflexivity|]. discriminate.
Qed.

Lemma proposeTarget_range (s : t) :
  let top := qualityLevels (settings s) - 1 in
  0 <= currentQualityLevel (metrics s) <= top ->
  0 <= fst (proposeTarget s) <= top.
Proof.
  cbv zeta. intros Hc. unfold proposeTarget.
  destruct (isMemoryConstrained _); [|destruct (isPerformanceCritical _);
    [|destruct (_ && _); [|destruct (_ && _ && _);
      [destruct (Z.ltb_spec (currentQualityLevel (metrics s))
                            (qualityLevels (settings s) - 1))|
       destruct (_ || _)]]]];
    destruct (Num.Qltb 30 _); cbn [fst]; lia.
Qed.

(** The proposal does not read the stored target. *)
Lemma proposeTarget_ignores_target (tgt : Z) (s : t) :
  proposeTarget
    (withMetrics (withQuality (currentQualityLevel (metrics s)) tgt (metrics s))
       s)
  = proposeTarget s.
Proof. reflexivity. Qed.

Variable sqrt : Q -> Q.

Lemma endFrame_cases (e : FrameEnv) (s : t) :
  let s1 := endFrameMetrics sqrt e s in
  endFrame sqrt e s = (s1, None)
  \/ exists lvl,
       evaluatesRules (nowCheck e) s1 = true
       /\ proposeTarget s1 = (lvl, true)
       /\ lvl <> targetQualityLevel (metrics s)
       /\ endFrame sqrt e s
          = (withLastAdjustmentTime (nowCheck e)
               (withMetrics
                  (withQuality (currentQualityLevel (metrics s)) lvl
                     (metrics s1)) s1),
             Some lvl).
Proof.
  cbv zeta. unfold endFrame.
  destruct (checkQualityAdjustment_cases (nowCheck e)
              (endFrameMetrics sqrt e s)) as [H|(lvl & H1 & H2 & H3 & H4)];
    [left; exact H|].
  right. exists lvl. repeat split; assumption.
Qed.

(** [endFrame] leaves the settings and the current level alone, and the
    target it stores is the proposal. *)
Lemma endFrame_settings (e : FrameEnv) (s : t) :
  settings (fst (endFrame sqrt e s)) = settings s.
Proof.
  destruct (endFrame_cases e s) as [H|(lvl & _ & _ & _ & H)];
    rewrite H; reflexivity.
Qed.

Lemma endFrame_current (e : FrameEnv) (s : t) :
  currentQualityLevel (metrics (fst (endFrame sqrt e s)))
  = currentQualityLevel (metrics s).
Proof.
  destruct (endFrame_cases e s) as [H|(lvl & _ & _ & _ & H)];
    rewrite H; reflexivity.
Qed.

Lemma endFrame_target (e : FrameEnv) (s : t) :
  let s' := fst (endFrame sqrt e s) in
  targetQualityLevel (metrics s') = targetQualityLevel (metrics s)
  \/ targetQualityLevel (metrics s')
     = fst (proposeTarget (endFrameMetrics sqrt e s)).
Proof.
  cbv zeta.
  destruct (endFrame_cases e s) as [H|(lvl & _ & Hp & _ & H)]; rewrite H.
  - left; reflexivity.
  - right. rewrite Hp. reflexivity.
Qed.

Lemma endFrame_budget_fields (e : FrameEnv) (s : t) :
  let m' := metrics (fst (endFrame sqrt e s)) in
  let frameTime' := Num.fsub (now e) (frameStartTime s) in
  let targetFrameTime := Num.fdiv 1000 (targetFps (settings s)) in
  frameTime m' = frameTime'
  /\ frameBudgetUsage m' = Qmin 1 (Num.fdiv frameTime' targetFrameTime)
  /\ hasFrameDrops m'
     = Num.Qltb (Num.fmul targetFrameTime (Num.roundDouble (12 # 10)))
         frameTime'.
Proof.
  cbv zeta.
  destruct (endFrame_cases e s) as [H|(lvl & _ & _ & _ & H)];
    rewrite H; repeat split; reflexivity.
Qed.

Lemma endFrame_stability_fields (e : FrameEnv) (s : t) :
  let s' := fst (endFrame sqrt e s) in
  fpsHistory s'
  = Num.pushWindow historySize (Num.orDefault (fps (metrics s)) 60)
      (fpsHistory s)
  /\ fps (metrics s') = Num.orDefault (fps (metrics s)) 60
  /\ fpsStability (metrics s')
     = if (5 <? length (fpsHistory s'))%nat
       then stabilityOf sqrt (fpsHistory s')
       else fpsStability (metrics s).
Proof.
  cbv zeta.
  destruct (endFrame_cases e s) as [H|(lvl & _ & _ & _ & H)];
    rewrite H; repeat split; reflexivity.
Qed.

End MonitorProperties.

(** C2, as amended.  For a [beginFrame] at clock [tb] followed by an
    [endFrame] at clock [now e], with [t >= 0] the frame time the code
    measures (the difference of the two clock readings, as a double) and
    target FPS [f > 0], the two figures are computed on doubles:
    [frameBudgetUsage] is [clamp(t (/) (1000 (/) f), 0, 1)] and
    [hasFrameDrops] holds exactly when [t > (1000 (/) f) (x) 1.2], where
    [(/)] and [(x)] are the division and the product of doubles and [1.2]
    is the double nearest to it.  The quotient and the threshold are within
    a relative [2^-51] of [t / (1000 / f)] and [1.2 * (1000 / f)]: the flag
    is set whenever [t > 1.2 * (1000 / f) * (1 + 2^-51)] and only if
    [t > 1.2 * (1000 / f) * (1 - 2^-51)]. *)
Theorem frame_budget_usage (sqrt : Q -> Q) (tb : Q) (info : option (Z * Z))
    (e : PerformanceMonitor.FrameEnv) (s : PerformanceMonitor.t) :
  let s2 :=
    fst (PerformanceMonitor.endFrame sqrt e
           (PerformanceMonitor.beginFrame tb info s)) in
  let t := Num.fsub (PerformanceMonitor.now e) tb in
  let f := PerformanceMonitor.targetFps (PerformanceMonitor.settings s) in
  let usage :=
    PerformanceMonitor.frameBudgetUsage (PerformanceMonitor.metrics s2) in
  let drops :=
    PerformanceMonitor.hasFrameDrops (PerformanceMonitor.metrics s2) in
  let threshold := Num.fmul (Num.fdiv 1000 f) (Num.roundDouble (12 # 10)) in
  let exact := (t / (1000 / f))%Q in
  (0 <= t)%Q -> (0 < f)%Q ->
  PerformanceMonitor.frameTime (PerformanceMonitor.metrics s2) = t
  /\ (usage == Qmax 0 (Qmin 1 (Num.fdiv t (Num.fdiv 1000 f))))%Q
  /\ (Qmax 0 (Qmin 1 (exact * (1 - Num.pow2 (-51)))) <= usage)%Q
  /\ (usage <= Qmax 0 (Qmin 1 (exact * (1 + Num.pow2 (-51)))))%Q
  /\ (drops = true <-> (threshold < t)%Q)
  /\ (((12 # 10) * (1000 / f) * (1 + Num.pow2 (-51)) < t)%Q -> drops = true)
  /\ (drops = true -> ((12 # 10) * (1000 / f) * (1 - Num.pow2 (-51)) < t)%Q).
Proof.
  cbv zeta. intros Ht Hf.
  destruct (endFrame_budget_fields sqrt e
              (PerformanceMonitor.beginFrame tb info s)) as (Hft & Hu & Hd).
  cbn [PerformanceMonitor.beginFrame PerformanceMonitor.frameStartTime
       PerformanceMonitor.settings] in Hft, Hu, Hd.
  split; [exact Hft|].
  rewrite Hu, Hd. clear Hft Hu Hd.
  destruct (budget_quotient_error _ _ Ht Hf) as [Hq1 Hq2].
  destruct (budget_threshold_error _ Hf) as [Ht1 Ht2].
  cbv zeta in Hq1, Hq2, Ht1, Ht2.
  set (q := Num.fdiv (Num.fsub (PerformanceMonitor.now e) tb)
              (Num.fdiv 1000
                 (PerformanceMonitor.targetFps (PerformanceMonitor.settings s))))
    in *.
  set (thr := Num.fmul _ _) in *.
  assert (Hq0 : (0 <= q)%Q).
  { apply roundDouble_nonneg. apply Qle_shift_div_l.
    - apply roundDouble_pos. apply Qlt_shift_div_l; [exact Hf|].
      rewrite Qmult_0_l. reflexivity.
    - rewrite Qmult_0_l. exact Ht. }
  assert (Hclamp : (Qmin 1 q == Qmax 0 (Qmin 1 q))%Q).
  { symmetry. apply Q.max_r. apply Q.min_glb; [discriminate|exact Hq0]. }
  split; [exact Hclamp|]. rewrite Hclamp.
  split; [apply Q.max_le_compat_l, Q.min_le_compat_l, Hq1|].
  split; [apply Q.max_le_compat_l, Q.min_le_compat_l, Hq2|].
  split; [apply Qltb_lt|]. split.
  - intros Hover. apply Qltb_lt. eapply Qle_lt_trans; eassumption.
  - intros Hdrop. apply Qltb_lt in Hdrop. eapply Qle_lt_trans; eassumption.
Qed.

Lemma frame_budget_usage_witness :
  let s2 :=
    fst (PerformanceMonitor.endFrame Sample.approxSqrt (Sample.frameAt 1030)
           (PerformanceMonitor.beginFrame 1000 None
              (PerformanceMonitor.create Sample.noSettings))) in
  PerformanceMonitor.frameTime (PerformanceMonitor.metrics s2)
  = Num.fsub 1030 1000
  /\ (PerformanceMonitor.frameBudgetUsage (PerformanceMonitor.metrics s2)
      == Qmax 0 (Qmin 1 (Num.fdiv (Num.fsub 1030 1000) (Num.fdiv 1000 60))))%Q
  /\ PerformanceMonitor.hasFrameDrops (PerformanceMonitor.metrics s2) = true.
Proof.
  cbv zeta.
  destruct (frame_budget_usage Sample.approxSqrt 1000 None
              (Sample.frameAt 1030)
              (PerformanceMonitor.create Sample.noSettings))
    as (Hft & Hu & _ & _ & _ & Hover & _).
  - vm_compute. discriminate.
  - reflexivity.
  - split; [exact Hft|]. split; [exact Hu|]. apply Hover.
    vm_compute. reflexivity.
Defined.

(** C2 as stated fails at the threshold.  At a target of 24 FPS the code
    computes [1000 / 24 * 1.2] as the double just below 50, so a frame of
    exactly 50 ms sets [hasFrameDrops] although [50 > 1.2 * (1000 / 24)]
    is false. *)
Lemma frame_drop_at_exact_threshold :
  let s :=
    PerformanceMonitor.create
      {| PerformanceMonitor.targetFpsOpt := Some 24%Q;
         PerformanceMonitor.criticalFpsOpt := None;
         PerformanceMonitor.adjustmentPeriodOpt := None;
         PerformanceMonitor.qualityLevelsOpt := None |} in
  let s2 :=
    fst (PerformanceMonitor.endFrame Sample.approxSqrt (Sample.frameAt 50)
           (PerformanceMonitor.beginFrame 0 None s)) in
  let t := Num.fsub (PerformanceMonitor.now (Sample.frameAt 50)) 0 in
  let f := PerformanceMonitor.targetFps (PerformanceMonitor.settings s) in
  (t == 50)%Q /\ (f == 24)%Q
  /\ PerformanceMonitor.frameTime (PerformanceMonitor.metrics s2) = t
  /\ PerformanceMonitor.hasFrameDrops (PerformanceMonitor.metrics s2) = true
  /\ ~ ((12 # 10) * (1000 / f) < t)%Q
  /\ (Num.fmul (Num.fdiv 1000 f) (Num.roundDouble (12 # 10))
      == 7036874417766399 # 140737488355328)%Q.
Proof.
  cbv zeta. split; [vm_compute; reflexivity|]. split; [reflexivity|].
  split; [reflexivity|].
  split; [vm_compute; reflexivity|]. split; [vm_compute; discriminate|].
  vm_compute. reflexivity.
Qed.

(** ** The closed loop: monitor and LOD manager *)

Section LoopProperties.

Variable sqrt : Q -> Q.

Lemma lodValid_liftLod (w : System.World) (r : result LodManager.t) :
  LodManager.indexValid (stateOf r) ->
  System.lodValid (System.lodManager (stateOf (System.liftLod w r))).
Proof.
  intros Hv l. destruct r; cbn; intros [= <-]; exact Hv.
Qed.

Lemma monitor_liftLod (w : System.World) (r : result LodManager.t) :
  System.monitor (stateOf (System.liftLod w r)) = System.monitor w.
Proof. destruct r; reflexivity. Qed.

Lemma onQualityChange_monitor (lvl : Z) (w : System.World) :
  System.monitor (stateOf (System.onQualityChange lvl w)) = System.monitor w.
Proof.
  unfold System.onQualityChange. cbn.
  destruct (System.lodManager w); [|reflexivity].
  rewrite monitor_liftLod. reflexivity.
Qed.

Lemma onQualityChange_lodValid (lvl : Z) (w : System.World) :
  System.lodValid (System.lodManager w) ->
  System.lodValid (System.lodManager (stateOf (System.onQualityChange lvl w))).
Proof.
  intros Hv. unfold System.onQualityChange. cbn.
  destruct (System.lodManager w) as [l|] eqn:E; [|intros l; discriminate].
  apply lodValid_liftLod, lod_setQualityLevel_valid, Hv. reflexivity.
Qed.

Lemma notify_monitor (r : PerformanceMonitor.t * option Z) (w : System.World) :
  System.monitor (stateOf (System.notify r w)) = fst r.
Proof.
  unfold System.notify. destruct (snd r); [|reflexivity].
  rewrite onQualityChange_monitor. reflexivity.
Qed.

Lemma notify_lodValid (r : PerformanceMonitor.t * option Z)
    (w : System.World) :
  System.lodValid (System.lodManager w) ->
  System.lodValid (System.lodManager (stateOf (System.notify r w))).
Proof.
  intros Hv. unfold System.notify. destruct (snd r); [|exact Hv].
  apply onQualityChange_lodValid. exact Hv.
Qed.

(** What a step does to the monitor alone. *)
Lemma step_monitor (op : System.Op) (w : System.World) :
  let m := System.monitor w in
  System.monitor (stateOf (System.step sqrt op w))
  = match op with
    | System.BeginFrame tnow info => PerformanceMonitor.beginFrame tnow info m
    | System.BeginSection n tnow => PerformanceMonitor.beginSection n tnow m
    | System.EndSection n tnow => PerformanceMonitor.endSection n tnow m
    | System.TrackParticles c => PerformanceMonitor.trackParticles c m
    | System.EndFrame e => fst (PerformanceMonitor.endFrame sqrt e m)
    | System.SetQualityLevel lvl =>
        fst (PerformanceMonitor.setQualityLevel lvl m)
    | System.GetMetrics => snd (PerformanceMonitor.getMetrics m)
    | System.HandleMemoryPressure =>
        fst (PerformanceMonitor.handleMemoryPressure m)
    | System.NewLodManager d dpr r lvls =>
        match LodManager.create d dpr r lvls with
        | None => m
        | Some l =>
            fst (PerformanceMonitor.setQualityLevel
                   (LodManager.currentLevel l) m)
        end
    | System.LodSetQualityLevel _ | System.LodShouldUpdate _ _ => m
    end.
Proof.
  cbv zeta. destruct op; cbn [System.step]; try reflexivity.
  - apply notify_monitor.
  - apply notify_monitor.
  - destruct (PerformanceMonitor.handleMemoryPressure (System.monitor w))
      as [m dispatched]. destruct dispatched; [|reflexivity]. cbn.
    destruct (System.lodManager w); [apply monitor_liftLod|reflexivity].
  - destruct (LodManager.create d dpr r lvls); [|reflexivity].
    pose proof (notify_monitor
      (PerformanceMonitor.setQualityLevel (LodManager.currentLevel t)
         (System.monitor w)) w) as Hn.
    destruct (System.notify _ w); cbn in *; exact Hn.
  - destruct (System.lodManager w); [apply monitor_liftLod|reflexivity].
  - destruct (System.lodManager w); [|reflexivity].
    destruct (LodManager.shouldUpdate importance distance t) as [[b|] l'];
      reflexivity.
Qed.

Lemma step_lodValid (op : System.Op) (w : System.World) :
  System.lodValid (System.lodManager w) ->
  System.lodValid (System.lodManager (stateOf (System.step sqrt op w))).
Proof.
  intros Hv. destruct op; cbn [System.step]; try exact Hv.
  - apply notify_lodValid, Hv.
  - apply notify_lodValid, Hv.
  - destruct (PerformanceMonitor.handleMemoryPressure (System.monitor w))
      as [m dispatched]. destruct dispatched; [|exact Hv]. cbn.
    destruct (System.lodManager w) as [l|] eqn:E.
    + apply lodValid_liftLod, lod_handleMemoryPressure_valid, Hv. reflexivity.
    + intros l Hl. cbn in Hl. congruence.
  - destruct (LodManager.create d dpr r lvls) as [l|] eqn:E; [|exact Hv].
    pose proof (notify_lodValid
      (PerformanceMonitor.setQualityLevel (LodManager.currentLevel l)
         (System.monitor w)) w Hv) as Hn.
    destruct (System.notify _ w); cbn in *; [|exact Hn].
    intros l' [= <-]. exact (lod_create_valid _ _ _ _ _ E).
  - destruct (System.lodManager w) as [l|] eqn:E.
    + apply lodValid_liftLod, lod_setQualityLevel_valid, Hv. reflexivity.
    + intros l Hl. cbn in Hl. congruence.
  - destruct (System.lodManager w) as [l|] eqn:E.
    + pose proof (lod_shouldUpdate_valid importance distance l (Hv l eq_refl))
        as Hs.
      destruct (LodManager.shouldUpdate importance distance l) as [[b|] l'];
        cbn in *; intros l0 [= <-]; exact Hs.
    + intros l Hl. cbn in Hl. congruence.
Qed.

Lemma step_settings (op : System.Op) (w : System.World) :
  PerformanceMonitor.settings (System.monitor (stateOf (System.step sqrt op w)))
  = PerformanceMonitor.settings (System.monitor w).
Proof.
  rewrite step_monitor. destruct op; try reflexivity.
  - unfold PerformanceMonitor.endSection.
    destruct (_ !! _); reflexivity.
  - apply endFrame_settings.
  - unfold PerformanceMonitor.handleMemoryPressure.
    destruct (PerformanceMonitor.isUnderMemoryPressure _); reflexivity.
  - destruct (LodManager.create d dpr r lvls); reflexivity.
Qed.

Lemma setQualityLevel_inRange (lvl : Z) (m : PerformanceMonitor.t) :
  1 <= PerformanceMonitor.qualityLevels (PerformanceMonitor.settings m) ->
  System.monitorInRange (fst (PerformanceMonitor.setQualityLevel lvl m)).
Proof.
  intros Hq. unfold System.monitorInRange. cbn.
  unfold PerformanceMonitor.clampLevel. lia.
Qed.

Lemma endFrame_inRange (e : PerformanceMonitor.FrameEnv)
    (m : PerformanceMonitor.t) :
  System.monitorInRange m ->
  System.monitorInRange (fst (PerformanceMonitor.endFrame sqrt e m)).
Proof.
  intros [Hc Ht]. unfold System.monitorInRange.
  rewrite endFrame_settings, endFrame_current. split; [exact Hc|].
  destruct (endFrame_target sqrt e m) as [-> | ->]; [exact Ht|].
  apply (proposeTarget_range (PerformanceMonitor.endFrameMetrics sqrt e m)).
  exact Hc.
Qed.

Lemma step_monitorInRange (op : System.Op) (w : System.World) :
  1 <= PerformanceMonitor.qualityLevels
         (PerformanceMonitor.settings (System.monitor w)) ->
  System.monitorInRange (System.monitor w) ->
  System.monitorInRange (System.monitor (stateOf (System.step sqrt op w))).
Proof.
  intros Hq Hm. rewrite step_monitor. destruct op; try exact Hm.
  - unfold PerformanceMonitor.endSection. destruct (_ !! _); exact Hm.
  - apply endFrame_inRange, Hm.
  - apply setQualityLevel_inRange, Hq.
  - unfold PerformanceMonitor.handleMemoryPressure.
    destruct (PerformanceMonitor.isUnderMemoryPressure _); exact Hm.
  - destruct (LodManager.create d dpr r lvls); [|exact Hm].
    apply setQualityLevel_inRange, Hq.
Qed.

Lemma run_levelsInRange (ops : list System.Op) (w : System.World) :
  1 <= PerformanceMonitor.qualityLevels
         (PerformanceMonitor.settings (System.monitor w)) ->
  System.levelsInRange w ->
  System.levelsInRange (System.run sqrt ops w).
Proof.
  revert w. induction ops as [|op ops IH]; intros w Hq [Hm Hl]; [split; auto|].
  cbn. apply IH.
  - rewrite step_settings. exact Hq.
  - split; [apply step_monitorInRange; assumption|apply step_lodValid, Hl].
Qed.

Lemma create_levelsInRange (p : PerformanceMonitor.PartialSettings) :
  1 <= PerformanceMonitor.qualityLevels (PerformanceMonitor.defaultSettings p) ->
  System.levelsInRange (System.create p).
Proof.
  intros Hq. split.
  - unfold System.monitorInRange. cbn in *. lia.
  - intros l. discriminate.
Qed.

(** C1. From construction with at least one quality level, after every
    sequence of monitor and LOD-manager calls ([endFrame] evaluations with
    any readings, explicit [setQualityLevel] calls on either object, memory
    pressure, construction of a LOD manager on any table) the monitor's
    current and target levels lie in [[0, qualityLevels - 1]] and the LOD
    manager's index lies in [[0, levels.length - 1]]. *)
Theorem quality_levels_in_range (p : PerformanceMonitor.PartialSettings)
    (ops : list System.Op) :
  1 <= PerformanceMonitor.qualityLevels (PerformanceMonitor.defaultSettings p) ->
  let w := System.run sqrt ops (System.create p) in
  let m := PerformanceMonitor.metrics (System.monitor w) in
  let top :=
    PerformanceMonitor.qualityLevels
      (PerformanceMonitor.settings (System.monitor w)) - 1 in
  0 <= PerformanceMonitor.currentQualityLevel m <= top
  /\ 0 <= PerformanceMonitor.targetQualityLevel m <= top
  /\ forall l, System.lodManager w = Some l ->
       0 <= LodManager.currentLevel l
         <= Z.of_nat (length (LodManager.levels l)) - 1.
Proof.
  intros Hq. cbv zeta.
  destruct (run_levelsInRange ops (System.create p) Hq
              (create_levelsInRange p Hq)) as [[Hc Ht] Hl].
  split; [exact Hc|]. split; [exact Ht|]. exact Hl.
Qed.

End LoopProperties.

Lemma quality_levels_in_range_witness :
  let ops :=
    [System.NewLodManager Sample.desktopProbe 1 Sample.plainRenderer
       LodManager.DEFAULT_LOD_LEVELS;
     System.SetQualityLevel 99;
     System.LodSetQualityLevel (-7)]
    ++ Sample.steadyLoop 3 0
    ++ [System.HandleMemoryPressure; System.SetQualityLevel (-1)] in
  let w := System.run Sample.approxSqrt ops (System.create Sample.noSettings) in
  let m := PerformanceMonitor.metrics (System.monitor w) in
  let top :=
    PerformanceMonitor.qualityLevels
      (PerformanceMonitor.settings (System.monitor w)) - 1 in
  0 <= PerformanceMonitor.currentQualityLevel m <= top
  /\ 0 <= PerformanceMonitor.targetQualityLevel m <= top
  /\ forall l, System.lodManager w = Some l ->
       0 <= LodManager.currentLevel l
         <= Z.of_nat (length (LodManager.levels l)) - 1.
Proof.
  apply (quality_levels_in_range Sample.approxSqrt Sample.noSettings).
  vm_compute. discriminate.
Defined.

Section RateLimit.

Import PerformanceMonitor.

Variable sqrt : Q -> Q.

Lemma proposeTarget_adjusting (s : t) (lvl : Z) :
  proposeTarget s = (lvl, true) ->
  let cur := currentQualityLevel (metrics s) in
  lvl = cur + 1 \/ lvl = Z.max 0 cur
  \/ lvl = Z.max 0 (cur - 1) \/ lvl = Z.max 0 (cur - 2).
Proof.
  cbv zeta. unfold proposeTarget.
  repeat match goal with
         | |- context [if ?b then _ else _] => destruct b
         end; intros [= <-]; lia.
Qed.

Lemma step_lastAdjustmentTime (op : System.Op) (w : System.World) :
  (forall e, op <> System.EndFrame e) ->
  lastAdjustmentTime (System.monitor (stateOf (System.step sqrt op w)))
  = lastAdjustmentTime (System.monitor w).
Proof.
  intros Hop. rewrite step_monitor. destruct op; try reflexivity.
  - unfold endSection. destruct (_ !! _); reflexivity.
  - exfalso. exact (Hop e eq_refl).
  - unfold handleMemoryPressure.
    destruct (isUnderMemoryPressure _); reflexivity.
  - destruct (LodManager.create d dpr r lvls); reflexivity.
Qed.

(** While the clock is within one period of the last stamp, no call
    evaluates the rules and the stamp stays. *)
Lemma quiet_within_period (stamp : Q) (ops : list System.Op) :
  forall w : System.World,
  lastAdjustmentTime (System.monitor w) = stamp ->
  Forall (fun op => forall e, op = System.EndFrame e ->
            (nowCheck e - stamp
             < adjustmentPeriod (settings (System.monitor w)))%Q) ops ->
  Forall (eq false) (System.evaluationLog sqrt ops w).
Proof.
  induction ops as [|op ops IH]; intros w Hstamp Hops; [constructor|].
  apply Forall_cons in Hops as [Hop Hops]. cbn [System.evaluationLog].
  assert (Hquiet : System.evaluates sqrt op w = false).
  { destruct op; try reflexivity. cbn [System.evaluates].
    unfold evaluatesRules.
    replace (lastAdjustmentTime (endFrameMetrics sqrt e (System.monitor w)))
      with stamp by (symmetry; exact Hstamp).
    replace (settings (endFrameMetrics sqrt e (System.monitor w)))
      with (settings (System.monitor w)) by reflexivity.
    pose proof (Hop e eq_refl) as Hlt. apply Qltb_lt in Hlt.
    rewrite Hlt. reflexivity. }
  constructor; [symmetry; exact Hquiet|]. apply IH.
  - destruct op; try (rewrite step_lastAdjustmentTime; [exact Hstamp|];
      intros e0; discriminate).
    rewrite step_monitor. cbn [System.evaluates] in Hquiet.
    unfold endFrame. rewrite (checkQualityAdjustment_skips _ _ Hquiet).
    exact Hstamp.
  - rewrite step_settings. exact Hops.
Qed.

End RateLimit.

(** C3, as amended.  The gate of the automatic adjustment: an [endFrame]
    evaluates the rules only once 100 frames are counted (its own
    included) and at least [adjustmentPeriod] has passed since the last
    automatic change of the target.  An [endFrame] that changes the target
    (and so calls the callback) has evaluated the rules, and after it no
    call whose clock is less than [adjustmentPeriod] later evaluates them:
    automatic changes are at least one period apart.  (Evaluations that
    change nothing do not close the gate.) *)
Theorem adjustments_rate_limited (sqrt : Q -> Q)
    (e : PerformanceMonitor.FrameEnv) (w : System.World)
    (ops : list System.Op) :
  let m := System.monitor w in
  let period :=
    PerformanceMonitor.adjustmentPeriod (PerformanceMonitor.settings m) in
  (System.evaluates sqrt (System.EndFrame e) w = true ->
   100 <= PerformanceMonitor.frameCount m + 1
   /\ (period <= PerformanceMonitor.nowCheck e
                 - PerformanceMonitor.lastAdjustmentTime m)%Q)
  /\ (forall lvl,
        snd (PerformanceMonitor.endFrame sqrt e m) = Some lvl ->
        System.evaluates sqrt (System.EndFrame e) w = true
        /\ (Forall (fun op => forall e', op = System.EndFrame e' ->
                      (PerformanceMonitor.nowCheck e'
                       - PerformanceMonitor.nowCheck e < period)%Q) ops ->
            Forall (eq false)
              (System.evaluationLog sqrt ops
                 (stateOf (System.step sqrt (System.EndFrame e) w))))).
Proof.
  cbv zeta. split.
  - cbn [System.evaluates]. unfold PerformanceMonitor.evaluatesRules.
    rewrite andb_true_iff, !negb_true_iff. intros [Hp Hf].
    apply Qltb_ge in Hp. apply Z.ltb_ge in Hf. cbn in Hp, Hf. split; assumption.
  - intros lvl Hfire.
    destruct (endFrame_cases sqrt e (System.monitor w))
      as [H|(lvl' & Hev & _ & _ & H)]; rewrite H in Hfire; [discriminate|].
    split; [exact Hev|]. intros Hops.
    apply (quiet_within_period sqrt (PerformanceMonitor.nowCheck e)).
    + rewrite step_monitor, H. reflexivity.
    + rewrite step_settings. exact Hops.
Qed.

Lemma adjustments_rate_limited_witness :
  let w :=
    System.run Sample.approxSqrt (Sample.steadyLoop 125 0)
      (System.create Sample.noSettings) in
  let spike :=
    {| PerformanceMonitor.now := 2100; PerformanceMonitor.nowCheck := 2100;
       PerformanceMonitor.memory := None;
       PerformanceMonitor.renderInfo := None |} in
  (100 <= PerformanceMonitor.frameCount (System.monitor w) + 1
   /\ (2000 <= 2100 - PerformanceMonitor.lastAdjustmentTime (System.monitor w))%Q)
  /\ Forall (eq false)
       (System.evaluationLog Sample.approxSqrt (Sample.steadyLoop 3 2116)
          (stateOf (System.step Sample.approxSqrt (System.EndFrame spike) w))).
Proof.
  cbv zeta.
  pose proof (adjustments_rate_limited Sample.approxSqrt
    {| PerformanceMonitor.now := 2100; PerformanceMonitor.nowCheck := 2100;
       PerformanceMonitor.memory := None;
       PerformanceMonitor.renderInfo := None |}
    (System.run Sample.approxSqrt (Sample.steadyLoop 125 0)
       (System.create Sample.noSettings))
    (Sample.steadyLoop 3 2116)) as [Hgate Hwindow].
  split.
  - apply Hgate. vm_compute. reflexivity.
  - eapply Hwindow.
    + vm_compute. reflexivity.
    + repeat constructor; intros e' [= <-]; vm_compute; reflexivity.
Defined.

(** C3 as stated fails: in a steady render loop past the warm-up, with no
    rule firing, two [endFrame] calls 16 ms apart both evaluate the
    rules. *)
Lemma evaluation_on_consecutive_frames :
  let w :=
    System.run Sample.approxSqrt (Sample.steadyLoop 125 0)
      (System.create Sample.noSettings) in
  System.evaluationLog Sample.approxSqrt
    [System.BeginFrame 2000 None;
     System.EndFrame (Sample.frameAt 2005);
     System.BeginFrame 2016 None;
     System.EndFrame (Sample.frameAt 2021)] w
  = [false; true; false; true]
  /\ (PerformanceMonitor.nowCheck (Sample.frameAt 2021)
      - PerformanceMonitor.nowCheck (Sample.frameAt 2005)
      < PerformanceMonitor.adjustmentPeriod
          (PerformanceMonitor.settings (System.monitor w)))%Q.
Proof. vm_compute. split; reflexivity. Qed.

(** C10. No call other than the monitor's [setQualityLevel] (made
    explicitly, or by the LOD manager's constructor) changes
    [currentQualityLevel]; in particular [endFrame] returns with the level
    it found.  When [endFrame] adjusts, the new target is the proposal
    computed from that unchanged current level (one step up, or up to two
    steps down, floored at zero), and the proposal does not depend on the
    previously stored target. *)
Theorem currentQualityLevel_only_set_explicitly (sqrt : Q -> Q)
    (op : System.Op) (w : System.World)
    (e : PerformanceMonitor.FrameEnv) (s : PerformanceMonitor.t) (tgt : Z) :
  let cur m :=
    PerformanceMonitor.currentQualityLevel (PerformanceMonitor.metrics m) in
  (System.callsSetQualityLevel op = false ->
   cur (System.monitor (stateOf (System.step sqrt op w)))
   = cur (System.monitor w))
  /\ cur (fst (PerformanceMonitor.endFrame sqrt e s)) = cur s
  /\ (forall lvl,
        snd (PerformanceMonitor.endFrame sqrt e s) = Some lvl ->
        PerformanceMonitor.targetQualityLevel
          (PerformanceMonitor.metrics
             (fst (PerformanceMonitor.endFrame sqrt e s))) = lvl
        /\ lvl = fst (PerformanceMonitor.proposeTarget
                        (PerformanceMonitor.endFrameMetrics sqrt e s))
        /\ (lvl = cur s + 1 \/ lvl = Z.max 0 (cur s)
            \/ lvl = Z.max 0 (cur s - 1) \/ lvl = Z.max 0 (cur s - 2)))
  /\ PerformanceMonitor.proposeTarget
       (PerformanceMonitor.withMetrics
          (PerformanceMonitor.withQuality (cur s) tgt
             (PerformanceMonitor.metrics s)) s)
     = PerformanceMonitor.proposeTarget s.
Proof.
  cbv zeta. split; [|split; [|split]].
  - intros Hop. rewrite step_monitor. destruct op; try reflexivity;
      try discriminate.
    + unfold PerformanceMonitor.endSection. destruct (_ !! _); reflexivity.
    + apply endFrame_current.
    + unfold PerformanceMonitor.handleMemoryPressure.
      destruct (PerformanceMonitor.isUnderMemoryPressure _); reflexivity.
  - apply endFrame_current.
  - intros lvl Hfire.
    destruct (endFrame_cases sqrt e s) as [H|(lvl' & _ & Hp & _ & H)];
      rewrite H in Hfire |- *; [discriminate|].
    injection Hfire as <-. split; [reflexivity|]. split.
    + rewrite Hp. reflexivity.
    + exact (proposeTarget_adjusting _ _ Hp).
  - reflexivity.
Qed.

Lemma currentQualityLevel_only_set_explicitly_witness :
  let w :=
    System.run Sample.approxSqrt
      (System.NewLodManager Sample.desktopProbe 1 Sample.plainRenderer
         LodManager.DEFAULT_LOD_LEVELS
       :: Sample.steadyLoop 125 0)
      (System.create Sample.noSettings) in
  let spike :=
    {| PerformanceMonitor.now := 2100; PerformanceMonitor.nowCheck := 2100;
       PerformanceMonitor.memory := None;
       PerformanceMonitor.renderInfo := None |} in
  let w' := stateOf (System.step Sample.approxSqrt (System.EndFrame spike) w) in
  PerformanceMonitor.currentQualityLevel
    (PerformanceMonitor.metrics (System.monitor w')) = 3
  /\ PerformanceMonitor.targetQualityLevel
       (PerformanceMonitor.metrics (System.monitor w')) = 1.
Proof.
  cbv zeta.
  pose proof (currentQualityLevel_only_set_explicitly Sample.approxSqrt
    (System.EndFrame
       {| PerformanceMonitor.now := 2100; PerformanceMonitor.nowCheck := 2100;
          PerformanceMonitor.memory := None;
          PerformanceMonitor.renderInfo := None |})
    (System.run Sample.approxSqrt
      (System.NewLodManager Sample.desktopProbe 1 Sample.plainRenderer
         LodManager.DEFAULT_LOD_LEVELS
       :: Sample.steadyLoop 125 0)
      (System.create Sample.noSettings))
    {| PerformanceMonitor.now := 2100; PerformanceMonitor.nowCheck := 2100;
       PerformanceMonitor.memory := None;
       PerformanceMonitor.renderInfo := None |}
    (System.monitor
       (System.run Sample.approxSqrt
          (System.NewLodManager Sample.desktopProbe 1 Sample.plainRenderer
             LodManager.DEFAULT_LOD_LEVELS
           :: Sample.steadyLoop 125 0)
          (System.create Sample.noSettings)))
    0) as (Hkeep & _ & Hadjust & _).
  split.
  - rewrite (Hkeep eq_refl). vm_compute. reflexivity.
  - rewrite step_monitor. apply (Hadjust 1). vm_compute. reflexivity.
Defined.

(** ** FPS stability *)

Lemma approxSqrt_nonneg (x : Q) : (0 <= Sample.approxSqrt x)%Q.
Proof.
  unfold Sample.approxSqrt, Qle. cbn. rewrite Z.mul_1_r. apply Z.sqrt_nonneg.
Qed.


Section Stability.

Import PerformanceMonitor.

Variable sqrt : Q -> Q.
Hypothesis sqrt_nonneg : forall x, (0 <= sqrt x)%Q.
Hypothesis sqrt_zero : forall x, (x == 0)%Q -> (sqrt x == 0)%Q.

Lemma fold_sum_positive (l : list Q) :
  forall acc, Forall (fun x => 0 < x)%Q l -> (acc <= fold_left Qplus l acc)%Q.
Proof.
  induction l as [|x l IH]; intros acc Hl; cbn; [apply Qle_refl|].
  apply Forall_cons in Hl as [Hx Hl].
  apply Qle_trans with (acc + x)%Q; [|apply IH, Hl].
  rewrite <- (Qplus_0_r acc) at 1. apply Qplus_le_r, Qlt_le_weak, Hx.
Qed.

Lemma length_denominator_positive {A} (l : list A) :
  l <> [] -> (0 < inject_Z (Z.of_nat (length l)))%Q.
Proof.
  intros Hl. destruct l; [congruence|].
  unfold Qlt. cbn. lia.
Qed.

Lemma average_positive (l : list Q) :
  l <> [] -> Forall (fun x => 0 < x)%Q l -> (0 < average l)%Q.
Proof.
  intros Hne Hl. unfold average.
  apply Qlt_shift_div_l; [apply length_denominator_positive, Hne|].
  rewrite Qmult_0_l. destruct l as [|x l]; [congruence|].
  apply Forall_cons in Hl as [Hx Hl]. unfold Num.sumQ. cbn.
  apply Qlt_le_trans with (0 + x)%Q; [rewrite Qplus_0_l; exact Hx|].
  apply fold_sum_positive, Hl.
Qed.

Lemma stabilityOf_range (window : list Q) :
  window <> [] -> Forall (fun x => 0 < x)%Q window ->
  (0 <= stabilityOf sqrt window <= 1)%Q.
Proof.
  intros Hne Hpos. unfold stabilityOf. split; [apply Q.le_max_l|].
  apply Q.max_lub; [discriminate|].
  assert (Hq : (0 <= sqrt (variance (average window) window)
                     / average window)%Q).
  { apply Qle_shift_div_l; [apply average_positive; assumption|].
    rewrite Qmult_0_l. apply sqrt_nonneg. }
  revert Hq.
  generalize (sqrt (variance (average window) window) / average window)%Q.
  intros q Hq. lra.
Qed.

Lemma pushWindow_nonempty {A} (n : nat) (x : A) (l : list A) :
  (0 < n)%nat -> Num.pushWindow n x l <> [].
Proof.
  intros Hn. unfold Num.pushWindow.
  destruct (Nat.ltb_spec n (length (l ++ [x]))) as [Hlt|_].
  - destruct (l ++ [x]) as [|a [|b r]]; cbn in *; [lia|lia|discriminate].
  - destruct l; discriminate.
Qed.

Lemma pushWindow_Forall {A} (P : A -> Prop) (n : nat) (x : A) (l : list A) :
  P x -> Forall P l -> Forall P (Num.pushWindow n x l).
Proof.
  intros Hx Hl. unfold Num.pushWindow.
  assert (Hall : Forall P (l ++ [x])) by (apply Forall_app; auto).
  destruct (_ <? _)%nat; [|exact Hall].
  destruct (l ++ [x]); [constructor|]. apply Forall_cons in Hall as [_ H].
  exact H.
Qed.

Lemma orDefault_positive (x : Q) :
  (0 <= x)%Q -> (0 < Num.orDefault x 60)%Q.
Proof.
  intros Hx. unfold Num.orDefault. destruct (Qeq_bool x 0) eqn:E;
    [reflexivity|].
  apply Qeq_bool_neq in E. apply Qle_lteq in Hx as [Hlt|Heq]; [exact Hlt|].
  exfalso. apply E. symmetry. exact Heq.
Qed.

Lemma fold_sum_constant (c : Q) (l : list Q) :
  forall acc, Forall (fun x => x == c)%Q l ->
  (fold_left Qplus l acc == acc + c * inject_Z (Z.of_nat (length l)))%Q.
Proof.
  induction l as [|x l IH]; intros acc Hl.
  - cbn. ring.
  - apply Forall_cons in Hl as [Hx Hl]. cbn [fold_left length].
    rewrite (IH _ Hl), Nat2Z.inj_succ. unfold Z.succ.
    rewrite inject_Z_plus, Hx. ring.
Qed.

Lemma fold_squares_constant (avg : Q) (l : list Q) :
  forall acc, Forall (fun x => x == avg)%Q l ->
  (fold_left (fun sum x => sum + (x - avg) * (x - avg)) l acc == acc)%Q.
Proof.
  induction l as [|x l IH]; intros acc Hl; cbn; [reflexivity|].
  apply Forall_cons in Hl as [Hx Hl]. rewrite (IH _ Hl), Hx. ring.
Qed.

Lemma stabilityOf_constant (c : Q) (window : list Q) :
  window <> [] -> (0 < c)%Q -> Forall (fun x => x == c)%Q window ->
  (stabilityOf sqrt window == 1)%Q.
Proof.
  intros Hne Hc Hall.
  pose proof (length_denominator_positive window Hne) as Hn.
  assert (Havg : (average window == c)%Q).
  { unfold average, Num.sumQ. rewrite (fold_sum_constant c _ _ Hall).
    field. intros H0. rewrite H0 in Hn. exact (Qlt_irrefl _ Hn). }
  assert (Hvar : (variance (average window) window == 0)%Q).
  { unfold variance. rewrite fold_squares_constant.
    - field. intros H0. rewrite H0 in Hn. exact (Qlt_irrefl _ Hn).
    - eapply Forall_impl; [exact Hall|]. cbn. intros x Hx.
      rewrite Hx, Havg. reflexivity. }
  unfold stabilityOf. pose proof (sqrt_zero _ Hvar) as Hsd.
  assert (Hone : (1 - sqrt (variance (average window) window)
                      / average window == 1)%Q).
  { unfold Qdiv. rewrite Hsd. ring. }
  rewrite Q.max_r; [exact Hone|]. rewrite Hone. discriminate.
Qed.

End Stability.

(** After [endFrame], when the FPS window holds more than five samples,
    [fpsStability] is [max(0, 1 - stddev/avg)] over the window, and
    otherwise it keeps its value.  With a non-negative FPS reading,
    positive samples and a score in [[0, 1]] before the call, the same
    holds after it.  A window of more than five equal samples gives
    exactly 1. *)
Lemma endFrame_fpsStability (sqrt : Q -> Q)
    (sqrt_nonneg : forall x, (0 <= sqrt x)%Q)
    (sqrt_zero : forall x, (x == 0)%Q -> (sqrt x == 0)%Q)
    (e : PerformanceMonitor.FrameEnv) (s : PerformanceMonitor.t) :
  let s' := fst (PerformanceMonitor.endFrame sqrt e s) in
  let window := PerformanceMonitor.fpsHistory s' in
  let stability x :=
    PerformanceMonitor.fpsStability (PerformanceMonitor.metrics x) in
  (0 <= PerformanceMonitor.fps (PerformanceMonitor.metrics s))%Q ->
  Forall (fun x => 0 < x)%Q (PerformanceMonitor.fpsHistory s) ->
  (0 <= stability s <= 1)%Q ->
  stability s'
  = (if (5 <? length window)%nat
     then PerformanceMonitor.stabilityOf sqrt window
     else stability s)
  /\ ((0 <= PerformanceMonitor.fps (PerformanceMonitor.metrics s'))%Q
      /\ Forall (fun x => 0 < x)%Q window
      /\ (0 <= stability s' <= 1)%Q)
  /\ (forall c, (5 < length window)%nat ->
        Forall (fun x => x == c)%Q window -> (stability s' == 1)%Q).
Proof.
  cbv zeta. intros Hfps Hhist Hrange.
  destruct (endFrame_stability_fields sqrt e s) as (Hw & Hf & Hs).
  assert (Hne : PerformanceMonitor.fpsHistory
                  (fst (PerformanceMonitor.endFrame sqrt e s)) <> []).
  { rewrite Hw. apply pushWindow_nonempty. unfold PerformanceMonitor.historySize.
    lia. }
  assert (Hpos : Forall (fun x => 0 < x)%Q
                   (PerformanceMonitor.fpsHistory
                      (fst (PerformanceMonitor.endFrame sqrt e s)))).
  { rewrite Hw. apply pushWindow_Forall; [apply orDefault_positive|];
      assumption. }
  split; [exact Hs|]. rewrite Hs. split; [split; [|split]|].
  - rewrite Hf. apply Qlt_le_weak, orDefault_positive, Hfps.
  - exact Hpos.
  - destruct (_ <? _)%nat; [|exact Hrange].
    apply stabilityOf_range; assumption.
  - intros c Hlen Hall. apply Nat.ltb_lt in Hlen. rewrite Hlen.
    apply (stabilityOf_constant sqrt sqrt_zero c); [exact Hne| |exact Hall].
    destruct (PerformanceMonitor.fpsHistory
                (fst (PerformanceMonitor.endFrame sqrt e s))) as [|x l];
      [congruence|].
    apply Forall_cons in Hpos as [Hx _]. apply Forall_cons in Hall as [Hc _].
    rewrite <- Hc. exact Hx.
Qed.

(** ** Object pool *)

Section PoolProperties.

Context {T : Type} {eqT : EqDecision T} {countT : Countable T}.
Variable createFn : nat -> T.

Lemma createBatch_inUse (dt : Q) (a b : nat) (p : Pool.t T) :
  Pool.inUse (Pool.createBatch createFn dt a b p) = Pool.inUse p.
Proof. reflexivity. Qed.

Lemma prewarm_inUse (dt : Q) (n : Z) (p : Pool.t T) :
  Pool.inUse (Pool.prewarm createFn dt n p) = Pool.inUse p.
Proof. unfold Pool.prewarm. destruct (_ <=? _); reflexivity. Qed.

Lemma trim_inUse (n : Z) (p : Pool.t T) :
  Pool.inUse (Pool.trim n p) = Pool.inUse p.
Proof. unfold Pool.trim. destruct (_ <=? _); reflexivity. Qed.

Lemma checkAdaptiveSize_inUse (dt : Q) (p : Pool.t T) :
  Pool.inUse (Pool.checkAdaptiveSize createFn dt p) = Pool.inUse p.
Proof.
  unfold Pool.checkAdaptiveSize.
  destruct (_ <? _)%nat; [reflexivity|].
  destruct (Num.Qltb _ _); [apply trim_inUse|].
  destruct (_ && _); [apply prewarm_inUse|reflexivity].
Qed.

Lemma get_inUse (dt : Q) (p : Pool.t T) :
  Pool.inUse (snd (Pool.get createFn dt p))
  = {[fst (Pool.get createFn dt p)]} ∪ Pool.inUse p.
Proof.
  unfold Pool.get. destruct (Pool.pop (Pool.pool p)) as [[obj rest]|];
    reflexivity.
Qed.

Lemma release_inUse (dtReset dtCreate : Q) (obj : T) (p : Pool.t T) :
  Pool.inUse (Pool.release createFn dtReset dtCreate obj p)
  = Pool.inUse p ∖ {[obj]}.
Proof.
  unfold Pool.release. case_bool_decide as Hin; cbn [negb].
  - destruct (_ && _); cbn; [reflexivity|].
    rewrite checkAdaptiveSize_inUse. reflexivity.
  - cbn. set_solver.
Qed.

Lemma maxUsage_zero (l : list nat) :
  foldr Nat.max 0%nat l = 0%nat <-> Forall (eq 0%nat) l.
Proof.
  induction l as [|x l IH]; cbn; [split; [constructor|reflexivity]|].
  rewrite Forall_cons, <- IH. lia.
Qed.

(** [Math.ceil(maxUsage * 1.2)] is 0 for [maxUsage = 0] and at least 1
    otherwise. *)
Lemma idealFromUsage (m : nat) :
  (m = 0%nat /\ Qceiling (inject_Z (Z.of_nat m) * (12 # 10)) = 0)
  \/ (m <> 0%nat /\ 1 <= Qceiling (inject_Z (Z.of_nat m) * (12 # 10))).
Proof.
  destruct m as [|m]; [left; split; reflexivity|right].
  split; [lia|].
  pose proof (Qle_ceiling (inject_Z (Z.of_nat (S m)) * (12 # 10))) as Hc.
  assert (Hpos : (0 < inject_Z (Z.of_nat (S m)) * (12 # 10))%Q).
  { apply Qmult_lt_0_compat; [|reflexivity].
    change 0%Q with (inject_Z 0). rewrite <- Zlt_Qlt. lia. }
  assert (H0 : (inject_Z 0 < inject_Z (Qceiling
                   (inject_Z (Z.of_nat (S m)) * (12 # 10))))%Q)
    by (eapply Qlt_le_trans; eassumption).
  rewrite <- Zlt_Qlt in H0. lia.
Qed.

Lemma trim_keeps_last (n : Z) (obj : T) (p : Pool.t T) (l : list T) :
  Pool.pool p = l ++ [obj] -> 1 <= n -> obj ∈ Pool.pool (Pool.trim n p).
Proof.
  intros Hpool Hn. unfold Pool.trim.
  destruct (_ <=? _) eqn:E.
  - rewrite Hpool. apply elem_of_app. right. apply list_elem_of_singleton.
    reflexivity.
  - cbn [Pool.pool Pool.withPool]. apply Z.leb_gt in E.
    rewrite Hpool in *. rewrite length_app in E. cbn in E.
    rewrite drop_app_le by (rewrite length_app in *; cbn in *; lia).
    apply elem_of_app. right. apply list_elem_of_singleton. reflexivity.
Qed.

Lemma prewarm_keeps (dt : Q) (n : Z) (obj : T) (p : Pool.t T) :
  obj ∈ Pool.pool p -> obj ∈ Pool.pool (Pool.prewarm createFn dt n p).
Proof.
  intros Hin. unfold Pool.prewarm. destruct (_ <=? _); [exact Hin|].
  cbn. apply elem_of_app. left. exact Hin.
Qed.

(** Whether the adaptive check run by [release] leaves the object it has
    just pushed in the free list. *)
Lemma checkAdaptiveSize_keeps_last (dt : Q) (obj : T) (p : Pool.t T)
    (l : list T) :
  Pool.pool p = l ++ [obj] ->
  obj ∈ Pool.pool (Pool.checkAdaptiveSize createFn dt p)
  <-> ~ ((50 <= length (Pool.usageHistory p))%nat
         /\ Forall (eq 0%nat) (Pool.usageHistory p)
         /\ Pool.minSize p <= 0).
Proof.
  intros Hpool.
  assert (Hlast : obj ∈ Pool.pool p)
    by (rewrite Hpool; apply elem_of_app; right; apply list_elem_of_singleton;
        reflexivity).
  assert (Hlen : length (Pool.pool p) = S (length l))
    by (rewrite Hpool, length_app; cbn; lia).
  rewrite <- maxUsage_zero.
  unfold Pool.checkAdaptiveSize.
  destruct (Nat.ltb_spec (length (Pool.usageHistory p)) 50) as [Hshort|Hlong].
  { split; [intros _ (H50 & _); lia|intros _; exact Hlast]. }
  destruct (idealFromUsage (foldr Nat.max 0%nat (Pool.usageHistory p)))
    as [[Hm Hc]|[Hm Hc]].
  - destruct (Z.le_gt_cases (Pool.minSize p) 0) as [Hmin|Hmin].
    + (* nothing was in use over the whole window: the list is emptied *)
      rewrite Hc, Z.max_r by exact Hmin.
      replace (Num.Qltb (inject_Z 0 * (15 # 10))
                 (inject_Z (Z.of_nat (length (Pool.pool p))))) with true.
      2:{ rewrite Hlen. unfold Num.Qltb, Qle_bool. cbn. symmetry.
          apply negb_true_iff, Z.leb_gt. lia. }
      unfold Pool.trim.
      destruct (Z.leb_spec (Z.of_nat (length (Pool.pool p))) 0) as [H0|H0];
        [lia|].
      cbn [Pool.pool Pool.withPool]. rewrite drop_ge by lia.
      split; [intros Hin; apply elem_of_nil in Hin; contradiction|].
      intros Hnot. exfalso. apply Hnot. auto.
    + split; [intros _ (_ & _ & H0); lia|intros _].
      destruct (Num.Qltb _ _);
        [apply (trim_keeps_last _ obj p l Hpool); lia|].
      destruct (_ && _); [apply prewarm_keeps|]; exact Hlast.
  - split; [intros _ (_ & H0 & _); contradiction|intros _].
    destruct (Num.Qltb _ _);
      [apply (trim_keeps_last _ obj p l Hpool); lia|].
    destruct (_ && _); [apply prewarm_keeps|]; exact Hlast.
Qed.

Lemma get_maxSize (dt : Q) (p : Pool.t T) :
  Pool.maxSize (snd (Pool.get createFn dt p)) = Pool.maxSize p.
Proof.
  unfold Pool.get. destruct (Pool.pop _) as [[? ?]|]; reflexivity.
Qed.

Lemma get_minSize (dt : Q) (p : Pool.t T) :
  Pool.minSize (snd (Pool.get createFn dt p)) = Pool.minSize p.
Proof.
  unfold Pool.get. destruct (Pool.pop _) as [[? ?]|]; reflexivity.
Qed.

(** C9, as amended.  Releasing an object that is not in the in-use set
    only counts a warning: the free list and the in-use set, hence
    [size()], [available()] and [inUseCount()], are unchanged.  [get()]
    followed at once by [release] of the object it returned takes that
    object, and no other, out of the in-use set: [inUseCount()] is back to
    its value before the [get()], which is 0, with
    [available() == size()], when nothing else is in use.  When the size
    cap is not reached, the object is in the free list afterwards unless
    the usage window holds at least 50 records, all of them 0, and
    [minSize] is at most 0: then the adaptive check empties the free list.
    With fewer than 50 records the object is the new last element of the
    free list. *)
Theorem pool_release_contract (dt dtReset dtCreate : Q) (obj : T)
    (p : Pool.t T) :
  (obj ∉ Pool.inUse p ->
   let p' := Pool.release createFn dtReset dtCreate obj p in
   Pool.pool p' = Pool.pool p /\ Pool.inUse p' = Pool.inUse p
   /\ Pool.size p' = Pool.size p
   /\ Pool.available p' = Pool.available p
   /\ Pool.inUseCount p' = Pool.inUseCount p
   /\ Pool.warnings p' = S (Pool.warnings p))
  /\ (let got := Pool.get createFn dt p in
      let p2 := Pool.release createFn dtReset dtCreate (fst got) (snd got) in
      let history := Pool.usageHistory (snd got) in
      Pool.inUse p2 = Pool.inUse p ∖ {[fst got]}
      /\ (fst got ∉ Pool.inUse p ->
          Pool.inUseCount p2 = Pool.inUseCount p)
      /\ (Pool.inUse p = ∅ ->
          Pool.inUseCount p2 = 0%nat /\ Pool.available p2 = Pool.size p2)
      /\ ((0 <? Pool.maxSize p)
          && (Pool.maxSize p <=? Z.of_nat (length (Pool.pool (snd got))))
          = false ->
          (fst got ∈ Pool.pool p2
           <-> ~ ((50 <= length history)%nat
                  /\ Forall (eq 0%nat) history
                  /\ Pool.minSize p <= 0))
          /\ ((length history < 50)%nat ->
              Pool.pool p2 = Pool.pool (snd got) ++ [fst got]))).
Proof.
  split.
  - intros Hout. cbv zeta. unfold Pool.release.
    rewrite bool_decide_eq_false_2 by exact Hout. cbn. repeat split.
  - cbv zeta.
    assert (Hset : Pool.inUse
                     (Pool.release createFn dtReset dtCreate
                        (fst (Pool.get createFn dt p))
                        (snd (Pool.get createFn dt p)))
                   = Pool.inUse p ∖ {[fst (Pool.get createFn dt p)]}).
    { rewrite release_inUse, get_inUse. apply leibniz_equiv. set_solver. }
    split; [exact Hset|]. split; [|split].
    + intros Hnew. unfold Pool.inUseCount. rewrite Hset. f_equal.
      apply leibniz_equiv. set_solver.
    + intros Hempty. unfold Pool.inUseCount, Pool.available, Pool.size.
      rewrite Hset, Hempty.
      replace (∅ ∖ {[fst (Pool.get createFn dt p)]} : gset T) with (∅ : gset T)
        by (apply leibniz_equiv; set_solver).
      rewrite size_empty. split; lia.
    + intros Hcap.
      unfold Pool.release.
      rewrite bool_decide_eq_true_2 by (rewrite get_inUse; set_solver).
      cbn [negb Pool.maxSize Pool.pool]. rewrite get_maxSize, Hcap.
      rewrite <- (get_minSize dt p).
      split.
      * match goal with
        | |- context [Pool.checkAdaptiveSize _ _ ?q] =>
            pose proof (checkAdaptiveSize_keeps_last dtCreate
                          (fst (Pool.get createFn dt p)) q
                          (Pool.pool (snd (Pool.get createFn dt p)))
                          eq_refl) as Hkeep
        end.
        exact Hkeep.
      * intros Hhist. unfold Pool.checkAdaptiveSize.
        cbn [Pool.usageHistory Pool.withPool].
        apply Nat.ltb_lt in Hhist. rewrite Hhist. reflexivity.
Qed.


End PoolProperties.

Lemma pool_release_contract_witness :
  let got := Pool.get id 0 Sample.freshPool in
  let p2 := Pool.release id 0 0 (fst got) (snd got) in
  (Pool.size (Pool.release id 0 0 7%nat (snd got)) = Pool.size (snd got)
   /\ Pool.warnings (Pool.release id 0 0 7%nat (snd got)) = 1%nat)
  /\ Pool.inUse p2 = Pool.inUse Sample.freshPool ∖ {[fst got]}
  /\ Pool.inUseCount p2 = 0%nat
  /\ Pool.available p2 = Pool.size p2
  /\ fst got ∈ Pool.pool p2
  /\ Pool.pool p2 = [0%nat].
Proof.
  cbv zeta.
  pose proof (pool_release_contract id 0 0 0 7%nat
                (snd (Pool.get id 0 Sample.freshPool))) as [Hout _].
  pose proof (pool_release_contract id 0 0 0 7%nat Sample.freshPool)
    as [_ (Hset & _ & Hcycle & Hfree)].
  split.
  - destruct Hout as (_ & _ & Hsize & _ & _ & Hwarn);
      [vm_compute; set_solver|]. split; [exact Hsize | exact Hwarn].
  - destruct Hcycle as (Hcount & Havail); [reflexivity|].
    destruct Hfree as (Hin & Hpool); [reflexivity|].
    split; [exact Hset|]. split; [exact Hcount|]. split; [exact Havail|].
    split.
    + apply Hin. intros (Hlong & _). vm_compute in Hlong. lia.
    + apply Hpool. vm_compute. lia.
Defined.

(** C9 as stated fails.  With another object still in use, an object that
    was just obtained and is released at once leaves [inUseCount() == 1]
    and [available() == 1 < size() == 2].  And on a fresh uncapped pool the
    50th get-and-release does not leave the object in the free list: the
    adaptive check trims the free list to empty. *)
Lemma pool_release_with_others_in_use :
  let got1 := Pool.get id 0 Sample.freshPool in
  let got2 := Pool.get id 0 (snd got1) in
  let p3 := Pool.release id 0 0 (fst got2) (snd got2) in
  (Pool.inUseCount p3 = 1%nat /\ Pool.available p3 = 1%nat
   /\ Pool.size p3 = 2%nat)
  /\ (Pool.inUseCount (Sample.getReleaseCycles 49 Sample.freshPool) = 0%nat
      /\ Pool.maxSize (Sample.getReleaseCycles 49 Sample.freshPool) = 0
      /\ Pool.pool (Sample.getReleaseCycles 50 Sample.freshPool) = []).
Proof. vm_compute. repeat split. Qed.

(** ** Base visualization *)

Section VisualizationProperties.

Import BaseVisualization.

Lemma removeChildren_empties (fuel : nat) :
  forall sc, (length sc <= fuel)%nat -> removeChildren fuel sc = [].
Proof.
  induction fuel as [|fuel IH]; intros [|c rest] Hlen; cbn in *;
    try reflexivity; try lia.
  rewrite Nat.eqb_refl. apply IH. lia.
Qed.

Lemma clearScene_empties (v : t) :
  scene (clearScene true v) = [] /\ objects (clearScene true v) = [].
Proof.
  unfold clearScene. cbn. split; [|reflexivity].
  apply removeChildren_empties. lia.
Qed.

(** C8. After [dispose()] the tracked-objects list is empty, the scene has
    no child left, so no object that was tracked is anywhere in the scene
    graph, and the texture, material and geometry caches have no entry. *)
Theorem dispose_leaves_nothing (v : t) :
  let v' := fst (dispose v) in
  objects v' = []
  /\ scene v' = []
  /\ (forall o, o ∈ objects v -> o ∉ graphIds (scene v'))
  /\ size (textureCache v') = 0%nat
  /\ size (materialCache v') = 0%nat
  /\ size (geometryCache v') = 0%nat.
Proof.
  cbv zeta. unfold dispose. cbn [fst].
  match goal with
  | |- context [clearScene true ?x] =>
      destruct (clearScene_empties x) as [Hs Ho]
  end.
  split; [exact Ho|]. split; [exact Hs|]. split.
  - intros o _. rewrite Hs. cbn. apply not_elem_of_nil.
  - cbn. rewrite !map_size_empty. repeat split.
Qed.

Lemma lod_shouldUpdate_lookup (i d : Q) (l : LodManager.t) :
  LodManager.getCurrentLodLevel (snd (LodManager.shouldUpdate i d l))
  = LodManager.getCurrentLodLevel l.
Proof.
  unfold LodManager.shouldUpdate.
  destruct (LodManager.getCurrentLodLevel l) eqn:E; cbn; exact E.
Qed.

(** With a LOD manager whose index is valid (or none), the frequency gate
    answers and leaves the visibility flag alone. *)
Lemma frequencyGate_answers (importance : Q) (v : t) :
  System.lodValid (lodManager v) ->
  exists due v2,
    frequencyGate importance v = (Some due, v2)
    /\ isVisible v2 = isVisible v.
Proof.
  intros Hv. unfold frequencyGate.
  destruct (lodManager v) as [l|] eqn:E; [|eauto].
  specialize (Hv l eq_refl).
  pose proof (lod_shouldUpdate_answers importance (distanceToCamera v) l Hv)
    as [due Hdue].
  pose proof (lod_shouldUpdate_lookup importance (distanceToCamera v) l)
    as Hlook.
  destruct (LodManager.shouldUpdate importance (distanceToCamera v) l)
    as [answer l1]. cbn in Hdue, Hlook. subst answer.
  unfold LodManager.getEffectComplexity. rewrite Hlook.
  unfold LodManager.getCurrentLodLevel.
  destruct (index_range_Some _ _ Hv) as [lod ->]. cbn.
  destruct (negb _); eauto.
Qed.

Context `{VisualStyle}.

(** C7. When [update] receives a detected beat with confidence above 0.5
    and the visualization is visible this frame (no camera, or the camera
    closer than the visibility threshold), it calls the style's
    [updateVisualization] with that audio frame and returns the state the
    style produced, whatever the frequency gate answered.  The LOD manager,
    when wired, is one whose index is valid. *)
Theorem confident_beat_forces_update (audioData : AudioAnalysisData)
    (instruments : list DetectedInstrument) (camera : option Q)
    (elapsed : Q) (v : t) :
  beatDetected audioData = true ->
  (5 # 10 < beatConfidence audioData)%Q ->
  visibleFrom camera v = true ->
  System.lodValid (lodManager v) ->
  exists v4 events,
    update audioData instruments camera elapsed v
    = (Returned (updateVisualization audioData v4), events)
    /\ UpdateVisualization audioData ∈ events.
Proof.
  intros Hbeat Hconf Hvis Hlod. unfold update.
  rewrite Hbeat. apply Qltb_lt in Hconf. rewrite Hconf. cbn [andb].
  match goal with
  | |- context [frequencyGate ?i ?x] =>
      destruct (frequencyGate_answers i x Hlod) as (due & v2 & -> & Hv2)
  end.
  cbn [isVisible withFrame] in Hv2.
  destruct (Num.Qltb (memoryCleanupInterval v2 / 1000) _).
  - destruct (cleanupUnusedResources v2) as [c ev] eqn:Ec.
    assert (Hc : isVisible c = isVisible v2).
    { unfold cleanupUnusedResources in Ec. injection Ec as <- _. reflexivity. }
    cbn [isVisible withCaches]. rewrite Hc, Hv2, Hvis. cbn [negb orb].
    eexists _, _. split; [reflexivity|]. set_solver.
  - rewrite Hv2, Hvis. cbn [negb orb].
    eexists _, _. split; [reflexivity|]. set_solver.
Qed.

End VisualizationProperties.

Lemma dispose_leaves_nothing_witness :
  let v' := fst (BaseVisualization.dispose Sample.throttledVisualization) in
  BaseVisualization.objects v' = [] /\ BaseVisualization.scene v' = []
  /\ (3%nat ∉ BaseVisualization.graphIds (BaseVisualization.scene v'))
  /\ size (BaseVisualization.materialCache v') = 0%nat.
Proof.
  cbv zeta.
  destruct (dispose_leaves_nothing Sample.throttledVisualization)
    as (Ho & Hs & Hg & _ & Hm & _).
  split; [exact Ho|]. split; [exact Hs|]. split; [|exact Hm].
  apply Hg. vm_compute. set_solver.
Defined.

Lemma confident_beat_forces_update_witness :
  fst (BaseVisualization.frequencyGate (9 # 10)
         (BaseVisualization.withFrame 1 1 (3 # 10) [] 0 true
            Sample.throttledVisualization))
  = Some false
  /\ exists v4 events,
       @BaseVisualization.update Sample.countingStyle Sample.confidentBeat
         [] None 1 Sample.throttledVisualization
       = (Returned
            (@BaseVisualization.updateVisualization Sample.countingStyle
               Sample.confidentBeat v4), events)
       /\ BaseVisualization.UpdateVisualization Sample.confidentBeat ∈ events.
Proof.
  split; [vm_compute; reflexivity|].
  apply (@confident_beat_forces_update Sample.countingStyle
           Sample.confidentBeat [] None 1 Sample.throttledVisualization).
  - reflexivity.
  - reflexivity.
  - reflexivity.
  - intros l [= <-]. unfold LodManager.indexValid. cbn. lia.
Defined.

(** ** The FPS reading through the public interface

    No method writes [metrics.fps] except [endFrame], which stores the
    reading it found or the default 60 when that reading is zero.  From
    construction the reading is therefore 0 or 60 and every sample of the
    window is 60. *)

Lemma fps_reading_is_default (sqrt : Q -> Q)
    (p : PerformanceMonitor.PartialSettings) (ops : list System.Op) :
  let m := System.monitor (System.run sqrt ops (System.create p)) in
  (PerformanceMonitor.fps (PerformanceMonitor.metrics m) = 0%Q
   \/ PerformanceMonitor.fps (PerformanceMonitor.metrics m) = 60%Q)
  /\ Forall (eq 60%Q) (PerformanceMonitor.fpsHistory m).
Proof.
  cbv zeta.
  assert (Hrun : forall w,
    ((PerformanceMonitor.fps (PerformanceMonitor.metrics (System.monitor w))
      = 0%Q
      \/ PerformanceMonitor.fps (PerformanceMonitor.metrics (System.monitor w))
         = 60%Q)
     /\ Forall (eq 60%Q) (PerformanceMonitor.fpsHistory (System.monitor w))) ->
    let m := System.monitor (System.run sqrt ops w) in
    (PerformanceMonitor.fps (PerformanceMonitor.metrics m) = 0%Q
     \/ PerformanceMonitor.fps (PerformanceMonitor.metrics m) = 60%Q)
    /\ Forall (eq 60%Q) (PerformanceMonitor.fpsHistory m)).
  { induction ops as [|op ops IH]; intros w Hw; [exact Hw|].
    cbn. apply IH. rewrite step_monitor.
    destruct op; try exact Hw.
    - unfold PerformanceMonitor.endSection. destruct (_ !! _); exact Hw.
    - destruct Hw as [Hfps Hwin].
      destruct (endFrame_stability_fields sqrt e (System.monitor w))
        as (-> & -> & _).
      assert (Hd : Num.orDefault
                     (PerformanceMonitor.fps
                        (PerformanceMonitor.metrics (System.monitor w))) 60
                   = 60%Q) by (destruct Hfps as [-> | ->]; reflexivity).
      rewrite Hd. split; [right; reflexivity|].
      apply pushWindow_Forall; [reflexivity | exact Hwin].
    - unfold PerformanceMonitor.handleMemoryPressure.
      destruct (PerformanceMonitor.isUnderMemoryPressure _); exact Hw.
    - destruct (LodManager.create d dpr r lvls); exact Hw. }
  apply Hrun. split; [left; reflexivity | constructor].
Qed.

(** ** The stability score through the public interface *)

(** With at most five samples in the window after [endFrame], the score is
    the one held before the call. *)
Lemma fpsStability_held_up_to_five (sqrt : Q -> Q)
    (e : PerformanceMonitor.FrameEnv) (s : PerformanceMonitor.t) :
  let s' := fst (PerformanceMonitor.endFrame sqrt e s) in
  (length (PerformanceMonitor.fpsHistory s') <= 5)%nat ->
  PerformanceMonitor.fpsStability (PerformanceMonitor.metrics s')
  = PerformanceMonitor.fpsStability (PerformanceMonitor.metrics s).
Proof.
  cbv zeta. intros Hlen.
  destruct (endFrame_stability_fields sqrt e s) as (_ & _ & ->).
  apply Nat.ltb_ge in Hlen. rewrite Hlen. reflexivity.
Qed.





(** * Further properties of the code *)

(** ** LOD manager: update cadence *)

Lemma shouldUpdate_effective (importance distance : Q) (m : LodManager.t)
    (lod : LodManager.LodLevel) :
  LodManager.getCurrentLodLevel m = Some lod ->
  LodManager.shouldUpdate importance distance m
  = (Some (Num.remIsZero (LodManager.frameCounter m + 1)
             (LodManager.effectiveFrequency importance distance m lod)),
     LodManager.setFrameCounter (LodManager.frameCounter m + 1) m).
Proof.
  intros Hlod. unfold LodManager.shouldUpdate, LodManager.effectiveFrequency.
  rewrite Hlod. reflexivity.
Qed.

Lemma shouldUpdateCalls_answers (importance distance : Q)
    (lod : LodManager.LodLevel) (n : nat) :
  forall (m : LodManager.t) (k : nat),
  LodManager.getCurrentLodLevel m = Some lod ->
  (k < n)%nat ->
  fst (LodManager.shouldUpdateCalls n importance distance m) !! k
  = Some (Some (Num.remIsZero (LodManager.frameCounter m + Z.of_nat k + 1)
                  (LodManager.effectiveFrequency importance distance m lod))).
Proof.
  induction n as [|n IH]; intros m k Hlod Hk; [lia|].
  cbn [LodManager.shouldUpdateCalls].
  rewrite (shouldUpdate_effective _ _ _ _ Hlod).
  destruct (LodManager.shouldUpdateCalls n importance distance
              (LodManager.setFrameCounter (LodManager.frameCounter m + 1) m))
    as [rest m2] eqn:E.
  destruct k as [|k]; cbn [fst lookup list_lookup].
  - cbn. rewrite Z.add_0_r. reflexivity.
  - change (rest !! k) with ((rest, m2).1 !! k). rewrite <- E.
    rewrite (IH _ k); [|exact Hlod|lia]. cbn. do 3 f_equal. lia.
Qed.

(** X1. With no importance or distance adjustment (importance at most 0.8,
    distance at most the adaptive threshold), the [k]-th of [n] calls in a
    row answers true exactly when the frame counter it reaches is a
    multiple of the level's [updateFrequency]: with frequency 3 from counter
    0, on calls 3, 6, 9, ... *)
Theorem shouldUpdate_cadence (importance distance : Q) (m : LodManager.t)
    (lod : LodManager.LodLevel) (n k : nat) :
  LodManager.getCurrentLodLevel m = Some lod ->
  LodManager.updateFrequency lod <> 0 ->
  (importance <= 8 # 10)%Q ->
  (distance <= LodManager.adaptiveDistance m)%Q ->
  (k < n)%nat ->
  fst (LodManager.shouldUpdateCalls n importance distance m) !! k
  = Some (Some (Z.rem (LodManager.frameCounter m + Z.of_nat k + 1)
                      (LodManager.updateFrequency lod) =? 0)).
Proof.
  intros Hlod Hf Hi Hd Hk.
  rewrite (shouldUpdateCalls_answers _ _ lod n m k Hlod Hk).
  assert (He : LodManager.effectiveFrequency importance distance m lod
               = LodManager.updateFrequency lod).
  { unfold LodManager.effectiveFrequency.
    apply Qltb_ge in Hi. apply Qltb_ge in Hd. rewrite Hi, Hd.
    destruct (LodManager.dynamicUpdateFrequency m); reflexivity. }
  rewrite He. unfold Num.remIsZero.
  destruct (Z.eqb_spec (LodManager.updateFrequency lod) 0); [congruence|].
  reflexivity.
Qed.

Lemma shouldUpdate_cadence_witness :
  fst (LodManager.shouldUpdateCalls 6 (5 # 10) 0 (Sample.managerAt 1))
  = [Some false; Some false; Some true; Some false; Some false; Some true]
  /\ fst (LodManager.shouldUpdateCalls 6 (5 # 10) 0 (Sample.managerAt 1)) !! 2%nat
     = Some (Some (Z.rem (0 + Z.of_nat 2 + 1) 3 =? 0)).
Proof.
  split; [reflexivity|].
  apply (shouldUpdate_cadence (5 # 10) 0 (Sample.managerAt 1)
           {| LodManager.level := 1; LodManager.name := "Low";
              LodManager.particleCount := 300;
              LodManager.geometryDetail := 4 # 10;
              LodManager.textureSize := 5 # 10;
              LodManager.shadowQuality := LodManager.ShadowOff;
              LodManager.postProcessingEnabled := false;
              LodManager.effectComplexity := 3 # 10;
              LodManager.maxObjects := 30;
              LodManager.updateFrequency := 3 |} 6 2).
  - reflexivity.
  - discriminate.
  - discriminate.
  - discriminate.
  - lia.
Defined.

Lemma effectiveFrequency_bounds (importance distance : Q) (m : LodManager.t)
    (lod : LodManager.LodLevel) :
  1 <= LodManager.updateFrequency lod <= 6 ->
  1 <= LodManager.effectiveFrequency importance distance m lod <= 6.
Proof.
  intros Hf. unfold LodManager.effectiveFrequency.
  destruct (LodManager.dynamicUpdateFrequency m); [|exact Hf].
  set (fa := if Num.Qltb (8 # 10) importance
             then Z.max 1 (LodManager.updateFrequency lod - 1)
             else LodManager.updateFrequency lod).
  assert (Hfa : 1 <= fa <= 6) by (subst fa; destruct (Num.Qltb _ _); lia).
  destruct (Num.Qltb (LodManager.adaptiveDistance m) distance) eqn:Hd;
    cbn [andb]; [|exact Hfa].
  destruct (LodManager.distanceScalingEnabled m); [|exact Hfa].
  apply Qltb_lt in Hd.
  assert (H0 : 0 <= Qfloor ((distance - LodManager.adaptiveDistance m) / 30)).
  { change 0 with (Qfloor 0). apply Qfloor_resp_le.
    apply Qle_shift_div_l; [reflexivity|]. lra. }
  lia.
Qed.

(** X2. No object is starved as long as it is asked about with the same
    arguments: at a level whose [updateFrequency] is between 1 and 6 (every
    level of the default table), for any importance and any distance, both
    passed unchanged to six calls in a row, at least one of the six calls
    answers true. *)
Theorem shouldUpdate_no_starvation (importance distance : Q)
    (m : LodManager.t) (lod : LodManager.LodLevel) :
  LodManager.getCurrentLodLevel m = Some lod ->
  1 <= LodManager.updateFrequency lod <= 6 ->
  0 <= LodManager.frameCounter m ->
  exists k, (k < 6)%nat
    /\ fst (LodManager.shouldUpdateCalls 6 importance distance m) !! k
       = Some (Some true).
Proof.
  intros Hlod Hf Hc.
  pose proof (effectiveFrequency_bounds importance distance m lod Hf) as He.
  set (f := LodManager.effectiveFrequency importance distance m lod) in *.
  set (c := LodManager.frameCounter m) in *.
  pose proof (Z.mod_pos_bound c f ltac:(lia)) as Hmod.
  exists (Z.to_nat (f - 1 - c mod f)). split; [lia|].
  rewrite (shouldUpdateCalls_answers _ _ lod 6 m _ Hlod) by lia.
  fold f c. do 2 f_equal. unfold Num.remIsZero.
  destruct (Z.eqb_spec f 0); [lia|].
  rewrite Z2Nat.id by lia. apply Z.eqb_eq.
  rewrite Z.rem_mod_nonneg by lia.
  replace (c + (f - 1 - c mod f) + 1) with (c - c mod f + 1 * f) by lia.
  rewrite Z.mod_add by lia.
  rewrite (Z.div_mod c f) at 1 by lia.
  replace (f * (c / f) + c mod f - c mod f) with (c / f * f) by lia.
  apply Z.mod_mul. lia.
Qed.

Lemma shouldUpdate_no_starvation_witness :
  exists k, (k < 6)%nat
    /\ fst (LodManager.shouldUpdateCalls 6 (9 # 10) 200 (Sample.managerAt 0))
         !! k
       = Some (Some true).
Proof.
  apply (shouldUpdate_no_starvation (9 # 10) 200 (Sample.managerAt 0)
           {| LodManager.level := 0; LodManager.name := "Very Low";
              LodManager.particleCount := 100;
              LodManager.geometryDetail := 2 # 10;
              LodManager.textureSize := 25 # 100;
              LodManager.shadowQuality := LodManager.ShadowOff;
              LodManager.postProcessingEnabled := false;
              LodManager.effectComplexity := 1 # 10;
              LodManager.maxObjects := 10;
              LodManager.updateFrequency := 5 |}).
  - reflexivity.
  - cbn. lia.
  - cbn. lia.
Defined.

(** The arguments have to stay the same.  At level 0 of the default table
    (update frequency 5, counter 0), with importance 0.9 on the fifth call
    and 0.5 on the others, nine calls in a row all answer false: the fifth
    call divides by 4. *)
Lemma shouldUpdate_starved_by_changing_importance :
  fst (fold_left
         (fun acc importance =>
            let r := LodManager.shouldUpdate importance 0 (snd acc) in
            (fst acc ++ [fst r], snd r))
         [1 # 2; 1 # 2; 1 # 2; 1 # 2; 9 # 10; 1 # 2; 1 # 2; 1 # 2; 1 # 2]%Q
         ([], Sample.managerAt 0))
  = repeat (Some false) 9.
Proof. vm_compute. reflexivity. Qed.

(** ** LOD manager: detail and particle budgets *)

(** The distance falloff applied by [getGeometryDetail]. *)
Lemma geometry_falloff_bounds (a d : Q) :
  (a < d)%Q -> (1 # 10 <= Qmax (1 # 10) (1 - (d - a) / 100) <= 1)%Q.
Proof.
  intros Had. split; [apply Q.le_max_l|].
  apply Q.max_lub; [discriminate|].
  assert (H : (0 <= (d - a) / 100)%Q)
    by (apply Qle_shift_div_l; [reflexivity|]; lra).
  revert H. generalize ((d - a) / 100)%Q. intros q Hq. lra.
Qed.

Lemma geometry_falloff_monotone (a d1 d2 : Q) :
  (d1 <= d2)%Q ->
  (Qmax (1 # 10) (1 - (d2 - a) / 100) <= Qmax (1 # 10) (1 - (d1 - a) / 100))%Q.
Proof.
  intros Hd. apply Q.max_le_compat_l.
  assert (H : ((d1 - a) / 100 <= (d2 - a) / 100)%Q).
  { apply Qmult_le_compat_r; [lra|discriminate]. }
  revert H. generalize ((d1 - a) / 100)%Q ((d2 - a) / 100)%Q. intros p q H.
  lra.
Qed.

(** X3. [getGeometryDetail] never returns less than a tenth of the level's
    [geometryDetail], and for a non-negative base detail and an importance
    of at least -0.5 it does not grow with the distance to the camera. *)
Theorem getGeometryDetail_falls_with_distance (baseDetail importance d1 d2 : Q)
    (m : LodManager.t) (lod : LodManager.LodLevel) :
  LodManager.getCurrentLodLevel m = Some lod ->
  (0 <= baseDetail)%Q ->
  (0 <= LodManager.geometryDetail lod)%Q ->
  (- (1 # 2) <= importance)%Q ->
  (d1 <= d2)%Q ->
  exists x1 x2,
    LodManager.getGeometryDetail baseDetail (Some d1) importance m = Some x1
    /\ LodManager.getGeometryDetail baseDetail (Some d2) importance m = Some x2
    /\ (x2 <= x1)%Q
    /\ (LodManager.geometryDetail lod * (1 # 10) <= x2)%Q.
Proof.
  intros Hlod Hb Hg Hi Hd. unfold LodManager.getGeometryDetail.
  rewrite Hlod. eexists _, _. split; [reflexivity|]. split; [reflexivity|].
  split; [|apply Q.le_max_l].
  apply Q.max_le_compat_l.
  set (D := if LodManager.importanceBasedLod m
               && negb (Qeq_bool importance (5 # 10))
            then (baseDetail * LodManager.geometryDetail lod
                  * ((5 # 10) + (importance - (5 # 10)) * (5 # 10)))%Q
            else (baseDetail * LodManager.geometryDetail lod)%Q).
  assert (HD : (0 <= D)%Q).
  { subst D. destruct (_ && _).
    - apply Qmult_le_0_compat; [apply Qmult_le_0_compat; assumption|lra].
    - apply Qmult_le_0_compat; assumption. }
  destruct (LodManager.distanceScalingEnabled m); [|apply Qle_refl].
  destruct (Num.Qltb (LodManager.adaptiveDistance m) d1) eqn:E1;
    destruct (Num.Qltb (LodManager.adaptiveDistance m) d2) eqn:E2.
  - rewrite !(Qmult_comm D). apply Qmult_le_compat_r; [|exact HD].
    apply geometry_falloff_monotone, Hd.
  - apply Qltb_lt in E1. apply Qltb_ge in E2. lra.
  - apply Qltb_lt in E2.
    destruct (geometry_falloff_bounds _ _ E2) as [_ Hle].
    rewrite <- (Qmult_1_r D) at 2. rewrite !(Qmult_comm D).
    apply Qmult_le_compat_r; [exact Hle|exact HD].
  - apply Qle_refl.
Qed.

Lemma getGeometryDetail_falls_with_distance_witness :
  exists x1 x2,
    LodManager.getGeometryDetail 1 (Some 60%Q) (5 # 10) (Sample.managerAt 2)
    = Some x1
    /\ LodManager.getGeometryDetail 1 (Some 400%Q) (5 # 10)
         (Sample.managerAt 2) = Some x2
    /\ (x2 <= x1)%Q
    /\ ((6 # 10) * (1 # 10) <= x2)%Q.
Proof.
  apply (getGeometryDetail_falls_with_distance 1 (5 # 10) 60 400
           (Sample.managerAt 2)
           {| LodManager.level := 2; LodManager.name := "Medium";
              LodManager.particleCount := 800;
              LodManager.geometryDetail := 6 # 10;
              LodManager.textureSize := 75 # 100;
              LodManager.shadowQuality := LodManager.ShadowLow;
              LodManager.postProcessingEnabled := true;
              LodManager.effectComplexity := 5 # 10;
              LodManager.maxObjects := 100;
              LodManager.updateFrequency := 2 |});
    [reflexivity | discriminate | discriminate | discriminate | discriminate].
Defined.

Lemma default_particle_budgets_increase (i j : Z) (a b : LodManager.LodLevel) :
  0 <= i <= j ->
  LodManager.index LodManager.DEFAULT_LOD_LEVELS i = Some a ->
  LodManager.index LodManager.DEFAULT_LOD_LEVELS j = Some b ->
  0 <= LodManager.particleCount a <= LodManager.particleCount b.
Proof.
  intros Hij Ha Hb.
  pose proof (index_Some_range _ _ _ Ha) as Hi.
  pose proof (index_Some_range _ _ _ Hb) as Hj. cbn in Hi, Hj.
  assert (Ei : i = 0 \/ i = 1 \/ i = 2 \/ i = 3 \/ i = 4) by lia.
  assert (Ej : j = 0 \/ j = 1 \/ j = 2 \/ j = 3 \/ j = 4) by lia.
  destruct Ei as [->|[->|[->|[->| ->]]]];
    destruct Ej as [->|[->|[->|[->| ->]]]];
    try lia; cbn in Ha, Hb; injection Ha as <-; injection Hb as <-; cbn; lia.
Qed.

(** X4. On the default table a higher quality level never yields fewer
    particles: for a non-negative base count and an importance of at least
    -0.5, at the same distance, [getParticleCount] at level [i] is at most
    [getParticleCount] at level [j] whenever [i <= j]. *)
Theorem getParticleCount_grows_with_level (baseCount importance distance : Q)
    (i j : Z) (m : LodManager.t) :
  LodManager.levels m = LodManager.DEFAULT_LOD_LEVELS ->
  0 <= i <= j -> j <= 4 ->
  (0 <= baseCount)%Q ->
  (- (1 # 2) <= importance)%Q ->
  exists ni nj,
    LodManager.getParticleCount baseCount importance distance
      (LodManager.setCurrentLevel i m) = Some ni
    /\ LodManager.getParticleCount baseCount importance distance
         (LodManager.setCurrentLevel j m) = Some nj
    /\ ni <= nj.
Proof.
  intros Hl Hij Hj Hb Hi.
  unfold LodManager.getParticleCount, LodManager.getCurrentLodLevel.
  cbn [LodManager.levels LodManager.currentLevel LodManager.setCurrentLevel
       LodManager.importanceBasedLod LodManager.distanceScalingEnabled
       LodManager.adaptiveDistance].
  rewrite Hl.
  destruct (index_range_Some LodManager.DEFAULT_LOD_LEVELS i) as [a Ha];
    [cbn; lia|].
  destruct (index_range_Some LodManager.DEFAULT_LOD_LEVELS j) as [b Hb'];
    [cbn; lia|].
  rewrite Ha, Hb'. cbn [last LodManager.DEFAULT_LOD_LEVELS].
  eexists _, _. split; [reflexivity|]. split; [reflexivity|].
  apply Z.max_le_compat_l, Qfloor_resp_le.
  destruct (default_particle_budgets_increase i j a b Hij Ha Hb') as [Ha0 Hab].
  cbn [LodManager.particleCount].
  assert (Hq : (0 <= inject_Z (LodManager.particleCount a) / inject_Z 3000
                <= inject_Z (LodManager.particleCount b) / inject_Z 3000)%Q).
  { split.
    - apply Qle_shift_div_l; [reflexivity|]. rewrite Qmult_0_l.
      change 0%Q with (inject_Z 0). rewrite <- Zle_Qle. exact Ha0.
    - apply Qmult_le_compat_r; [|discriminate].
      rewrite <- Zle_Qle. exact Hab. }
  revert Hq.
  generalize (inject_Z (LodManager.particleCount a) / inject_Z 3000)%Q
             (inject_Z (LodManager.particleCount b) / inject_Z 3000)%Q.
  intros fa fb [Hfa Hfab].
  assert (Hstep : forall k x y : Q, (0 <= k)%Q -> (x <= y)%Q ->
                                    (x * k <= y * k)%Q)
    by (intros; apply Qmult_le_compat_r; assumption).
  set (imp := fun f : Q =>
         if LodManager.importanceBasedLod m
         then (f * ((5 # 10) + importance))%Q else f).
  assert (Himp : (0 <= imp fa <= imp fb)%Q).
  { subst imp. cbv beta. destruct (LodManager.importanceBasedLod m).
    - split; [apply Qmult_le_0_compat; lra | apply Hstep; lra].
    - split; assumption. }
  change (if LodManager.importanceBasedLod m
          then (fa * ((5 # 10) + importance))%Q else fa) with (imp fa).
  change (if LodManager.importanceBasedLod m
          then (fb * ((5 # 10) + importance))%Q else fb) with (imp fb).
  revert Himp. generalize (imp fa) (imp fb). intros sa sb [Hsa Hsab].
  rewrite !(Qmult_comm baseCount). apply Hstep; [exact Hb|].
  destruct (_ && _); [|exact Hsab].
  destruct (Num.Qltb _ _); [|exact Hsab].
  apply Hstep; [|exact Hsab].
  eapply Qle_trans; [|apply Q.le_max_l]. discriminate.
Qed.

Lemma getParticleCount_grows_with_level_witness :
  exists ni nj,
    LodManager.getParticleCount 1000 (5 # 10) 120
      (LodManager.setCurrentLevel 1 (Sample.managerAt 3)) = Some ni
    /\ LodManager.getParticleCount 1000 (5 # 10) 120
         (LodManager.setCurrentLevel 3 (Sample.managerAt 3)) = Some nj
    /\ ni <= nj.
Proof.
  apply (getParticleCount_grows_with_level 1000 (5 # 10) 120 1 3
           (Sample.managerAt 3));
    [reflexivity | lia | lia | discriminate | discriminate].
Defined.

(** ** LOD manager: memory pressure and renderer settings *)

Lemma lod_setQualityLevel_outcome (n : Z) (m : LodManager.t) :
  LodManager.indexValid m ->
  LodManager.clampLevel m n <> LodManager.currentLevel m ->
  exists lod,
    LodManager.index (LodManager.levels m) (LodManager.clampLevel m n)
    = Some lod
    /\ LodManager.setQualityLevel n m
       = Returned
           (LodManager.emit (LodManager.LodChanged lod)
              (LodManager.setRenderer
                 (LodManager.applyRendererSettings
                    (LodManager.devicePixelRatio m) lod (LodManager.renderer m))
                 (LodManager.setCurrentLevel (LodManager.clampLevel m n) m))).
Proof.
  intros Hm Hne.
  destruct (index_range_Some (LodManager.levels m) (LodManager.clampLevel m n))
    as [lod Hlod]; [apply clampLevel_valid, Hm|].
  exists lod. split; [exact Hlod|]. unfold LodManager.setQualityLevel.
  destruct (Z.eqb_spec (LodManager.clampLevel m n) (LodManager.currentLevel m));
    [contradiction|].
  unfold LodManager.getCurrentLodLevel. cbn. rewrite Hlod. reflexivity.
Qed.

(** X5. [LodManager.handleMemoryPressure] on a manager whose index is valid
    does not throw; it lowers the level by exactly one unless it is already
    0, running the LOD-change callback once in the first case and not at all
    in the second; it sets the adaptive distance to 30; and the last thing it
    does is to broadcast the optimization event with the level reached. *)
Theorem lod_handleMemoryPressure_drops_one_level (m : LodManager.t) :
  LodManager.indexValid m ->
  let r := LodManager.handleMemoryPressure m in
  let m' := stateOf r in
  hasThrown r = false
  /\ LodManager.currentLevel m' = Z.max 0 (LodManager.currentLevel m - 1)
  /\ LodManager.adaptiveDistance m' = 30%Q
  /\ last (LodManager.events m')
     = Some (LodManager.LodMemoryOptimization (LodManager.currentLevel m'))
  /\ LodManager.lodChangeCalls m'
     = (LodManager.lodChangeCalls m
        + if (0 <? LodManager.currentLevel m)%Z then 1 else 0)%nat.
Proof.
  intros Hm. cbv zeta. unfold LodManager.handleMemoryPressure.
  destruct (Z.ltb_spec 0 (LodManager.currentLevel m)) as [Hpos|Hzero].
  - destruct (lod_setQualityLevel_outcome
                (Z.max 0 (LodManager.currentLevel m - 1)) m Hm)
      as (lod & _ & ->).
    { unfold LodManager.indexValid in Hm. unfold LodManager.clampLevel. lia. }
    cbn. unfold LodManager.indexValid in Hm. unfold LodManager.clampLevel.
    split; [reflexivity|]. split; [lia|]. split; [reflexivity|]. split.
    + rewrite last_snoc. reflexivity.
    + unfold LodManager.lodChangeCalls. cbn.
      rewrite !List.filter_app, !length_app. cbn. lia.
  - cbn. unfold LodManager.indexValid in Hm.
    split; [reflexivity|]. split; [lia|]. split; [reflexivity|]. split.
    + apply last_snoc.
    + unfold LodManager.lodChangeCalls. cbn.
      rewrite List.filter_app, length_app. cbn. lia.
Qed.

Lemma lod_handleMemoryPressure_drops_one_level_witness :
  LodManager.currentLevel
    (stateOf (LodManager.handleMemoryPressure (Sample.managerAt 3))) = 2
  /\ LodManager.lodChangeCalls
       (stateOf (LodManager.handleMemoryPressure (Sample.managerAt 0)))
     = 0%nat.
Proof.
  pose proof (lod_handleMemoryPressure_drops_one_level (Sample.managerAt 3))
    as H3.
  pose proof (lod_handleMemoryPressure_drops_one_level (Sample.managerAt 0))
    as H0.
  split.
  - apply H3. unfold LodManager.indexValid. cbn. lia.
  - apply H0. unfold LodManager.indexValid. cbn. lia.
Defined.

Lemma lod_setQualityLevel_keeps_cap (n : Z) (m : LodManager.t) :
  LodManager.maxAnisotropyCapped (LodManager.renderer m) = true ->
  LodManager.maxAnisotropyCapped
    (LodManager.renderer (stateOf (LodManager.setQualityLevel n m))) = true.
Proof.
  intros Hc. unfold LodManager.setQualityLevel.
  destruct (_ =? _); [exact Hc|].
  destruct (LodManager.getCurrentLodLevel _) as [lod|]; [|exact Hc].
  cbn. rewrite Hc. destruct (_ <=? _); reflexivity.
Qed.

(** X6. The anisotropy cap is permanent.  A change to a level whose [level]
    field is 0 or 1 caps the renderer's anisotropy, and no later sequence of
    [setQualityLevel] calls lifts the cap, while the pixel ratio does follow
    the level: it is back at the device pixel ratio after a change to a level
    above 1. *)
Theorem anisotropy_cap_is_permanent (n : Z) (later : list Z) (up : Z)
    (m : LodManager.t) (lod high : LodManager.LodLevel) :
  LodManager.indexValid m ->
  LodManager.clampLevel m n <> LodManager.currentLevel m ->
  LodManager.index (LodManager.levels m) (LodManager.clampLevel m n)
  = Some lod ->
  LodManager.level lod <= 1 ->
  let m1 := stateOf (LodManager.setQualityLevel n m) in
  let m2 := LodManager.setQualityLevels later m1 in
  let m3 := stateOf (LodManager.setQualityLevel up m2) in
  LodManager.maxAnisotropyCapped (LodManager.renderer m1) = true
  /\ LodManager.maxAnisotropyCapped (LodManager.renderer m2) = true
  /\ (LodManager.clampLevel m2 up <> LodManager.currentLevel m2 ->
      LodManager.getCurrentLodLevel m3 = Some high ->
      1 < LodManager.level high ->
      LodManager.maxAnisotropyCapped (LodManager.renderer m3) = true
      /\ LodManager.pixelRatio (LodManager.renderer m3)
         = LodManager.devicePixelRatio m).
Proof.
  intros Hm Hne Hlod Hlow. cbv zeta.
  assert (H1 : LodManager.maxAnisotropyCapped
                 (LodManager.renderer
                    (stateOf (LodManager.setQualityLevel n m))) = true).
  { destruct (lod_setQualityLevel_outcome n m Hm Hne) as (lod' & Hl' & ->).
    assert (lod' = lod) as -> by congruence. cbn.
    apply Z.leb_le in Hlow. rewrite Hlow. reflexivity. }
  assert (Hvalid : forall l x, LodManager.indexValid x ->
            LodManager.indexValid (LodManager.setQualityLevels l x)).
  { induction l as [|a l IH]; intros x Hx; [exact Hx|].
    cbn. apply IH, lod_setQualityLevel_valid, Hx. }
  assert (Hkeep : forall l x,
            LodManager.maxAnisotropyCapped (LodManager.renderer x) = true ->
            LodManager.maxAnisotropyCapped
              (LodManager.renderer (LodManager.setQualityLevels l x)) = true).
  { induction l as [|a l IH]; intros x Hx; [exact Hx|].
    cbn. apply IH, lod_setQualityLevel_keeps_cap, Hx. }
  assert (Hdpr : forall l x,
            LodManager.devicePixelRatio (LodManager.setQualityLevels l x)
            = LodManager.devicePixelRatio x).
  { induction l as [|a l IH]; intros x; [reflexivity|].
    cbn. rewrite IH. unfold LodManager.setQualityLevel.
    destruct (_ =? _); [reflexivity|].
    destruct (LodManager.getCurrentLodLevel _); reflexivity. }
  split; [exact H1|]. split; [apply Hkeep, H1|].
  intros Hup Hhigh Hlvl.
  split; [apply lod_setQualityLevel_keeps_cap, Hkeep, H1|].
  set (m2 := LodManager.setQualityLevels later
               (stateOf (LodManager.setQualityLevel n m))) in *.
  assert (Hm2 : LodManager.indexValid m2)
    by (apply Hvalid, lod_setQualityLevel_valid, Hm).
  destruct (lod_setQualityLevel_outcome up m2 Hm2 Hup) as (h & Hh & E).
  rewrite E in Hhigh |- *. cbn in Hhigh |- *.
  unfold LodManager.getCurrentLodLevel in Hhigh. cbn in Hhigh.
  assert (h = high) as -> by congruence.
  destruct (Z.eqb_spec (LodManager.level high) 0); [lia|].
  destruct (Z.eqb_spec (LodManager.level high) 1); [lia|].
  subst m2. rewrite Hdpr. unfold LodManager.setQualityLevel.
  destruct (_ =? _); [reflexivity|].
  destruct (LodManager.getCurrentLodLevel _); reflexivity.
Qed.

Lemma anisotropy_cap_is_permanent_witness :
  let m3 :=
    stateOf (LodManager.setQualityLevel 4
      (LodManager.setQualityLevels [2; 3]
         (stateOf (LodManager.setQualityLevel 1 (Sample.managerAt 3))))) in
  LodManager.currentLevel m3 = 4
  /\ LodManager.maxAnisotropyCapped (LodManager.renderer m3) = true
  /\ LodManager.pixelRatio (LodManager.renderer m3) = 1%Q.
Proof.
  cbv zeta. split; [reflexivity|].
  destruct (anisotropy_cap_is_permanent 1 [2; 3] 4 (Sample.managerAt 3)
    {| LodManager.level := 1; LodManager.name := "Low";
       LodManager.particleCount := 300;
       LodManager.geometryDetail := 4 # 10;
       LodManager.textureSize := 5 # 10;
       LodManager.shadowQuality := LodManager.ShadowOff;
       LodManager.postProcessingEnabled := false;
       LodManager.effectComplexity := 3 # 10;
       LodManager.maxObjects := 30;
       LodManager.updateFrequency := 3 |}
    {| LodManager.level := 4; LodManager.name := "Ultra";
       LodManager.particleCount := 3000;
       LodManager.geometryDetail := 11 # 10;
       LodManager.textureSize := 1;
       LodManager.shadowQuality := LodManager.ShadowHigh;
       LodManager.postProcessingEnabled := true;
       LodManager.effectComplexity := 1;
       LodManager.maxObjects := 500;
       LodManager.updateFrequency := 1 |})
    as (_ & _ & H3).
  - unfold LodManager.indexValid. cbn. lia.
  - vm_compute. discriminate.
  - reflexivity.
  - cbn. lia.
  - apply H3; [vm_compute; discriminate | reflexivity | cbn; lia].
Defined.

(** ** Performance monitor: section timers and rolling windows *)

Lemma pushWindow_length {A} (n : nat) (x : A) (l : list A) :
  length (Num.pushWindow n x l)
  = if (n <? S (length l))%nat then length l else S (length l).
Proof.
  unfold Num.pushWindow. rewrite length_app. cbn [length].
  rewrite Nat.add_1_r. destruct (_ <? _)%nat; [|rewrite length_app; cbn; lia].
  destruct l; cbn; [reflexivity|]. rewrite length_app. cbn. lia.
Qed.

Lemma pushWindow_last {A} (n : nat) (x : A) (l : list A) :
  (0 < n)%nat -> last (Num.pushWindow n x l) = Some x.
Proof.
  intros Hn. unfold Num.pushWindow.
  destruct (Nat.ltb_spec n (length (l ++ [x]))) as [Hlt|_];
    [|apply last_snoc].
  rewrite length_app in Hlt. cbn in Hlt.
  destruct l as [|a l]; cbn in Hlt; [lia|]. cbn [app tail]. apply last_snoc.
Qed.

Lemma endSection_begun (n : string) (t0 t1 : Q) (s : PerformanceMonitor.t) :
  PerformanceMonitor.timingMarkers s !! n = Some t0 ->
  let s' := PerformanceMonitor.endSection n t1 s in
  PerformanceMonitor.timingMarkers s' = PerformanceMonitor.timingMarkers s
  /\ PerformanceMonitor.warnings s' = PerformanceMonitor.warnings s
  /\ PerformanceMonitor.sectionTimes s' !! n
     = Some (Num.pushWindow PerformanceMonitor.historySize (t1 - t0)%Q
               (default [] (PerformanceMonitor.sectionTimes s !! n)))
  /\ PerformanceMonitor.metrics s'
     = PerformanceMonitor.withSectionTime n (t1 - t0)%Q
         (PerformanceMonitor.metrics s).
Proof.
  intros Hm. cbv zeta. unfold PerformanceMonitor.endSection. rewrite Hm.
  cbn. rewrite lookup_insert_eq. repeat split.
Qed.

(** X7. Section timers.  After [beginSection(n)] at clock [t0], an
    [endSection(n)] at [t1] records [t1 - t0] as the newest sample of the
    section (and, for the section named "update", as [updateTime]) without a
    warning.  The start marker is not consumed: a further [endSection(n)] at
    [t2] records [t2 - t0], again without a warning.  For a section that was
    never begun, [endSection] only counts a warning, and
    [getSectionPerformance] of a section with no sample is 0. *)
Theorem section_timer_contract (n other : string) (t0 t1 t2 : Q)
    (s : PerformanceMonitor.t) :
  let s1 := PerformanceMonitor.beginSection n t0 s in
  let s2 := PerformanceMonitor.endSection n t1 s1 in
  let s3 := PerformanceMonitor.endSection n t2 s2 in
  let samples x := default [] (PerformanceMonitor.sectionTimes x !! n) in
  (last (samples s2) = Some (t1 - t0)%Q
   /\ last (samples s3) = Some (t2 - t0)%Q
   /\ PerformanceMonitor.warnings s3 = PerformanceMonitor.warnings s
   /\ (n = "update" ->
       PerformanceMonitor.updateTime (PerformanceMonitor.metrics s2)
       = (t1 - t0)%Q))
  /\ (PerformanceMonitor.timingMarkers s !! other = None ->
      let s' := PerformanceMonitor.endSection other t1 s in
      PerformanceMonitor.metrics s' = PerformanceMonitor.metrics s
      /\ PerformanceMonitor.sectionTimes s' = PerformanceMonitor.sectionTimes s
      /\ PerformanceMonitor.warnings s' = S (PerformanceMonitor.warnings s))
  /\ (PerformanceMonitor.sectionTimes s !! other = None ->
      PerformanceMonitor.getSectionPerformance other s = 0%Q).
Proof.
  cbv zeta. split; [|split].
  - assert (H1 : PerformanceMonitor.timingMarkers
                   (PerformanceMonitor.beginSection n t0 s) !! n = Some t0)
      by apply lookup_insert_eq.
    destruct (endSection_begun n t0 t1 _ H1) as (Hm2 & Hw2 & Hs2 & Hx2).
    assert (H2 : PerformanceMonitor.timingMarkers
                   (PerformanceMonitor.endSection n t1
                      (PerformanceMonitor.beginSection n t0 s)) !! n
                 = Some t0) by (rewrite Hm2; exact H1).
    destruct (endSection_begun n t0 t2 _ H2) as (_ & Hw3 & Hs3 & _).
    rewrite Hs2, Hs3, Hw3, Hw2, Hx2. cbn [default].
    split; [apply pushWindow_last; unfold PerformanceMonitor.historySize; lia|].
    split; [apply pushWindow_last; unfold PerformanceMonitor.historySize; lia|].
    split; [reflexivity|].
    intros ->. reflexivity.
  - intros Hnone. unfold PerformanceMonitor.endSection. rewrite Hnone.
    repeat split.
  - intros Hnone. unfold PerformanceMonitor.getSectionPerformance.
    rewrite Hnone. reflexivity.
Qed.

Lemma section_timer_contract_witness :
  let s := PerformanceMonitor.create Sample.noSettings in
  PerformanceMonitor.updateTime
    (PerformanceMonitor.metrics
       (PerformanceMonitor.endSection "update" 14
          (PerformanceMonitor.beginSection "update" 10 s))) = (14 - 10)%Q
  /\ PerformanceMonitor.warnings (PerformanceMonitor.endSection "render" 14 s)
     = 1%nat
  /\ PerformanceMonitor.getSectionPerformance "render" s = 0%Q.
Proof.
  cbv zeta.
  destruct (section_timer_contract "update" "render" 10 14 20
              (PerformanceMonitor.create Sample.noSettings))
    as ((_ & _ & _ & Hupdate) & Hwarn & Hperf).
  split; [apply Hupdate; reflexivity|].
  split; [apply Hwarn; reflexivity | apply Hperf; reflexivity].
Defined.

(** An invariant of the monitor kept by each of its methods holds after any
    sequence of calls. *)
Lemma run_monitor_invariant (sqrt : Q -> Q)
    (P : PerformanceMonitor.t -> Prop) :
  (forall m tnow info, P m -> P (PerformanceMonitor.beginFrame tnow info m)) ->
  (forall m n tnow, P m -> P (PerformanceMonitor.beginSection n tnow m)) ->
  (forall m n tnow, P m -> P (PerformanceMonitor.endSection n tnow m)) ->
  (forall m c, P m -> P (PerformanceMonitor.trackParticles c m)) ->
  (forall m e, P m -> P (fst (PerformanceMonitor.endFrame sqrt e m))) ->
  (forall m lvl, P m -> P (fst (PerformanceMonitor.setQualityLevel lvl m))) ->
  (forall m, P m -> P (snd (PerformanceMonitor.getMetrics m))) ->
  (forall m, P m -> P (fst (PerformanceMonitor.handleMemoryPressure m))) ->
  forall ops w, P (System.monitor w) ->
  P (System.monitor (System.run sqrt ops w)).
Proof.
  intros Hbf Hbs Hes Htp Hef Hsq Hgm Hmp.
  induction ops as [|op ops IH]; intros w Hw; [exact Hw|].
  cbn. apply IH. rewrite step_monitor.
  destruct op; auto.
  destruct (LodManager.create d dpr r lvls); auto.
Qed.

(** X8. The rolling windows are bounded.  From construction, after any
    sequence of calls, the FPS window and the frame-time window both hold
    [min(frameCount, 60)] samples, the memory window holds at most 60, and
    the history of every timed section holds between 1 and 60 samples. *)
Theorem rolling_windows_bounded (sqrt : Q -> Q)
    (p : PerformanceMonitor.PartialSettings) (ops : list System.Op) :
  let m := System.monitor (System.run sqrt ops (System.create p)) in
  let held := Z.to_nat (Z.min (PerformanceMonitor.frameCount m) 60) in
  0 <= PerformanceMonitor.frameCount m
  /\ length (PerformanceMonitor.fpsHistory m) = held
  /\ length (PerformanceMonitor.frameTimeHistory m) = held
  /\ (length (PerformanceMonitor.memoryHistory m) <= 60)%nat
  /\ (forall n l, PerformanceMonitor.sectionTimes m !! n = Some l ->
        (1 <= length l <= 60)%nat).
Proof.
  cbv zeta.
  apply (run_monitor_invariant sqrt (fun m =>
    0 <= PerformanceMonitor.frameCount m
    /\ length (PerformanceMonitor.fpsHistory m)
       = Z.to_nat (Z.min (PerformanceMonitor.frameCount m) 60)
    /\ length (PerformanceMonitor.frameTimeHistory m)
       = Z.to_nat (Z.min (PerformanceMonitor.frameCount m) 60)
    /\ (length (PerformanceMonitor.memoryHistory m) <= 60)%nat
    /\ (forall n l, PerformanceMonitor.sectionTimes m !! n = Some l ->
          (1 <= length l <= 60)%nat))); try (intros; assumption).
  - intros m n tnow (Hc & Hf & Ht & Hm & Hs).
    unfold PerformanceMonitor.endSection.
    destruct (PerformanceMonitor.timingMarkers m !! n); cbn;
      [|repeat (split; [assumption|]); assumption].
    split; [exact Hc|]. split; [exact Hf|]. split; [exact Ht|].
    split; [exact Hm|]. intros k l.
    destruct (decide (n = k)) as [->|Hne].
    + rewrite lookup_insert_eq. intros [= <-].
      rewrite pushWindow_length. unfold PerformanceMonitor.historySize.
      destruct (PerformanceMonitor.sectionTimes m !! k) as [old|] eqn:E;
        cbn [from_option]; unfold id.
      * specialize (Hs _ _ E). destruct (Nat.ltb_spec 60 (S (length old))); lia.
      * cbn. lia.
    + rewrite lookup_insert_ne by exact Hne. apply Hs.
  - intros m e (Hc & Hf & Ht & Hm & Hs).
    destruct (endFrame_cases sqrt e m) as [H|(lvl & _ & _ & _ & H)];
      rewrite H; cbn;
      rewrite !pushWindow_length; unfold PerformanceMonitor.historySize;
      (split; [lia|]);
      (split; [destruct (Nat.ltb_spec 60
                 (S (length (PerformanceMonitor.fpsHistory m)))); lia|]);
      (split; [destruct (Nat.ltb_spec 60
                 (S (length (PerformanceMonitor.frameTimeHistory m)))); lia|]);
      (split; [|exact Hs]);
      (destruct (PerformanceMonitor.memory e); [|exact Hm]);
      rewrite pushWindow_length;
      destruct (Nat.ltb_spec 60
                  (S (length (PerformanceMonitor.memoryHistory m)))); lia.
  - intros m (Hc & Hf & Ht & Hm & Hs).
    unfold PerformanceMonitor.handleMemoryPressure.
    destruct (PerformanceMonitor.isUnderMemoryPressure m); cbn;
      repeat (split; [assumption|]); assumption.
  - cbn. repeat (split; [lia|]). intros n l. rewrite lookup_empty.
    discriminate.
Qed.

(** ** Performance monitor: memory metrics *)

(** X9. From construction, after any sequence of calls, the reported memory
    usage never exceeds the reported peak, the reported peak is the peak the
    monitor tracks, and it is never negative when the usage readings are
    not. *)
Theorem memory_peak_dominates_usage (sqrt : Q -> Q)
    (p : PerformanceMonitor.PartialSettings) (ops : list System.Op) :
  let m := System.monitor (System.run sqrt ops (System.create p)) in
  (PerformanceMonitor.memoryUsage (PerformanceMonitor.metrics m)
   <= PerformanceMonitor.memoryPeak (PerformanceMonitor.metrics m))%Q
  /\ PerformanceMonitor.memoryPeak (PerformanceMonitor.metrics m)
     = PerformanceMonitor.memoryPeakSeen m
  /\ (0 <= PerformanceMonitor.memoryPeak (PerformanceMonitor.metrics m))%Q.
Proof.
  cbv zeta.
  apply (run_monitor_invariant sqrt (fun m =>
    (PerformanceMonitor.memoryUsage (PerformanceMonitor.metrics m)
     <= PerformanceMonitor.memoryPeak (PerformanceMonitor.metrics m))%Q
    /\ PerformanceMonitor.memoryPeak (PerformanceMonitor.metrics m)
       = PerformanceMonitor.memoryPeakSeen m
    /\ (0 <= PerformanceMonitor.memoryPeak (PerformanceMonitor.metrics m))%Q));
    try (intros; assumption).
  - intros m n tnow H. unfold PerformanceMonitor.endSection.
    destruct (PerformanceMonitor.timingMarkers m !! n); exact H.
  - intros m e (Hu & Hp & H0).
    destruct (endFrame_cases sqrt e m) as [H|(lvl & _ & _ & _ & H)];
      rewrite H; cbn; destruct (PerformanceMonitor.memory e) as [[used lim]|];
      try (repeat (split; [assumption|]); assumption);
      (split; [apply Q.le_max_r|]); (split; [reflexivity|]);
      (eapply Qle_trans; [|apply Q.le_max_l]); rewrite <- Hp; exact H0.
  - intros m H. unfold PerformanceMonitor.handleMemoryPressure.
    destruct (PerformanceMonitor.isUnderMemoryPressure m); exact H.
  - cbn. split; [discriminate|]. split; [reflexivity|discriminate].
Qed.

(** X10. Without a platform memory API (no [endFrame] gets a memory
    reading) the memory metrics stay disabled: usage 0, never memory
    constrained, an empty memory window, and [handleMemoryPressure] never
    dispatches the memory-pressure event. *)
Theorem memory_metrics_disabled_without_api (sqrt : Q -> Q)
    (p : PerformanceMonitor.PartialSettings) (ops : list System.Op) :
  Forall (fun op => forall e, op = System.EndFrame e ->
            PerformanceMonitor.memory e = None) ops ->
  let m := System.monitor (System.run sqrt ops (System.create p)) in
  PerformanceMonitor.memoryUsage (PerformanceMonitor.metrics m) = 0%Q
  /\ PerformanceMonitor.isMemoryConstrained (PerformanceMonitor.metrics m)
     = false
  /\ PerformanceMonitor.memoryHistory m = []
  /\ PerformanceMonitor.memoryPressureEvents m = 0%nat.
Proof.
  intros Hops. cbv zeta.
  assert (Hrun : forall w,
    (PerformanceMonitor.memoryUsage
       (PerformanceMonitor.metrics (System.monitor w)) = 0%Q
     /\ PerformanceMonitor.isMemoryConstrained
          (PerformanceMonitor.metrics (System.monitor w)) = false
     /\ PerformanceMonitor.memoryHistory (System.monitor w) = []
     /\ PerformanceMonitor.memoryPressureEvents (System.monitor w) = 0%nat) ->
    let m := System.monitor (System.run sqrt ops w) in
    PerformanceMonitor.memoryUsage (PerformanceMonitor.metrics m) = 0%Q
    /\ PerformanceMonitor.isMemoryConstrained (PerformanceMonitor.metrics m)
       = false
    /\ PerformanceMonitor.memoryHistory m = []
    /\ PerformanceMonitor.memoryPressureEvents m = 0%nat).
  { induction Hops as [|op ops Hop Hops IH]; intros w Hw; [exact Hw|].
    cbn. apply IH. rewrite step_monitor.
    destruct op; try exact Hw.
    - unfold PerformanceMonitor.endSection. destruct (_ !! _); exact Hw.
    - specialize (Hop e eq_refl).
      destruct (endFrame_cases sqrt e (System.monitor w))
        as [H|(lvl & _ & _ & _ & H)]; rewrite H; cbn; rewrite Hop; exact Hw.
    - unfold PerformanceMonitor.handleMemoryPressure,
        PerformanceMonitor.isUnderMemoryPressure.
      destruct Hw as (Hu & Hc & Hh & He). rewrite Hc. cbn.
      repeat (split; [assumption|]); assumption.
    - destruct (LodManager.create d dpr r lvls); exact Hw. }
  apply Hrun. repeat split.
Qed.

Lemma memory_metrics_disabled_without_api_witness :
  let m :=
    System.monitor
      (System.run Sample.approxSqrt
         (Sample.steadyLoop 3 0 ++ [System.HandleMemoryPressure])
         (System.create Sample.noSettings)) in
  PerformanceMonitor.memoryUsage (PerformanceMonitor.metrics m) = 0%Q
  /\ PerformanceMonitor.isMemoryConstrained (PerformanceMonitor.metrics m)
     = false
  /\ PerformanceMonitor.memoryHistory m = []
  /\ PerformanceMonitor.memoryPressureEvents m = 0%nat.
Proof.
  apply (memory_metrics_disabled_without_api Sample.approxSqrt
           Sample.noSettings).
  repeat constructor; intros e [= <-]; reflexivity.
Defined.

(** ** The closed loop: how far the automatic adjustment can move *)

Lemma run_settings (sqrt : Q -> Q) (ops : list System.Op) :
  forall w,
  PerformanceMonitor.settings (System.monitor (System.run sqrt ops w))
  = PerformanceMonitor.settings (System.monitor w).
Proof.
  induction ops as [|op ops IH]; intros w; [reflexivity|].
  change (System.run sqrt (op :: ops) w)
    with (System.run sqrt ops (stateOf (System.step sqrt op w))).
  rewrite IH. apply step_settings.
Qed.

Lemma average_of_sixties (window : list Q) :
  window <> [] -> Forall (eq 60%Q) window ->
  (PerformanceMonitor.average window == 60)%Q.
Proof.
  intros Hne Hall. unfold PerformanceMonitor.average, Num.sumQ.
  rewrite (fold_sum_constant 60).
  - pose proof (length_denominator_positive window Hne) as Hn.
    field. intros H0. rewrite H0 in Hn. exact (Qlt_irrefl _ Hn).
  - eapply Forall_impl; [exact Hall|]. intros x <-. reflexivity.
Qed.

Lemma proposeTarget_without_headroom (s : PerformanceMonitor.t) (lvl : Z) :
  Num.Qltb
    (PerformanceMonitor.targetFps (PerformanceMonitor.settings s) * (11 # 10))
    (PerformanceMonitor.averageFps (PerformanceMonitor.metrics s)) = false ->
  PerformanceMonitor.proposeTarget s = (lvl, true) ->
  let cur :=
    PerformanceMonitor.currentQualityLevel (PerformanceMonitor.metrics s) in
  lvl = Z.max 0 (cur - 1) \/ lvl = Z.max 0 (cur - 2).
Proof.
  intros Hhead. cbv zeta. unfold PerformanceMonitor.proposeTarget.
  rewrite Hhead. cbn [andb].
  repeat match goal with
         | |- context [if ?b then _ else _] => destruct b
         end; intros [= <-]; lia.
Qed.

(** X11. The monitor never stores a measured FPS, so its average FPS is
    always the 60 default; with a target FPS of at least 60/1.1 (the default
    60 included) the rule that raises quality therefore never fires.  From
    construction, after any sequence of calls, an [endFrame] that adjusts
    proposes one or two levels below the current level (floored at 0),
    never a level above it. *)
Theorem automatic_adjustment_never_raises (sqrt : Q -> Q)
    (p : PerformanceMonitor.PartialSettings) (ops : list System.Op)
    (e : PerformanceMonitor.FrameEnv) (lvl : Z) :
  1 <= PerformanceMonitor.qualityLevels (PerformanceMonitor.defaultSettings p) ->
  (60 <= PerformanceMonitor.targetFps (PerformanceMonitor.defaultSettings p)
         * (11 # 10))%Q ->
  let m := System.monitor (System.run sqrt ops (System.create p)) in
  let cur :=
    PerformanceMonitor.currentQualityLevel (PerformanceMonitor.metrics m) in
  snd (PerformanceMonitor.endFrame sqrt e m) = Some lvl ->
  lvl <= cur /\ (lvl = Z.max 0 (cur - 1) \/ lvl = Z.max 0 (cur - 2)).
Proof.
  intros Hq Htarget. cbv zeta. intros Hfire.
  set (w := System.run sqrt ops (System.create p)) in *.
  destruct (run_levelsInRange sqrt ops (System.create p) Hq
              (create_levelsInRange p Hq)) as [[Hcur _] _]. fold w in Hcur.
  destruct (fps_reading_is_default sqrt p ops) as [Hfps Hwin].
  fold w in Hfps, Hwin.
  destruct (endFrame_cases sqrt e (System.monitor w))
    as [H|(lvl' & _ & Hp & _ & H)]; rewrite H in Hfire; [discriminate|].
  injection Hfire as ->.
  assert (Hoptions : lvl = Z.max 0
                             (PerformanceMonitor.currentQualityLevel
                                (PerformanceMonitor.metrics (System.monitor w))
                              - 1)
                     \/ lvl = Z.max 0
                                (PerformanceMonitor.currentQualityLevel
                                   (PerformanceMonitor.metrics
                                      (System.monitor w)) - 2)).
  { apply (proposeTarget_without_headroom
             (PerformanceMonitor.endFrameMetrics sqrt e (System.monitor w)));
      [|exact Hp].
    apply Qltb_ge.
    cbn [PerformanceMonitor.endFrameMetrics PerformanceMonitor.metrics
         PerformanceMonitor.settings PerformanceMonitor.averageFps].
    replace (PerformanceMonitor.settings (System.monitor w))
      with (PerformanceMonitor.defaultSettings p)
      by (symmetry; apply (run_settings sqrt ops (System.create p))).
    assert (Hd : Num.orDefault
                   (PerformanceMonitor.fps
                      (PerformanceMonitor.metrics (System.monitor w))) 60
                 = 60%Q) by (destruct Hfps as [-> | ->]; reflexivity).
    rewrite Hd, average_of_sixties; [exact Htarget| |].
    - apply pushWindow_nonempty. unfold PerformanceMonitor.historySize. lia.
    - apply pushWindow_Forall; [reflexivity | exact Hwin]. }
  split; [lia | exact Hoptions].
Qed.

Lemma automatic_adjustment_never_raises_witness :
  let m :=
    System.monitor
      (System.run Sample.approxSqrt (Sample.steadyLoop 125 0)
         (System.create Sample.noSettings)) in
  let cur :=
    PerformanceMonitor.currentQualityLevel (PerformanceMonitor.metrics m) in
  2 <= cur /\ (2 = Z.max 0 (cur - 1) \/ 2 = Z.max 0 (cur - 2)).
Proof.
  apply (automatic_adjustment_never_raises Sample.approxSqrt Sample.noSettings
           (Sample.steadyLoop 125 0)
           {| PerformanceMonitor.now := 2100;
              PerformanceMonitor.nowCheck := 2100;
              PerformanceMonitor.memory := None;
              PerformanceMonitor.renderInfo := None |} 2).
  - vm_compute. discriminate.
  - vm_compute. discriminate.
  - vm_compute. reflexivity.
Defined.

Lemma step_quality_without_set (sqrt : Q -> Q) (op : System.Op)
    (w : System.World) :
  System.callsSetQualityLevel op = false ->
  let m := System.monitor w in
  let m' := System.monitor (stateOf (System.step sqrt op w)) in
  let cur x :=
    PerformanceMonitor.currentQualityLevel (PerformanceMonitor.metrics x) in
  let tgt x :=
    PerformanceMonitor.targetQualityLevel (PerformanceMonitor.metrics x) in
  cur m' = cur m
  /\ (tgt m' = tgt m
      \/ tgt m' = cur m + 1 \/ tgt m' = Z.max 0 (cur m)
      \/ tgt m' = Z.max 0 (cur m - 1) \/ tgt m' = Z.max 0 (cur m - 2)).
Proof.
  intros Hop. cbv beta zeta. rewrite step_monitor.
  destruct op; try discriminate; try (split; [reflexivity|left; reflexivity]).
  - unfold PerformanceMonitor.endSection.
    destruct (_ !! _); split; reflexivity || (left; reflexivity).
  - destruct (endFrame_cases sqrt e (System.monitor w))
      as [H|(lvl & _ & Hp & _ & H)]; rewrite H;
      [split; [reflexivity|left; reflexivity]|].
    split; [reflexivity|]. right.
    exact (proposeTarget_adjusting _ _ Hp).
  - unfold PerformanceMonitor.handleMemoryPressure.
    destruct (PerformanceMonitor.isUnderMemoryPressure _);
      split; reflexivity || (left; reflexivity).
Qed.

(** X12. Starting from a state in which the target equals a non-negative
    current level (as every [setQualityLevel] leaves it), any sequence of
    calls that does not call [setQualityLevel] keeps the current level and
    keeps the target between two levels below it and one level above it:
    however long an overload lasts, the automatic adjustment alone cannot
    lower the target by more than two levels. *)
Theorem target_stays_within_two_levels (sqrt : Q -> Q) (ops : list System.Op)
    (w : System.World) :
  let cur x :=
    PerformanceMonitor.currentQualityLevel
      (PerformanceMonitor.metrics (System.monitor x)) in
  let tgt x :=
    PerformanceMonitor.targetQualityLevel
      (PerformanceMonitor.metrics (System.monitor x)) in
  Forall (fun op => System.callsSetQualityLevel op = false) ops ->
  0 <= cur w ->
  tgt w = cur w ->
  cur (System.run sqrt ops w) = cur w
  /\ cur w - 2 <= tgt (System.run sqrt ops w) <= cur w + 1.
Proof.
  cbv beta zeta. intros Hops Hcur Htgt.
  assert (Hrun : forall c x,
    0 <= c ->
    PerformanceMonitor.currentQualityLevel
      (PerformanceMonitor.metrics (System.monitor x)) = c ->
    c - 2 <= PerformanceMonitor.targetQualityLevel
               (PerformanceMonitor.metrics (System.monitor x)) <= c + 1 ->
    PerformanceMonitor.currentQualityLevel
      (PerformanceMonitor.metrics (System.monitor (System.run sqrt ops x))) = c
    /\ c - 2 <= PerformanceMonitor.targetQualityLevel
                  (PerformanceMonitor.metrics
                     (System.monitor (System.run sqrt ops x))) <= c + 1).
  { intros c. induction Hops as [|op ops Hop Hops IH]; intros x Hc Hx Ht;
      [split; assumption|].
    change (System.run sqrt (op :: ops) x)
      with (System.run sqrt ops (stateOf (System.step sqrt op x))).
    destruct (step_quality_without_set sqrt op x Hop) as [Hc' Ht'].
    cbv beta zeta in Hc', Ht'.
    apply IH; [exact Hc|congruence|]. rewrite Hx in Ht'. lia. }
  apply Hrun; [exact Hcur|reflexivity|lia].
Qed.

Lemma target_stays_within_two_levels_witness :
  let w :=
    System.run Sample.approxSqrt
      [System.NewLodManager Sample.desktopProbe 1 Sample.plainRenderer
         LodManager.DEFAULT_LOD_LEVELS]
      (System.create Sample.noSettings) in
  let ops :=
    Sample.steadyLoop 125 0
    ++ [System.EndFrame (Sample.frameAt 2100);
        System.EndFrame (Sample.frameAt 4300);
        System.EndFrame (Sample.frameAt 6500)] in
  let w' := System.run Sample.approxSqrt ops w in
  PerformanceMonitor.currentQualityLevel
    (PerformanceMonitor.metrics (System.monitor w')) = 3
  /\ PerformanceMonitor.targetQualityLevel
       (PerformanceMonitor.metrics (System.monitor w')) = 1.
Proof.
  cbv zeta.
  destruct (target_stays_within_two_levels Sample.approxSqrt
    (Sample.steadyLoop 125 0
     ++ [System.EndFrame (Sample.frameAt 2100);
         System.EndFrame (Sample.frameAt 4300);
         System.EndFrame (Sample.frameAt 6500)])
    (System.run Sample.approxSqrt
      [System.NewLodManager Sample.desktopProbe 1 Sample.plainRenderer
         LodManager.DEFAULT_LOD_LEVELS]
      (System.create Sample.noSettings))) as [Hcur _].
  - vm_compute. repeat constructor.
  - vm_compute. discriminate.
  - reflexivity.
  - split; [rewrite Hcur; reflexivity | vm_compute; reflexivity].
Defined.

(** X13. With a LOD manager wired to the monitor's callback and holding a
    valid level index, an [endFrame] that adjusts does not throw, records
    one callback with the proposed level, and moves the LOD manager to that
    level clamped to its own table; the monitor stores the level as its
    target only, so its reported current level stays where it was while
    the LOD manager already runs at the new one. *)
Theorem lod_follows_automatic_adjustment (sqrt : Q -> Q)
    (e : PerformanceMonitor.FrameEnv) (w : System.World) (l : LodManager.t)
    (lvl : Z) :
  System.lodManager w = Some l ->
  LodManager.indexValid l ->
  snd (PerformanceMonitor.endFrame sqrt e (System.monitor w)) = Some lvl ->
  let r := System.step sqrt (System.EndFrame e) w in
  let m' := PerformanceMonitor.metrics (System.monitor (stateOf r)) in
  hasThrown r = false
  /\ System.qualityChanges (stateOf r) = System.qualityChanges w ++ [lvl]
  /\ (exists l', System.lodManager (stateOf r) = Some l'
                 /\ LodManager.currentLevel l' = LodManager.clampLevel l lvl
                 /\ LodManager.levels l' = LodManager.levels l)
  /\ PerformanceMonitor.targetQualityLevel m' = lvl
  /\ PerformanceMonitor.currentQualityLevel m'
     = PerformanceMonitor.currentQualityLevel
         (PerformanceMonitor.metrics (System.monitor w)).
Proof.
  intros Hl Hv Hfire. cbv zeta.
  assert (Hmon : System.monitor
                   (stateOf (System.step sqrt (System.EndFrame e) w))
                 = fst (PerformanceMonitor.endFrame sqrt e (System.monitor w)))
    by apply (step_monitor sqrt (System.EndFrame e) w).
  rewrite Hmon.
  cbn [System.step]. unfold System.notify. rewrite Hfire.
  unfold System.onQualityChange. cbn [System.withMonitor System.lodManager
    System.qualityChanges System.monitor]. rewrite Hl.
  pose proof (lod_setQualityLevel_returns lvl l Hv) as Hret.
  pose proof (lod_setQualityLevel_current lvl l) as Hcur.
  pose proof (lod_setQualityLevel_levels lvl l) as Hlev.
  destruct (LodManager.setQualityLevel lvl l) as [l'|l']; [|discriminate].
  cbn in Hcur, Hlev. cbn [System.liftLod hasThrown stateOf System.withLod
    System.lodManager System.qualityChanges].
  split; [reflexivity|]. split; [reflexivity|].
  split; [exists l'; split; [reflexivity|split; assumption]|].
  destruct (endFrame_cases sqrt e (System.monitor w))
    as [H|(lvl' & _ & _ & _ & H)]; rewrite H in Hfire |- *; [discriminate|].
  injection Hfire as ->. split; reflexivity.
Qed.

Lemma lod_follows_automatic_adjustment_witness :
  let w :=
    System.run Sample.approxSqrt
      (System.NewLodManager Sample.desktopProbe 1 Sample.plainRenderer
         LodManager.DEFAULT_LOD_LEVELS
       :: Sample.steadyLoop 125 0)
      (System.create Sample.noSettings) in
  let l := default (Sample.managerAt 3) (System.lodManager w) in
  let r :=
    System.step Sample.approxSqrt (System.EndFrame (Sample.frameAt 2100)) w in
  let m' := PerformanceMonitor.metrics (System.monitor (stateOf r)) in
  hasThrown r = false
  /\ System.qualityChanges (stateOf r) = System.qualityChanges w ++ [1]
  /\ (exists l', System.lodManager (stateOf r) = Some l'
                 /\ LodManager.currentLevel l' = LodManager.clampLevel l 1
                 /\ LodManager.levels l' = LodManager.levels l)
  /\ PerformanceMonitor.targetQualityLevel m' = 1
  /\ PerformanceMonitor.currentQualityLevel m'
     = PerformanceMonitor.currentQualityLevel
         (PerformanceMonitor.metrics (System.monitor w)).
Proof.
  apply (lod_follows_automatic_adjustment Sample.approxSqrt
           (Sample.frameAt 2100) _ _ 1).
  - vm_compute. reflexivity.
  - vm_compute. split; discriminate.
  - vm_compute. reflexivity.
Defined.

(** ** Object pool: the bookkeeping invariant *)

Section PoolLists.

Context {T : Type}.

Lemma pop_None (l : list T) : Pool.pop l = None -> l = [].
Proof.
  unfold Pool.pop. destruct (rev l) eqn:E; [|discriminate]. intros _.
  rewrite <- (rev_involutive l), E. reflexivity.
Qed.

Lemma pop_Some (l : list T) (x : T) (rest : list T) :
  Pool.pop l = Some (x, rest) -> l = rest ++ [x].
Proof.
  unfold Pool.pop. destruct (rev l) eqn:E; [discriminate|].
  intros [= <- <-]. rewrite <- (rev_involutive l), E. reflexivity.
Qed.

Lemma pop_push (l : list T) (x : T) : Pool.pop (l ++ [x]) = Some (x, l).
Proof.
  unfold Pool.pop. rewrite rev_app_distr. cbn. rewrite rev_involutive.
  reflexivity.
Qed.

Lemma popMany_spec (k : nat) :
  forall (l acc taken rest : list T),
  Pool.popMany k l acc = (taken, rest) ->
  exists t, taken = acc ++ t /\ l = rest ++ rev t
            /\ length t = Nat.min k (length l).
Proof.
  induction k as [|k IH]; intros l acc taken rest; cbn [Pool.popMany].
  - intros [= <- <-]. exists []. cbn. rewrite !app_nil_r. auto.
  - destruct (Pool.pop l) as [[x r]|] eqn:E.
    + intros Hk. apply pop_Some in E. subst l.
      destruct (IH _ _ _ _ Hk) as (t & -> & -> & Hlen).
      exists (x :: t). rewrite <- app_assoc. cbn [rev app].
      rewrite <- app_assoc. split; [reflexivity|]. split; [reflexivity|].
      cbn [length]. rewrite Hlen, !length_app. cbn [length]. lia.
    + intros [= <- <-]. apply pop_None in E. subst l.
      exists []. cbn. rewrite app_nil_r. auto.
Qed.

Lemma elem_of_rev_list (x : T) (l : list T) : x ∈ rev l <-> x ∈ l.
Proof. rewrite !list_elem_of_In. symmetry. apply in_rev. Qed.

Lemma popMany_all (t : list T) :
  forall (l acc : list T),
  Pool.popMany (length t) (l ++ t) acc = (acc ++ rev t, l).
Proof.
  induction t as [|x t IH] using rev_ind; intros l acc.
  - cbn. rewrite !app_nil_r. reflexivity.
  - rewrite length_app, Nat.add_1_r, app_assoc. cbn [Pool.popMany].
    rewrite pop_push, IH, rev_app_distr, <- app_assoc. reflexivity.
Qed.

End PoolLists.

Section PoolFields.

Context {T : Type} {eqT : EqDecision T} {countT : Countable T}.
Variable createFn : nat -> T.

Lemma trim_maxSize (n : Z) (p : Pool.t T) :
  Pool.maxSize (Pool.trim n p) = Pool.maxSize p.
Proof. unfold Pool.trim. destruct (_ <=? _); reflexivity. Qed.

Lemma prewarm_maxSize (dt : Q) (n : Z) (p : Pool.t T) :
  Pool.maxSize (Pool.prewarm createFn dt n p) = Pool.maxSize p.
Proof. unfold Pool.prewarm. destruct (_ <=? _); reflexivity. Qed.

Lemma checkAdaptiveSize_maxSize (dt : Q) (p : Pool.t T) :
  Pool.maxSize (Pool.checkAdaptiveSize createFn dt p) = Pool.maxSize p.
Proof.
  unfold Pool.checkAdaptiveSize.
  destruct (_ <? _)%nat; [reflexivity|].
  destruct (Num.Qltb _ _); [apply trim_maxSize|].
  destruct (_ && _); [apply prewarm_maxSize|reflexivity].
Qed.

Lemma releaseOne_maxSize (obj : T) (p : Pool.t T) :
  Pool.maxSize (Pool.releaseOne obj p) = Pool.maxSize p.
Proof. unfold Pool.releaseOne. destruct (negb _); reflexivity. Qed.

Lemma releaseLoop_maxSize (objects : list T) :
  forall p : Pool.t T,
  Pool.maxSize (fold_left (fun q obj => Pool.releaseOne obj q) objects p)
  = Pool.maxSize p.
Proof.
  induction objects as [|obj objects IH]; intros p; [reflexivity|].
  cbn [fold_left]. rewrite IH. apply releaseOne_maxSize.
Qed.

Lemma step_maxSize (op : Pool.Op T) (p : Pool.t T) :
  Pool.maxSize (Pool.step createFn op p) = Pool.maxSize p.
Proof.
  destruct op; cbn [Pool.step].
  - unfold Pool.get. destruct (Pool.pop _) as [[? ?]|]; reflexivity.
  - unfold Pool.release. destruct (negb _); [reflexivity|].
    destruct (_ && _); [reflexivity|].
    rewrite checkAdaptiveSize_maxSize. reflexivity.
  - unfold Pool.getBatch. destruct (Pool.popMany _ _ _); reflexivity.
  - unfold Pool.releaseBatch. destruct objects as [|o objects]; [reflexivity|].
    destruct (Num.Qltb _ _); cbn [Pool.maxSize].
    + rewrite checkAdaptiveSize_maxSize. cbn [Pool.maxSize].
      apply releaseLoop_maxSize.
    + apply releaseLoop_maxSize.
  - apply prewarm_maxSize.
  - apply trim_maxSize.
  - unfold Pool.handleMemoryPressure. destruct (_ <? _); reflexivity.
  - reflexivity.
  - unfold Pool.runTimer. destruct (Pool.timers p) as [|[a b] rest];
      reflexivity.
Qed.

Lemma run_maxSize (ops : list (Pool.Op T)) :
  forall p : Pool.t T,
  Pool.maxSize (Pool.run createFn ops p) = Pool.maxSize p.
Proof.
  induction ops as [|op ops IH]; intros p; [reflexivity|].
  unfold Pool.run in *. cbn [fold_left]. rewrite IH. apply step_maxSize.
Qed.

Lemma create_maxSize (dt : Q) (initialSize maxSz minSz sz : Z) :
  Pool.maxSize (Pool.create createFn dt initialSize maxSz minSz sz) = maxSz.
Proof.
  unfold Pool.create. destruct (0 <? initialSize); [|reflexivity].
  rewrite prewarm_maxSize. reflexivity.
Qed.

(** Releasing distinct objects that are all in use, on a pool without
    size cap. *)
Lemma releaseLoop_returns (objects : list T) :
  forall p : Pool.t T,
  NoDup objects ->
  (forall x, x ∈ objects -> x ∈ Pool.inUse p) ->
  Pool.maxSize p <= 0 ->
  let q := fold_left (fun q obj => Pool.releaseOne obj q) objects p in
  Pool.pool q = Pool.pool p ++ objects
  /\ Pool.inUse q = Pool.inUse p ∖ list_to_set objects
  /\ Pool.warnings q = Pool.warnings p
  /\ Pool.creationCount q = Pool.creationCount p
  /\ Pool.poolHits q = Pool.poolHits p
  /\ Pool.poolMisses q = Pool.poolMisses p
  /\ Pool.lastAdaptiveCheck q = Pool.lastAdaptiveCheck p.
Proof.
  induction objects as [|x objects IH]; intros p Hnd Hin Hcap; cbv zeta.
  - cbn. rewrite app_nil_r. repeat split. set_solver.
  - cbn [fold_left]. apply NoDup_cons in Hnd as [Hx Hnd].
    assert (Hone : Pool.releaseOne x p
                   = {| Pool.pool := Pool.pool p ++ [x];
                        Pool.inUse := Pool.inUse p ∖ {[x]};
                        Pool.maxSize := Pool.maxSize p;
                        Pool.minSize := Pool.minSize p;
                        Pool.objectSize := Pool.objectSize p;
                        Pool.creationTime := Pool.creationTime p;
                        Pool.resetTime := Pool.resetTime p;
                        Pool.creationCount := Pool.creationCount p;
                        Pool.usageHistory := Pool.usageHistory p;
                        Pool.poolHits := Pool.poolHits p;
                        Pool.poolMisses := Pool.poolMisses p;
                        Pool.maxUsageCount := Pool.maxUsageCount p;
                        Pool.lastAdaptiveCheck := Pool.lastAdaptiveCheck p;
                        Pool.resets := Pool.resets p ++ [x];
                        Pool.timers := Pool.timers p;
                        Pool.warnings := Pool.warnings p |}).
    { unfold Pool.releaseOne.
      rewrite bool_decide_eq_true_2 by (apply Hin; left). cbn [negb].
      replace (0 <? Pool.maxSize p) with false by (symmetry; lia).
      reflexivity. }
    destruct (IH (Pool.releaseOne x p) Hnd) as (H1 & H2 & H3 & H4 & H5 & H6 & H7).
    + intros y Hy. rewrite Hone. cbn [Pool.inUse].
      apply elem_of_difference. split; [apply Hin; right; exact Hy|].
      intros Hs. apply elem_of_singleton in Hs as ->. exact (Hx Hy).
    + rewrite Hone. exact Hcap.
    + rewrite H1, H2, H3, H4, H5, H6, H7, Hone.
      cbn [Pool.pool Pool.inUse Pool.warnings Pool.creationCount
           Pool.poolHits Pool.poolMisses Pool.lastAdaptiveCheck].
      rewrite <- app_assoc. repeat split. set_solver.
Qed.

(** [getBatch] on a free list that ends with the objects asked for. *)
Lemma getBatch_all_hits (dt : Q) (count : Z) (p : Pool.t T)
    (rest objects : list T) :
  0 <= count ->
  Pool.pool p = rest ++ objects ->
  length objects = Z.to_nat count ->
  let got := Pool.getBatch createFn dt count p in
  fst got = rev objects
  /\ Pool.pool (snd got) = rest
  /\ Pool.creationCount (snd got) = Pool.creationCount p
  /\ Pool.poolMisses (snd got) = Pool.poolMisses p
  /\ Pool.poolHits (snd got) = (Pool.poolHits p + Z.to_nat count)%nat.
Proof.
  intros Hcount Hpool Hlen. cbv zeta. unfold Pool.getBatch.
  assert (Hmin : Z.min count (Z.of_nat (length (Pool.pool p))) = count)
    by (rewrite Hpool, length_app; lia).
  rewrite Hmin, Hpool, <- Hlen, popMany_all, Z.sub_diag. cbn.
  rewrite app_nil_r, !Nat.add_0_r. repeat split.
Qed.

End PoolFields.

Section PoolInvariant.

Context {T : Type} {eqT : EqDecision T} {countT : Countable T}.
Variable createFn : nat -> T.

(** The factory returns a new object at every call. *)
Hypothesis createFn_fresh : forall i j, createFn i = createFn j -> i = j.

Lemma elem_of_created (x : T) (c n : nat) :
  x ∈ map createFn (seq c n) <-> exists k, (c <= k < c + n)%nat /\ x = createFn k.
Proof.
  change (map createFn (seq c n)) with (createFn <$> seq c n).
  rewrite list_elem_of_fmap. split; intros (k & H1 & H2).
  - exists k. apply elem_of_seq in H2. auto.
  - exists k. split; [exact H2|]. apply elem_of_seq. exact H1.
Qed.

Lemma NoDup_created (c n : nat) : NoDup (map createFn (seq c n)).
Proof.
  change (map createFn (seq c n)) with (createFn <$> seq c n).
  apply NoDup_fmap_2_strong; [|apply NoDup_seq].
  intros i j _ _. apply createFn_fresh.
Qed.

(** How each primitive change of the free list and the in-use set keeps
    the invariant. *)

Lemma consistent_same (p q : Pool.t T) :
  Pool.consistent createFn p ->
  Pool.pool q = Pool.pool p -> Pool.inUse q = Pool.inUse p ->
  Pool.creationCount q = Pool.creationCount p ->
  Pool.consistent createFn q.
Proof. unfold Pool.consistent. intros Hp -> -> ->. exact Hp. Qed.

Lemma consistent_created (n : nat) (p q : Pool.t T) :
  Pool.consistent createFn p ->
  Pool.pool q = Pool.pool p ++ map createFn (seq (Pool.creationCount p) n) ->
  Pool.inUse q = Pool.inUse p ->
  Pool.creationCount q = (Pool.creationCount p + n)%nat ->
  Pool.consistent createFn q.
Proof.
  unfold Pool.consistent. intros (Hnd & Hdis & Hfrom) -> -> ->.
  split; [|split].
  - apply NoDup_app. split; [exact Hnd|]. split; [|apply NoDup_created].
    intros x Hx Hc. apply elem_of_created in Hc as (k & Hk & ->).
    destruct (Hfrom _ (or_introl Hx)) as (j & Hj & E).
    apply createFn_fresh in E. lia.
  - intros x Hx Hu. apply elem_of_app in Hx as [Hx|Hx].
    + exact (Hdis x Hx Hu).
    + apply elem_of_created in Hx as (k & Hk & ->).
      destruct (Hfrom _ (or_intror Hu)) as (j & Hj & E).
      apply createFn_fresh in E. lia.
  - intros x [Hx|Hx].
    + apply elem_of_app in Hx as [Hx|Hx].
      * destruct (Hfrom _ (or_introl Hx)) as (j & Hj & E).
        exists j. split; [lia|exact E].
      * apply elem_of_created in Hx as (k & Hk & ->).
        exists k. split; [lia|reflexivity].
    + destruct (Hfrom _ (or_intror Hx)) as (j & Hj & E).
      exists j. split; [lia|exact E].
Qed.

Lemma consistent_dropped (k : nat) (p q : Pool.t T) :
  Pool.consistent createFn p ->
  Pool.pool q = drop k (Pool.pool p) ->
  Pool.inUse q ⊆ Pool.inUse p ->
  Pool.creationCount q = Pool.creationCount p ->
  Pool.consistent createFn q.
Proof.
  unfold Pool.consistent. intros (Hnd & Hdis & Hfrom) -> Hsub ->.
  assert (Hin : forall x, x ∈ drop k (Pool.pool p) -> x ∈ Pool.pool p).
  { intros x. apply (sublist_subseteq _ _ (sublist_drop _ _)). }
  split; [|split].
  - eapply sublist_NoDup; [exact Hnd|apply sublist_drop].
  - intros x Hx Hu. apply (Hdis x (Hin x Hx)). set_solver.
  - intros x [Hx|Hx]; apply Hfrom; [left; auto|right; set_solver].
Qed.

Lemma consistent_taken (t : list T) (p q : Pool.t T) :
  Pool.consistent createFn p ->
  Pool.pool p = Pool.pool q ++ t ->
  (forall x, x ∈ Pool.inUse q <-> x ∈ t \/ x ∈ Pool.inUse p) ->
  Pool.creationCount q = Pool.creationCount p ->
  Pool.consistent createFn q.
Proof.
  unfold Pool.consistent. intros (Hnd & Hdis & Hfrom) Hpool Hu ->.
  rewrite Hpool in Hnd, Hdis, Hfrom.
  apply NoDup_app in Hnd as (Hnd & Hsep & _).
  split; [exact Hnd|]. split.
  - intros x Hx Hq. apply Hu in Hq as [Hq|Hq].
    + exact (Hsep x Hx Hq).
    + apply (Hdis x); [apply elem_of_app; left; exact Hx|exact Hq].
  - intros x [Hx|Hx]; apply Hfrom.
    + left. apply elem_of_app. left. exact Hx.
    + apply Hu in Hx as [Hx|Hx]; [left; apply elem_of_app; right|right];
        exact Hx.
Qed.

Lemma consistent_returned (obj : T) (p q : Pool.t T) :
  Pool.consistent createFn p ->
  obj ∈ Pool.inUse p ->
  Pool.pool q = Pool.pool p ++ [obj] ->
  Pool.inUse q = Pool.inUse p ∖ {[obj]} ->
  Pool.creationCount q = Pool.creationCount p ->
  Pool.consistent createFn q.
Proof.
  unfold Pool.consistent. intros (Hnd & Hdis & Hfrom) Hobj -> -> ->.
  split; [|split].
  - apply NoDup_app. split; [exact Hnd|]. split; [|apply NoDup_singleton].
    intros x Hx Hs. apply list_elem_of_singleton in Hs as ->.
    exact (Hdis obj Hx Hobj).
  - intros x Hx Hu. apply elem_of_app in Hx as [Hx|Hx].
    + apply (Hdis x Hx). set_solver.
    + apply list_elem_of_singleton in Hx. set_solver.
  - intros x [Hx|Hx]; apply Hfrom.
    + apply elem_of_app in Hx as [Hx|Hx]; [left; exact Hx|].
      apply list_elem_of_singleton in Hx as ->. right. exact Hobj.
    + right. set_solver.
Qed.

Lemma createBatch_consistent (dt : Q) (a b : nat) (p : Pool.t T) :
  Pool.consistent createFn p ->
  Pool.consistent createFn (Pool.createBatch createFn dt a b p).
Proof.
  intros Hp. eapply consistent_created; [exact Hp|reflexivity..].
Qed.

Lemma prewarm_consistent (dt : Q) (n : Z) (p : Pool.t T) :
  Pool.consistent createFn p ->
  Pool.consistent createFn (Pool.prewarm createFn dt n p).
Proof.
  intros Hp. unfold Pool.prewarm.
  destruct (_ <=? _); [exact Hp|apply createBatch_consistent, Hp].
Qed.

Lemma runTimer_consistent (dt : Q) (p : Pool.t T) :
  Pool.consistent createFn p ->
  Pool.consistent createFn (Pool.runTimer createFn dt p).
Proof.
  intros Hp. unfold Pool.runTimer.
  destruct (Pool.timers p) as [|[a b] rest]; [exact Hp|].
  apply createBatch_consistent.
  eapply consistent_same; [exact Hp|reflexivity..].
Qed.

Lemma trim_consistent (n : Z) (p : Pool.t T) :
  Pool.consistent createFn p -> Pool.consistent createFn (Pool.trim n p).
Proof.
  intros Hp. unfold Pool.trim. destruct (_ <=? _); [exact Hp|].
  eapply consistent_dropped; [exact Hp|reflexivity|reflexivity|reflexivity].
Qed.

Lemma handleMemoryPressure_consistent (p : Pool.t T) :
  Pool.consistent createFn p ->
  Pool.consistent createFn (Pool.handleMemoryPressure p).
Proof.
  intros Hp. unfold Pool.handleMemoryPressure. destruct (_ <? _); [|exact Hp].
  eapply consistent_dropped; [exact Hp|reflexivity|reflexivity|reflexivity].
Qed.

Lemma checkAdaptiveSize_consistent (dt : Q) (p : Pool.t T) :
  Pool.consistent createFn p ->
  Pool.consistent createFn (Pool.checkAdaptiveSize createFn dt p).
Proof.
  intros Hp. unfold Pool.checkAdaptiveSize.
  destruct (_ <? _)%nat; [exact Hp|].
  destruct (Num.Qltb _ _); [apply trim_consistent, Hp|].
  destruct (_ && _); [apply prewarm_consistent, Hp|exact Hp].
Qed.

Lemma get_consistent (dt : Q) (p : Pool.t T) :
  Pool.consistent createFn p ->
  Pool.consistent createFn (snd (Pool.get createFn dt p)).
Proof.
  intros Hp. unfold Pool.get.
  destruct (Pool.pop (Pool.pool p)) as [[obj rest]|] eqn:E; cbn [snd].
  - apply pop_Some in E.
    eapply (consistent_taken [obj]); [exact Hp|exact E| |reflexivity].
    intros x. cbn. set_solver.
  - apply pop_None in E.
    eapply (consistent_taken (map createFn (seq (Pool.creationCount p) 1))).
    + eapply (consistent_created 1 p
                (Pool.createBatch createFn 0 0 1 p)); [exact Hp|reflexivity..].
    + cbn. rewrite E. reflexivity.
    + intros x. cbn. set_solver.
    + cbn. lia.
Qed.

Lemma release_consistent (dtReset dtCreate : Q) (obj : T) (p : Pool.t T) :
  Pool.consistent createFn p ->
  Pool.consistent createFn (Pool.release createFn dtReset dtCreate obj p).
Proof.
  intros Hp. unfold Pool.release. case_bool_decide as Hin; cbn [negb].
  - destruct (_ && _).
    + eapply (consistent_dropped 0); [exact Hp|reflexivity| |reflexivity].
      cbn. set_solver.
    + apply checkAdaptiveSize_consistent.
      eapply consistent_returned; [exact Hp|exact Hin|reflexivity..].
  - eapply consistent_same; [exact Hp|reflexivity..].
Qed.

Lemma releaseOne_consistent (obj : T) (p : Pool.t T) :
  Pool.consistent createFn p ->
  Pool.consistent createFn (Pool.releaseOne obj p).
Proof.
  intros Hp. unfold Pool.releaseOne. case_bool_decide as Hin; cbn [negb].
  - destruct (_ && _).
    + eapply (consistent_dropped 0); [exact Hp| | |reflexivity].
      * reflexivity.
      * cbn. set_solver.
    + eapply consistent_returned; [exact Hp|exact Hin| |reflexivity..].
      reflexivity.
  - eapply consistent_same; [exact Hp|reflexivity..].
Qed.

Lemma releaseLoop_consistent (objects : list T) :
  forall p : Pool.t T,
  Pool.consistent createFn p ->
  Pool.consistent createFn
    (fold_left (fun q obj => Pool.releaseOne obj q) objects p).
Proof.
  induction objects as [|obj objects IH]; intros p Hp; [exact Hp|].
  cbn [fold_left]. apply IH, releaseOne_consistent, Hp.
Qed.

Lemma releaseBatch_consistent (dtReset tnow dtCreate : Q) (objects : list T)
    (p : Pool.t T) :
  Pool.consistent createFn p ->
  Pool.consistent createFn
    (Pool.releaseBatch createFn dtReset tnow dtCreate objects p).
Proof.
  intros Hp. unfold Pool.releaseBatch.
  destruct objects as [|o objects]; [exact Hp|].
  pose proof (releaseLoop_consistent (o :: objects) p Hp) as Hloop.
  set (p1 := fold_left _ _ _) in *.
  destruct (Num.Qltb _ _).
  - eapply consistent_same;
      [apply (checkAdaptiveSize_consistent dtCreate)|reflexivity..].
    eapply consistent_same; [exact Hloop|reflexivity..].
  - eapply consistent_same; [exact Hloop|reflexivity..].
Qed.

Lemma getBatch_consistent (dt : Q) (count : Z) (p : Pool.t T) :
  Pool.consistent createFn p ->
  Pool.consistent createFn (snd (Pool.getBatch createFn dt count p)).
Proof.
  intros Hp. unfold Pool.getBatch.
  destruct (Pool.popMany _ _ _) as [taken rest] eqn:E. cbn [snd].
  apply popMany_spec in E as (t & -> & Hpool & _). cbn [app].
  set (n := Z.to_nat _).
  eapply (consistent_taken (rev t ++ map createFn (seq (Pool.creationCount p) n))).
  - eapply (consistent_created n p
              (Pool.withPool
                 (Pool.pool p ++ map createFn (seq (Pool.creationCount p) n))
                 {| Pool.pool := []; Pool.inUse := Pool.inUse p;
                    Pool.maxSize := 0; Pool.minSize := 0;
                    Pool.objectSize := 0; Pool.creationTime := 0;
                    Pool.resetTime := 0;
                    Pool.creationCount := (Pool.creationCount p + n)%nat;
                    Pool.usageHistory := []; Pool.poolHits := 0;
                    Pool.poolMisses := 0; Pool.maxUsageCount := 0;
                    Pool.lastAdaptiveCheck := 0; Pool.resets := [];
                    Pool.timers := []; Pool.warnings := 0 |}));
      [exact Hp|reflexivity..].
  - cbn. rewrite Hpool at 1. rewrite <- app_assoc. reflexivity.
  - intros x. cbn. rewrite elem_of_union, elem_of_list_to_set, !elem_of_app,
      elem_of_rev_list. tauto.
  - reflexivity.
Qed.

Lemma clear_consistent (p : Pool.t T) :
  Pool.consistent createFn p -> Pool.consistent createFn (Pool.clear p).
Proof.
  intros (_ & _ & _). unfold Pool.consistent. cbn.
  split; [apply NoDup_nil_2|]. split; intros x; set_solver.
Qed.

Lemma step_consistent (op : Pool.Op T) (p : Pool.t T) :
  Pool.consistent createFn p ->
  Pool.consistent createFn (Pool.step createFn op p).
Proof.
  intros Hp. destruct op; cbn [Pool.step].
  - apply get_consistent, Hp.
  - apply release_consistent, Hp.
  - apply getBatch_consistent, Hp.
  - apply releaseBatch_consistent, Hp.
  - apply prewarm_consistent, Hp.
  - apply trim_consistent, Hp.
  - apply handleMemoryPressure_consistent, Hp.
  - apply clear_consistent, Hp.
  - apply runTimer_consistent, Hp.
Qed.

Lemma create_consistent (dt : Q) (initialSize maxSz minSz sz : Z) :
  Pool.consistent createFn (Pool.create createFn dt initialSize maxSz minSz sz).
Proof.
  unfold Pool.create. destruct (0 <? initialSize).
  - apply prewarm_consistent. unfold Pool.consistent. cbn.
    split; [apply NoDup_nil_2|]. split; intros x; set_solver.
  - unfold Pool.consistent. cbn.
    split; [apply NoDup_nil_2|]. split; intros x; set_solver.
Qed.

Lemma run_consistent (ops : list (Pool.Op T)) :
  forall p : Pool.t T,
  Pool.consistent createFn p ->
  Pool.consistent createFn (Pool.run createFn ops p).
Proof.
  induction ops as [|op ops IH]; intros p Hp; [exact Hp|].
  apply IH, step_consistent, Hp.
Qed.

(** What [getBatch] does to a consistent pool. *)
Lemma getBatch_shape (dt : Q) (count : Z) (p : Pool.t T) :
  Pool.consistent createFn p ->
  0 <= count ->
  let got := Pool.getBatch createFn dt count p in
  let k := Nat.min (Z.to_nat count) (length (Pool.pool p)) in
  length (fst got) = Z.to_nat count
  /\ NoDup (fst got)
  /\ (forall x, x ∈ fst got -> x ∉ Pool.inUse p)
  /\ length (Pool.pool p) = (length (Pool.pool (snd got)) + k)%nat
  /\ Pool.inUse (snd got) = list_to_set (fst got) ∪ Pool.inUse p
  /\ Pool.poolHits (snd got) = (Pool.poolHits p + k)%nat
  /\ Pool.poolMisses (snd got) = (Pool.poolMisses p + (Z.to_nat count - k))%nat
  /\ Pool.creationCount (snd got)
     = (Pool.creationCount p + (Z.to_nat count - k))%nat
  /\ Pool.maxSize (snd got) = Pool.maxSize p
  /\ Pool.lastAdaptiveCheck (snd got) = Pool.lastAdaptiveCheck p
  /\ Pool.warnings (snd got) = Pool.warnings p.
Proof.
  intros (Hnd & Hdis & Hfrom) Hcount. cbv zeta.
  unfold Pool.getBatch.
  destruct (Pool.popMany _ _ _) as [taken rest] eqn:E. cbn [fst snd].
  apply popMany_spec in E as (t & -> & Hpool & Hlen). cbn [app].
  cbn [Pool.pool Pool.inUse Pool.poolHits Pool.poolMisses Pool.creationCount
       Pool.maxSize Pool.lastAdaptiveCheck Pool.warnings].
  set (fromPool := Z.min count (Z.of_nat (length (Pool.pool p)))) in *.
  assert (Hfp : Z.to_nat fromPool
                = Nat.min (Z.to_nat count) (length (Pool.pool p)))
    by (unfold fromPool; lia).
  assert (Hn : Z.to_nat (count - fromPool)
               = (Z.to_nat count - Z.to_nat fromPool)%nat) by lia.
  rewrite Hn. rewrite Hfp in *.
  set (k := Nat.min (Z.to_nat count) (length (Pool.pool p))) in *.
  assert (Hk : length t = k) by lia.
  set (created := map createFn _).
  assert (Hclen : length created = (Z.to_nat count - k)%nat)
    by (unfold created; rewrite length_map, length_seq; reflexivity).
  assert (Ht : forall x, x ∈ t -> x ∈ Pool.pool p).
  { intros x Hx. rewrite Hpool. apply elem_of_app. right.
    apply elem_of_rev_list, Hx. }
  assert (Hobjs : NoDup (t ++ created)).
  { apply NoDup_app. split; [|split].
    - rewrite Hpool in Hnd. apply NoDup_app in Hnd as (_ & _ & Hr).
      apply NoDup_ListNoDup. apply NoDup_ListNoDup in Hr.
      rewrite <- (rev_involutive t). apply NoDup_rev, Hr.
    - intros x Hx Hc. apply elem_of_created in Hc as (j & Hj & ->).
      destruct (Hfrom _ (or_introl (Ht _ Hx))) as (i & Hi & Ei).
      apply createFn_fresh in Ei. lia.
    - apply NoDup_created. }
  assert (Hfree : forall x, x ∈ t ++ created -> x ∉ Pool.inUse p).
  { intros x Hx. apply elem_of_app in Hx as [Hx|Hx].
    - apply Hdis, Ht, Hx.
    - apply elem_of_created in Hx as (j & Hj & ->). intros Hin.
      destruct (Hfrom _ (or_intror Hin)) as (i & Hi & Ei).
      apply createFn_fresh in Ei. lia. }
  split; [rewrite length_app; lia|]. split; [exact Hobjs|].
  split; [exact Hfree|]. split.
  { apply (f_equal length) in Hpool.
    rewrite length_app, length_rev in Hpool. lia. }
  repeat split.
Qed.

End PoolInvariant.

(** ** Object pool: what callers can rely on *)

Section PoolGuarantees.

Context {T : Type} {eqT : EqDecision T} {countT : Countable T}.
Variable createFn : nat -> T.
Hypothesis createFn_fresh : forall i j, createFn i = createFn j -> i = j.

(** X14. With a factory that returns a new object at every call, after any
    sequence of pool calls from construction [get()] hands out an object
    that nobody holds: it was not in the in-use set, it is not left in the
    free list, and the in-use count grows by exactly one. *)
Theorem get_hands_out_unused_object (dt0 : Q)
    (initialSize maxSz minSz sz : Z) (ops : list (Pool.Op T)) (dt : Q) :
  let p :=
    Pool.run createFn ops
      (Pool.create createFn dt0 initialSize maxSz minSz sz) in
  let got := Pool.get createFn dt p in
  (fst got ∉ Pool.inUse p)
  /\ (fst got ∉ Pool.pool (snd got))
  /\ Pool.inUseCount (snd got) = S (Pool.inUseCount p).
Proof.
  cbv zeta. set (p := Pool.run _ _ _).
  assert (Hp : Pool.consistent createFn p)
    by apply (run_consistent createFn createFn_fresh),
             (create_consistent createFn createFn_fresh).
  destruct Hp as (Hnd & Hdis & Hfrom).
  assert (Hcount : forall x, x ∉ Pool.inUse p ->
            size ({[x]} ∪ Pool.inUse p) = S (size (Pool.inUse p))).
  { intros x Hx. rewrite size_union by set_solver.
    rewrite size_singleton. reflexivity. }
  unfold Pool.get, Pool.inUseCount.
  destruct (Pool.pop (Pool.pool p)) as [[obj rest]|] eqn:E; cbn.
  - apply pop_Some in E. rewrite E in Hnd, Hdis.
    apply NoDup_app in Hnd as (_ & Hsep & _).
    assert (Hobj : obj ∉ Pool.inUse p)
      by (apply Hdis, elem_of_app; right; apply list_elem_of_singleton;
          reflexivity).
    split; [exact Hobj|]. split; [|apply Hcount, Hobj].
    intros Hin. apply (Hsep obj Hin). apply list_elem_of_singleton.
    reflexivity.
  - apply pop_None in E.
    assert (Hobj : createFn (Pool.creationCount p) ∉ Pool.inUse p).
    { intros Hin. destruct (Hfrom _ (or_intror Hin)) as (k & Hk & Ek).
      apply createFn_fresh in Ek. lia. }
    split; [exact Hobj|]. split; [|apply Hcount, Hobj].
    rewrite E. apply not_elem_of_nil.
Qed.

(** X15. Under the same assumption, [getBatch(count)] with [count >= 0]
    returns exactly [count] pairwise distinct objects, none of which was in
    use; it takes [min(count, available())] of them from the free list,
    counted as hits, creates the rest, counted as misses, and the in-use
    count grows by [count]. *)
Theorem getBatch_accounting (dt0 : Q)
    (initialSize maxSz minSz sz : Z) (ops : list (Pool.Op T)) (dt : Q)
    (count : Z) :
  0 <= count ->
  let p :=
    Pool.run createFn ops
      (Pool.create createFn dt0 initialSize maxSz minSz sz) in
  let got := Pool.getBatch createFn dt count p in
  let fromPool := Nat.min (Z.to_nat count) (Pool.available p) in
  length (fst got) = Z.to_nat count
  /\ NoDup (fst got)
  /\ (forall x, x ∈ fst got -> x ∉ Pool.inUse p)
  /\ Pool.inUseCount (snd got) = (Pool.inUseCount p + Z.to_nat count)%nat
  /\ Pool.available (snd got) = (Pool.available p - fromPool)%nat
  /\ Pool.poolHits (snd got) = (Pool.poolHits p + fromPool)%nat
  /\ Pool.poolMisses (snd got)
     = (Pool.poolMisses p + (Z.to_nat count - fromPool))%nat
  /\ Pool.creationCount (snd got)
     = (Pool.creationCount p + (Z.to_nat count - fromPool))%nat.
Proof.
  intros Hcount. cbv zeta. set (p := Pool.run _ _ _).
  assert (Hp : Pool.consistent createFn p)
    by apply (run_consistent createFn createFn_fresh),
             (create_consistent createFn createFn_fresh).
  destruct (getBatch_shape createFn createFn_fresh dt count p Hp Hcount)
    as (Hlen & Hnd & Hfree & Hpool & Hin & Hhits & Hmiss & Hcc & _).
  unfold Pool.inUseCount, Pool.available.
  split; [exact Hlen|]. split; [exact Hnd|]. split; [exact Hfree|].
  split.
  { rewrite Hin, size_union.
    - rewrite size_list_to_set by exact Hnd. lia.
    - intros x Hx. apply elem_of_list_to_set in Hx. exact (Hfree x Hx). }
  split; [lia|]. split; [exact Hhits|]. split; [exact Hmiss|exact Hcc].
Qed.

(** X16. A batch that is released and requested again is served from the
    free list.  On a pool without size cap, when the release skips the
    adaptive check (less than 5 s since the last one), [releaseBatch] of
    what [getBatch(count)] returned restores the in-use set and warns of
    nothing, and the next [getBatch(count)] returns the same objects in
    reverse order, all of them hits: no object is created. *)
Theorem batch_round_trip (dt0 : Q)
    (initialSize minSz sz : Z) (ops : list (Pool.Op T))
    (dt dtReset tnow dtCreate dt' : Q) (count : Z) :
  0 < count ->
  let p :=
    Pool.run createFn ops (Pool.create createFn dt0 initialSize 0 minSz sz) in
  Num.Qltb 5000 (tnow - Pool.lastAdaptiveCheck p) = false ->
  let got := Pool.getBatch createFn dt count p in
  let p2 :=
    Pool.releaseBatch createFn dtReset tnow dtCreate (fst got) (snd got) in
  let again := Pool.getBatch createFn dt' count p2 in
  Pool.inUse p2 = Pool.inUse p
  /\ Pool.warnings p2 = Pool.warnings p
  /\ fst again = rev (fst got)
  /\ Pool.creationCount (snd again) = Pool.creationCount (snd got)
  /\ Pool.poolMisses (snd again) = Pool.poolMisses (snd got)
  /\ Pool.poolHits (snd again)
     = (Pool.poolHits (snd got) + Z.to_nat count)%nat.
Proof.
  intros Hcount. cbv zeta. set (p := Pool.run _ _ _). intros Hquiet.
  assert (Hp : Pool.consistent createFn p)
    by apply (run_consistent createFn createFn_fresh),
             (create_consistent createFn createFn_fresh).
  assert (Hcap : Pool.maxSize p = 0).
  { unfold p. rewrite run_maxSize. apply create_maxSize. }
  destruct (getBatch_shape createFn createFn_fresh dt count p Hp
              (Z.lt_le_incl _ _ Hcount))
    as (Hlen & Hnd & Hfree & _ & Hin & _ & _ & _ & Hmax & Hlast & Hwarn).
  set (got := Pool.getBatch createFn dt count p) in *.
  destruct (releaseLoop_returns (fst got) (snd got) Hnd)
    as (H1 & H2 & H3 & H4 & H5 & H6 & H7).
  { intros x Hx. rewrite Hin. apply elem_of_union. left.
    apply elem_of_list_to_set. exact Hx. }
  { rewrite Hmax, Hcap. lia. }
  set (p1 := fold_left _ (fst got) (snd got)) in *.
  assert (Hbatch : exists p2,
            Pool.releaseBatch createFn dtReset tnow dtCreate (fst got)
              (snd got) = p2
            /\ Pool.pool p2 = Pool.pool p1
            /\ Pool.inUse p2 = Pool.inUse p1
            /\ Pool.warnings p2 = Pool.warnings p1
            /\ Pool.creationCount p2 = Pool.creationCount p1
            /\ Pool.poolHits p2 = Pool.poolHits p1
            /\ Pool.poolMisses p2 = Pool.poolMisses p1).
  { unfold Pool.releaseBatch. fold p1.
    destruct (fst got) as [|o os] eqn:Eobjs; [cbn in Hlen; lia|].
    cbn [Pool.lastAdaptiveCheck]. rewrite H7, Hlast, Hquiet.
    eexists. split; [reflexivity|]. repeat split. }
  destruct Hbatch as (p2 & -> & Hb1 & Hb2 & Hb3 & Hb4 & Hb5 & Hb6).
  destruct (getBatch_all_hits createFn dt' count p2 (Pool.pool (snd got))
              (fst got) (Z.lt_le_incl _ _ Hcount))
    as (Ha1 & _ & Ha3 & Ha4 & Ha5); [congruence|exact Hlen|].
  split.
  { rewrite Hb2, H2, Hin. apply set_eq. intros x.
    rewrite elem_of_difference, elem_of_union, !elem_of_list_to_set.
    split; [intros [[?|?] ?]; tauto|].
    intros Hx. split; [right; exact Hx|]. intros Hg. exact (Hfree x Hg Hx). }
  split; [congruence|]. split; [exact Ha1|].
  split; [congruence|]. split; congruence.
Qed.

End PoolGuarantees.

Section PoolTrimming.

Context {T : Type} {eqT : EqDecision T} {countT : Countable T}.
Variable createFn : nat -> T.

Lemma max_of_zeros (l : list nat) :
  Forall (eq 0%nat) l -> foldr Nat.max 0%nat l = 0%nat.
Proof. induction 1 as [|x l <- _ IH]; [reflexivity|exact IH]. Qed.

Lemma drop_beyond (a b : nat) (l : list T) :
  a = b \/ (length l <= a /\ length l <= b)%nat -> drop a l = drop b l.
Proof.
  intros [->|[Ha Hb]]; [reflexivity|]. rewrite !drop_ge by assumption.
  reflexivity.
Qed.

(** X17. Once the usage history holds at least 50 records that all saw
    nothing in use (one holder at a time calling [get()] and [release]),
    a pool with [minSize <= 0] keeps nothing: a [release] that is not
    stopped by the size cap pushes the object and the adaptive check
    trims the free list to length 0 at once, so the next [get()] has to
    create a new object and counts a miss. *)
Theorem release_after_idle_history_keeps_nothing (dtReset dtCreate : Q)
    (obj : T) (p : Pool.t T) :
  (50 <= length (Pool.usageHistory p))%nat ->
  Forall (eq 0%nat) (Pool.usageHistory p) ->
  Pool.minSize p <= 0 ->
  obj ∈ Pool.inUse p ->
  (0 <? Pool.maxSize p)
  && (Pool.maxSize p <=? Z.of_nat (length (Pool.pool p))) = false ->
  let p' := Pool.release createFn dtReset dtCreate obj p in
  Pool.pool p' = []
  /\ Pool.inUse p' = Pool.inUse p ∖ {[obj]}
  /\ forall dt,
       fst (Pool.get createFn dt p') = createFn (Pool.creationCount p)
       /\ Pool.poolMisses (snd (Pool.get createFn dt p'))
          = S (Pool.poolMisses p)
       /\ Pool.poolHits (snd (Pool.get createFn dt p')) = Pool.poolHits p.
Proof.
  intros Hhist Hzero Hmin Hin Hcap. cbv zeta.
  assert (Hrel : exists q,
            Pool.release createFn dtReset dtCreate obj p = q
            /\ Pool.pool q = [] /\ Pool.inUse q = Pool.inUse p ∖ {[obj]}
            /\ Pool.creationCount q = Pool.creationCount p
            /\ Pool.poolMisses q = Pool.poolMisses p
            /\ Pool.poolHits q = Pool.poolHits p).
  { unfold Pool.release. rewrite bool_decide_eq_true_2 by exact Hin.
    cbn [negb Pool.maxSize Pool.pool]. rewrite Hcap.
    unfold Pool.checkAdaptiveSize.
    cbn [Pool.usageHistory Pool.withPool Pool.minSize Pool.pool].
    replace (length (Pool.usageHistory p) <? 50)%nat with false
      by (symmetry; apply Nat.ltb_ge; exact Hhist).
    rewrite (max_of_zeros _ Hzero).
    replace (Z.max (Pool.minSize p)
               (Qceiling (inject_Z (Z.of_nat 0) * (12 # 10)))) with 0
      by (change (Qceiling (inject_Z (Z.of_nat 0) * (12 # 10))) with 0; lia).
    replace (Num.Qltb (inject_Z 0 * (15 # 10))
               (inject_Z (Z.of_nat (length (Pool.pool p ++ [obj])))))
      with true.
    2:{ symmetry. apply Qltb_lt. rewrite length_app. cbn [length].
        unfold Qlt. cbn. lia. }
    unfold Pool.trim. cbn [Pool.pool Pool.withPool].
    match goal with
    | |- context [?a <=? 0] => destruct (Z.leb_spec a 0) as [Hle|Hgt]
    end; [rewrite length_app in Hle; cbn [length] in Hle; lia|].
    eexists. split; [reflexivity|]. cbn.
    split; [|repeat split]. apply drop_ge. lia. }
  destruct Hrel as (q & -> & Hpool & Hu & Hcc & Hmiss & Hhits).
  split; [exact Hpool|]. split; [exact Hu|]. intros dt.
  unfold Pool.get. rewrite Hpool. cbn. rewrite Hcc, Hmiss, Hhits.
  repeat split.
Qed.

(** X18. [handleMemoryPressure] is [trim(minSize)]: it keeps the newest
    [minSize] objects of the free list (none for a negative [minSize]),
    leaves the in-use set alone, and a second call changes nothing. *)
Theorem handleMemoryPressure_keeps_newest (p : Pool.t T) :
  let p' := Pool.handleMemoryPressure p in
  p' = Pool.trim (Pool.minSize p) p
  /\ Pool.pool p'
     = drop (length (Pool.pool p) - Z.to_nat (Pool.minSize p)) (Pool.pool p)
  /\ Pool.available p'
     = Nat.min (Pool.available p) (Z.to_nat (Pool.minSize p))
  /\ Pool.inUse p' = Pool.inUse p
  /\ Pool.handleMemoryPressure p' = p'.
Proof.
  cbv zeta. unfold Pool.handleMemoryPressure, Pool.trim, Pool.available.
  destruct (Z.ltb_spec (Pool.minSize p) (Z.of_nat (length (Pool.pool p))))
    as [Hlt|Hge].
  - replace (Z.of_nat (length (Pool.pool p)) <=? Pool.minSize p) with false
      by (symmetry; apply Z.leb_gt; exact Hlt).
    split; [reflexivity|].
    split; [cbn [Pool.withPool Pool.pool]; apply drop_beyond; lia|].
    split; [cbn [Pool.withPool Pool.pool]; rewrite length_drop; lia|].
    split; [reflexivity|].
    cbn [Pool.withPool Pool.pool Pool.inUse Pool.minSize Pool.maxSize
         Pool.objectSize Pool.creationTime Pool.resetTime Pool.creationCount
         Pool.usageHistory Pool.poolHits Pool.poolMisses Pool.maxUsageCount
         Pool.lastAdaptiveCheck Pool.resets Pool.timers Pool.warnings].
    match goal with
    | |- context [?a <? ?b] => destruct (Z.ltb_spec a b) as [Hlt'|Hge']
    end; [|reflexivity].
    rewrite length_drop in Hlt'.
    rewrite drop_drop.
    rewrite (drop_beyond _
               (Z.to_nat (Z.of_nat (length (Pool.pool p)) - Pool.minSize p))
               (Pool.pool p)); [reflexivity|right; lia].
  - replace (Z.of_nat (length (Pool.pool p)) <=? Pool.minSize p) with true
      by (symmetry; apply Z.leb_le; exact Hge).
    split; [reflexivity|].
    split; [replace (_ - _)%nat with 0%nat by lia; reflexivity|].
    split; [lia|]. split; [reflexivity|].
    replace (Pool.minSize p <? Z.of_nat (length (Pool.pool p))) with false
      by (symmetry; apply Z.ltb_ge; exact Hge).
    reflexivity.
Qed.

End PoolTrimming.

Lemma get_hands_out_unused_object_witness :
  let p :=
    Pool.run id
      ([Pool.Get 0; Pool.Get 0; Pool.Release 0 0 0%nat; Pool.Prewarm 0 3]
       : list (Pool.Op nat))
      (Pool.create id 0 0 0 0 1024) in
  let got := Pool.get id 0 p in
  (fst got ∉ Pool.inUse p)
  /\ (fst got ∉ Pool.pool (snd got))
  /\ Pool.inUseCount (snd got) = S (Pool.inUseCount p).
Proof.
  apply (get_hands_out_unused_object id (fun i j E => E) 0 0 0 0 1024
           [Pool.Get 0; Pool.Get 0; Pool.Release 0 0 0%nat; Pool.Prewarm 0 3]
           0).
Defined.

Lemma getBatch_accounting_witness :
  let p :=
    Pool.run id
      ([Pool.Get 0; Pool.Get 0; Pool.Release 0 0 0%nat]
       : list (Pool.Op nat))
      (Pool.create id 0 0 0 0 1024) in
  let got := Pool.getBatch id 0 3 p in
  length (fst got) = 3%nat
  /\ Pool.inUseCount (snd got) = 4%nat
  /\ Pool.poolHits (snd got) = 1%nat
  /\ Pool.poolMisses (snd got) = 4%nat.
Proof.
  cbv zeta.
  destruct (getBatch_accounting id (fun i j E => E) 0 0 0 0 1024
              [Pool.Get 0; Pool.Get 0; Pool.Release 0 0 0%nat] 0 3)
    as (Hlen & _ & _ & Hcount & _ & Hhits & Hmiss & _); [lia|].
  split; [exact Hlen|]. split; [exact Hcount|].
  split; [exact Hhits|exact Hmiss].
Defined.

Lemma batch_round_trip_witness :
  let p :=
    Pool.run id ([Pool.Get 0; Pool.Release 0 0 0%nat] : list (Pool.Op nat))
      (Pool.create id 0 0 0 0 1024) in
  let got := Pool.getBatch id 0 3 p in
  let p2 := Pool.releaseBatch id 0 1000 0 (fst got) (snd got) in
  let again := Pool.getBatch id 0 3 p2 in
  fst got = [0; 1; 2]%nat /\ fst again = [2; 1; 0]%nat
  /\ Pool.creationCount (snd again) = 3%nat.
Proof.
  cbv zeta.
  destruct (batch_round_trip id (fun i j E => E) 0 0 0 1024
              [Pool.Get 0; Pool.Release 0 0 0%nat] 0 0 1000 0 0 3)
    as (_ & _ & Hsame & Hcc & _); [lia|vm_compute; reflexivity|].
  split; [vm_compute; reflexivity|].
  split; [rewrite Hsame; vm_compute; reflexivity|].
  rewrite Hcc. vm_compute. reflexivity.
Defined.

Lemma release_after_idle_history_keeps_nothing_witness :
  let got := Pool.get id 0 (Sample.getReleaseCycles 49 Sample.freshPool) in
  let p' := Pool.release id 0 0 (fst got) (snd got) in
  Pool.pool p' = []
  /\ fst (Pool.get id 0 p') = 1%nat
  /\ Pool.poolMisses (snd (Pool.get id 0 p')) = 2%nat.
Proof.
  cbv zeta.
  destruct (release_after_idle_history_keeps_nothing id 0 0
              (fst (Pool.get id 0 (Sample.getReleaseCycles 49 Sample.freshPool)))
              (snd (Pool.get id 0 (Sample.getReleaseCycles 49 Sample.freshPool))))
    as (Hpool & _ & Hnext).
  - vm_compute. lia.
  - vm_compute. repeat constructor.
  - vm_compute. discriminate.
  - vm_compute. set_solver.
  - vm_compute. reflexivity.
  - destruct (Hnext 0%Q) as (Hobj & Hmiss & _).
    split; [exact Hpool|]. split; [exact Hobj|exact Hmiss].
Defined.

(** ** Base visualization: the update gate *)

Section UpdateGate.

Import BaseVisualization.

Lemma section_no_update (v : t) (e : Event) (a : AudioAnalysisData) :
  (forall x, e <> UpdateVisualization x) ->
  UpdateVisualization a ∉ section v e.
Proof.
  intros He. unfold section. destruct (performanceMonitor v).
  - intros Hin. apply list_elem_of_singleton in Hin. exact (He a (eq_sym Hin)).
  - apply not_elem_of_nil.
Qed.

Lemma cleanup_no_update (v : t) (a : AudioAnalysisData) :
  UpdateVisualization a ∉ snd (cleanupUnusedResources v).
Proof.
  unfold cleanupUnusedResources. cbn [snd].
  rewrite !not_elem_of_app. repeat split.
  - apply section_no_update. discriminate.
  - intros Hin. apply list_elem_of_fmap in Hin as (? & [=] & _).
  - intros Hin. apply list_elem_of_fmap in Hin as (? & [=] & _).
  - intros Hin. apply list_elem_of_fmap in Hin as (? & [=] & _).
  - apply section_no_update. discriminate.
Qed.

(** The importance [update] passes to the LOD manager. *)
Lemma frequencyGate_frame (importance : Q) (v : t) (due : bool) (v2 : t) :
  frequencyGate importance v = (Some due, v2) ->
  frameCount v2 = frameCount v /\ uTime v2 = uTime v
  /\ lastUpdateTime v2 = lastUpdateTime v /\ isVisible v2 = isVisible v
  /\ currentDrawCalls v2 = currentDrawCalls v
  /\ scene v2 = scene v /\ objects v2 = objects v.
Proof.
  unfold frequencyGate. destruct (lodManager v) as [l|].
  - destruct (LodManager.shouldUpdate _ _ l) as [[d|] l1]; [|discriminate].
    destruct (LodManager.getEffectComplexity l1) as [q|]; [|discriminate].
    destruct (negb _); intros [= <- <-]; repeat split.
  - intros [= <- <-]. repeat split.
Qed.

Context `{VisualStyle}.

(** What [update] does once the frequency gate has answered: the style
    runs exactly when the frame is visible and the gate, or a confident
    beat, asks for it. *)
Lemma update_decision (audioData : AudioAnalysisData)
    (instruments : list DetectedInstrument) (camera : option Q)
    (elapsed : Q) (v : t) (due : bool) (v2 : t) :
  frequencyGate
    (if beatDetected audioData then (9 # 10)%Q
     else if Num.Qltb (7 # 10) (volume audioData) then (8 # 10)%Q
     else (5 # 10)%Q)
    (withFrame elapsed (if beatDetected audioData then 1 else 0)
       (volume audioData) instruments (default 0%Q camera)
       (visibleFrom camera v) v)
  = (Some due, v2) ->
  let forced :=
    beatDetected audioData && Num.Qltb (5 # 10) (beatConfidence audioData) in
  exists v3,
    frameCount v3 = frameCount v + 1 /\ uTime v3 = elapsed
    /\ lastUpdateTime v3 = lastUpdateTime v
    /\ currentDrawCalls v3 = currentDrawCalls v
    /\ qualityScale v3 = qualityScale v2
    /\ uQualityScale v3 = uQualityScale v2
    /\ shaderComplexity v3 = shaderComplexity v2
    /\ isVisible v3 = visibleFrom camera v
    /\ if visibleFrom camera v && (forced || due)
       then exists events,
            update audioData instruments camera elapsed v
            = (Returned
                 (updateVisualization audioData (withUpdate elapsed 0 v3)),
               events)
            /\ UpdateVisualization audioData ∈ events
       else exists events,
            update audioData instruments camera elapsed v
            = (Returned v3, events)
            /\ forall a, UpdateVisualization a ∉ events.
Proof.
  intros Hgate. cbv zeta. unfold update. rewrite Hgate.
  apply frequencyGate_frame in Hgate
    as (Hf & Ht & Hl & Hv & Hd & _ & _).
  cbn [frameCount uTime lastUpdateTime isVisible currentDrawCalls withFrame]
    in Hf, Ht, Hl, Hv, Hd.
  set (forced := beatDetected audioData && _).
  replace (if forced then true else due) with (forced || due)
    by (destruct forced; reflexivity).
  pose proof (cleanup_no_update v2) as Hclean.
  destruct (Num.Qltb (memoryCleanupInterval v2 / 1000) _).
  - destruct (cleanupUnusedResources v2) as [c ev] eqn:Ec.
    cbn [snd] in Hclean.
    assert (Hc : frameCount c = frameCount v2 /\ uTime c = uTime v2
                 /\ lastUpdateTime c = lastUpdateTime v2
                 /\ isVisible c = isVisible v2
                 /\ currentDrawCalls c = currentDrawCalls v2
                 /\ qualityScale c = qualityScale v2
                 /\ uQualityScale c = uQualityScale v2
                 /\ shaderComplexity c = shaderComplexity v2).
    { unfold cleanupUnusedResources in Ec. injection Ec as <- _.
      repeat split. }
    destruct Hc as (Hc1 & Hc2 & Hc3 & Hc4 & Hc5 & Hc6 & Hc7 & Hc8).
    exists (withCaches (textureCache c) (materialCache c) (geometryCache c)
              (uTime v2) c).
    cbn [frameCount uTime lastUpdateTime currentDrawCalls qualityScale
         uQualityScale shaderComplexity isVisible withCaches].
    repeat (split; [congruence|]).
    rewrite Hc4, Hv, Hc2, Ht.
    destruct (visibleFrom camera v); cbn [negb orb andb].
    + destruct (forced || due); cbn [negb].
      * eexists. split; [reflexivity|]. set_solver.
      * eexists. split; [reflexivity|]. intros a.
        rewrite !not_elem_of_app. split; [|split].
        -- apply section_no_update. discriminate.
        -- apply Hclean.
        -- apply section_no_update. discriminate.
    + eexists. split; [reflexivity|]. intros a.
      rewrite !not_elem_of_app. split; [|split].
      * apply section_no_update. discriminate.
      * apply Hclean.
      * apply section_no_update. discriminate.
  - exists v2. repeat (split; [congruence|]). rewrite Hv, Ht.
    destruct (visibleFrom camera v); cbn [negb orb andb].
    + destruct (forced || due); cbn [negb].
      * eexists. split; [reflexivity|]. set_solver.
      * eexists. split; [reflexivity|]. intros a.
        rewrite !not_elem_of_app. split; [|split].
        -- apply section_no_update. discriminate.
        -- apply not_elem_of_nil.
        -- apply section_no_update. discriminate.
    + eexists. split; [reflexivity|]. intros a.
      rewrite !not_elem_of_app. split; [|split].
      * apply section_no_update. discriminate.
      * apply not_elem_of_nil.
      * apply section_no_update. discriminate.
Qed.

(** X19. A frame whose camera is at or beyond the visibility threshold is
    skipped: [update] returns without calling the style's
    [updateVisualization], even on a confident beat, and leaves
    [lastUpdateTime] and the draw-call counter alone; the frame counter and
    the time uniform are still advanced.  The LOD manager, when wired, is
    one whose index is valid. *)
Theorem out_of_range_frame_is_skipped (audioData : AudioAnalysisData)
    (instruments : list DetectedInstrument) (d elapsed : Q) (v : t) :
  (visibilityThreshold v <= d)%Q ->
  System.lodValid (lodManager v) ->
  exists v' events,
    update audioData instruments (Some d) elapsed v = (Returned v', events)
    /\ (forall a, UpdateVisualization a ∉ events)
    /\ isVisible v' = false
    /\ frameCount v' = frameCount v + 1
    /\ uTime v' = elapsed
    /\ lastUpdateTime v' = lastUpdateTime v
    /\ currentDrawCalls v' = currentDrawCalls v.
Proof.
  intros Hfar Hlod.
  assert (Hvis : visibleFrom (Some d) v = false) by (apply Qltb_ge, Hfar).
  match goal with
  | |- context [update ?a ?i ?c ?e ?x] =>
      destruct (frequencyGate_answers
                  (if beatDetected a then (9 # 10)%Q
                   else if Num.Qltb (7 # 10) (volume a) then (8 # 10)%Q
                   else (5 # 10)%Q)
                  (withFrame e (if beatDetected a then 1 else 0) (volume a) i
                     (default 0%Q c) (visibleFrom c x) x) Hlod)
        as (due & v2 & Hgate & _)
  end.
  destruct (update_decision audioData instruments (Some d) elapsed v due v2
              Hgate)
    as (v3 & Hf & Ht & Hl & Hd & _ & _ & _ & Hv & Hrun).
  rewrite Hvis in Hrun, Hv. cbn [andb] in Hrun.
  destruct Hrun as (events & Hupd & Hnone).
  exists v3, events. repeat (split; [assumption|]). assumption.
Qed.

(** X20. Without a LOD manager, on a visible frame without a confident
    beat, the style's [updateVisualization] is called exactly on the frames
    whose new frame count is a multiple of [updateFrequency]; with
    [updateFrequency] 0 the remainder is NaN and it is never called. *)
Theorem local_update_cadence (audioData : AudioAnalysisData)
    (instruments : list DetectedInstrument) (camera : option Q)
    (elapsed : Q) (v : t) :
  lodManager v = None ->
  visibleFrom camera v = true ->
  beatDetected audioData && Num.Qltb (5 # 10) (beatConfidence audioData)
  = false ->
  exists r events,
    update audioData instruments camera elapsed v = (Returned r, events)
    /\ (UpdateVisualization audioData ∈ events
        <-> Num.remIsZero (frameCount v + 1) (updateFrequency v) = true)
    /\ (updateFrequency v = 0 -> UpdateVisualization audioData ∉ events).
Proof.
  intros Hnone Hvis Hbeat.
  destruct (update_decision audioData instruments camera elapsed v
              (Num.remIsZero (frameCount v + 1) (updateFrequency v))
              (withFrame elapsed (if beatDetected audioData then 1 else 0)
                 (volume audioData) instruments (default 0%Q camera)
                 (visibleFrom camera v) v))
    as (v3 & _ & _ & _ & _ & _ & _ & _ & _ & Hrun).
  { unfold frequencyGate. cbn [lodManager withFrame]. rewrite Hnone.
    reflexivity. }
  rewrite Hvis, Hbeat in Hrun. cbn [andb orb] in Hrun.
  assert (Hzero : updateFrequency v = 0 ->
                  Num.remIsZero (frameCount v + 1) (updateFrequency v) = false)
    by (intros ->; reflexivity).
  destruct (Num.remIsZero (frameCount v + 1) (updateFrequency v)) eqn:E;
    destruct Hrun as (events & Hupd & Hev); eexists _, events;
    (split; [exact Hupd|]).
  - split; [tauto|]. intros H0. specialize (Hzero H0). discriminate.
  - split; [|intros _; apply Hev]. split; [|discriminate].
    intros Hin. exfalso. exact (Hev _ Hin).
Qed.

(** X21. When the LOD manager's effect complexity differs from the
    visualization's quality scale, [update] on a visible frame adopts it
    (quality scale, its uniform and the shader tier) and calls the style's
    [updateVisualization] on that state, whatever the LOD manager answered
    about the frame being due. *)
Theorem quality_resync_forces_update (audioData : AudioAnalysisData)
    (instruments : list DetectedInstrument) (camera : option Q)
    (elapsed : Q) (v : t) (l : LodManager.t) (lod : LodManager.LodLevel) :
  lodManager v = Some l ->
  LodManager.getCurrentLodLevel l = Some lod ->
  ~ (LodManager.effectComplexity lod == qualityScale v)%Q ->
  visibleFrom camera v = true ->
  exists v3 events,
    update audioData instruments camera elapsed v
    = (Returned (updateVisualization audioData (withUpdate elapsed 0 v3)),
       events)
    /\ UpdateVisualization audioData ∈ events
    /\ qualityScale v3 = LodManager.effectComplexity lod
    /\ uQualityScale v3 = LodManager.effectComplexity lod
    /\ shaderComplexity v3 = complexityOf (LodManager.effectComplexity lod).
Proof.
  intros Hl Hlod Hneq Hvis.
  set (imp := if beatDetected audioData then (9 # 10)%Q
              else if Num.Qltb (7 # 10) (volume audioData) then (8 # 10)%Q
              else (5 # 10)%Q).
  set (v1 := withFrame elapsed (if beatDetected audioData then 1 else 0)
               (volume audioData) instruments (default 0%Q camera)
               (visibleFrom camera v) v).
  assert (Hgate : exists v2,
            frequencyGate imp v1 = (Some true, v2)
            /\ qualityScale v2 = LodManager.effectComplexity lod
            /\ uQualityScale v2 = LodManager.effectComplexity lod
            /\ shaderComplexity v2
               = complexityOf (LodManager.effectComplexity lod)).
  { unfold frequencyGate. cbn [lodManager withFrame v1]. rewrite Hl.
    rewrite (shouldUpdate_effective _ _ _ _ Hlod).
    unfold LodManager.getEffectComplexity.
    replace (LodManager.getCurrentLodLevel
               (LodManager.setFrameCounter (LodManager.frameCounter l + 1) l))
      with (Some lod) by (symmetry; exact Hlod).
    cbn [fmap option_fmap option_map qualityScale withLod].
    change (qualityScale v1) with (qualityScale v).
    replace (Qeq_bool (LodManager.effectComplexity lod) (qualityScale v))
      with false.
    2:{ symmetry. destruct (Qeq_bool _ _) eqn:E; [|reflexivity].
        apply Qeq_bool_iff in E. contradiction. }
    cbn [negb]. eexists. split; [reflexivity|]. repeat split. }
  destruct Hgate as (v2 & Hgate & Hq & Hu & Hs).
  destruct (update_decision audioData instruments camera elapsed v true v2
              Hgate)
    as (v3 & _ & _ & _ & _ & Hq3 & Hu3 & Hs3 & _ & Hrun).
  rewrite Hvis, orb_true_r in Hrun. cbn [andb] in Hrun.
  destruct Hrun as (events & Hupd & Hin).
  exists v3, events. split; [exact Hupd|]. split; [exact Hin|].
  split; [congruence|]. split; congruence.
Qed.

End UpdateGate.

Lemma out_of_range_frame_is_skipped_witness :
  exists v' events,
    @BaseVisualization.update Sample.countingStyle Sample.confidentBeat []
      (Some 150%Q) 1 Sample.throttledVisualization
    = (Returned v', events)
    /\ (forall a, BaseVisualization.UpdateVisualization a ∉ events)
    /\ BaseVisualization.isVisible v' = false
    /\ BaseVisualization.frameCount v' = 0 + 1
    /\ BaseVisualization.uTime v' = 1%Q
    /\ BaseVisualization.lastUpdateTime v' = 0%Q
    /\ BaseVisualization.currentDrawCalls v' = 0.
Proof.
  apply (@out_of_range_frame_is_skipped Sample.countingStyle
           Sample.confidentBeat [] 150 1 Sample.throttledVisualization).
  - vm_compute. discriminate.
  - intros l [= <-]. unfold LodManager.indexValid. cbn. lia.
Defined.

Lemma local_update_cadence_witness :
  let quiet :=
    {| BaseVisualization.volume := 3 # 10;
       BaseVisualization.beatDetected := false;
       BaseVisualization.beatConfidence := 0;
       BaseVisualization.beatBpm := 120 |} in
  let v :=
    BaseVisualization.withLod None Sample.throttledVisualization in
  exists r events,
    @BaseVisualization.update Sample.countingStyle quiet [] None 1 v
    = (Returned r, events)
    /\ (BaseVisualization.UpdateVisualization quiet ∈ events
        <-> Num.remIsZero (0 + 1) 5 = true)
    /\ (5 = 0 -> BaseVisualization.UpdateVisualization quiet ∉ events).
Proof.
  apply (@local_update_cadence Sample.countingStyle
           {| BaseVisualization.volume := 3 # 10;
              BaseVisualization.beatDetected := false;
              BaseVisualization.beatConfidence := 0;
              BaseVisualization.beatBpm := 120 |} [] None 1
           (BaseVisualization.withLod None Sample.throttledVisualization)).
  - reflexivity.
  - reflexivity.
  - reflexivity.
Defined.

Lemma quality_resync_forces_update_witness :
  let v :=
    BaseVisualization.withLod (Some (Sample.managerAt 1))
      Sample.throttledVisualization in
  let quiet :=
    {| BaseVisualization.volume := 3 # 10;
       BaseVisualization.beatDetected := false;
       BaseVisualization.beatConfidence := 0;
       BaseVisualization.beatBpm := 120 |} in
  fst (BaseVisualization.frequencyGate (5 # 10)
         (BaseVisualization.withLod (Some (Sample.managerAt 1))
            (BaseVisualization.withQualityScale (3 # 10) v)))
  = Some false
  /\ exists v3 events,
       @BaseVisualization.update Sample.countingStyle quiet [] None 1 v
       = (Returned
            (@BaseVisualization.updateVisualization Sample.countingStyle quiet
               (BaseVisualization.withUpdate 1 0 v3)), events)
       /\ BaseVisualization.UpdateVisualization quiet ∈ events
       /\ BaseVisualization.qualityScale v3 = (3 # 10)%Q
       /\ BaseVisualization.uQualityScale v3 = (3 # 10)%Q
       /\ BaseVisualization.shaderComplexity v3 = BaseVisualization.Low.
Proof.
  split; [vm_compute; reflexivity|].
  apply (@quality_resync_forces_update Sample.countingStyle
           {| BaseVisualization.volume := 3 # 10;
              BaseVisualization.beatDetected := false;
              BaseVisualization.beatConfidence := 0;
              BaseVisualization.beatBpm := 120 |} [] None 1
           (BaseVisualization.withLod (Some (Sample.managerAt 1))
              Sample.throttledVisualization)
           (Sample.managerAt 1)
           {| LodManager.level := 1; LodManager.name := "Low";
              LodManager.particleCount := 300;
              LodManager.geometryDetail := 4 # 10;
              LodManager.textureSize := 5 # 10;
              LodManager.shadowQuality := LodManager.ShadowOff;
              LodManager.postProcessingEnabled := false;
              LodManager.effectComplexity := 3 # 10;
              LodManager.maxObjects := 30;
              LodManager.updateFrequency := 3 |}).
  - reflexivity.
  - reflexivity.
  - vm_compute. discriminate.
  - reflexivity.
Defined.

(** ** Base visualization: resource caches *)

Section ResourceCaches.

Import BaseVisualization.

Lemma elem_of_allCached (r : nat) (cache : gmap string Cached) :
  r ∈ allCached cache
  <-> exists k c, cache !! k = Some c /\ resource c = r.
Proof.
  unfold allCached. rewrite list_elem_of_fmap. split.
  - intros (c & -> & Hc). apply list_elem_of_fmap in Hc as ([k c'] & -> & Hkc).
    apply elem_of_map_to_list in Hkc. exists k, c'. auto.
  - intros (k & c & Hk & <-). exists c. split; [reflexivity|].
    apply list_elem_of_fmap. exists (k, c). split; [reflexivity|].
    apply elem_of_map_to_list. exact Hk.
Qed.

Lemma kept_lookup (time : Q) (cache : gmap string Cached) (k : string)
    (c : Cached) :
  kept time cache !! k = Some c
  <-> cache !! k = Some c /\ stale time c = false.
Proof. unfold kept. rewrite map_lookup_filter_Some. reflexivity. Qed.

Lemma elem_of_swept (time : Q) (cache : gmap string Cached) (r : nat) :
  r ∈ swept time cache
  <-> exists k c, cache !! k = Some c /\ stale time c = true /\ resource c = r.
Proof.
  unfold swept. rewrite elem_of_allCached. split.
  - intros (k & c & Hk & Hr). apply map_lookup_filter_Some in Hk as [Hk Hs].
    exists k, c. auto.
  - intros (k & c & Hk & Hs & Hr). exists k, c. split; [|exact Hr].
    apply map_lookup_filter_Some. auto.
Qed.

Lemma swept_kept (time : Q) (cache : gmap string Cached) :
  swept time (kept time cache) = [].
Proof.
  unfold swept, kept.
  replace (filter (fun kv : string * Cached => stale time kv.2 = true)
             (filter (fun kv : string * Cached => stale time kv.2 = false)
                cache)) with (∅ : gmap string Cached).
  - unfold allCached. rewrite map_to_list_empty. reflexivity.
  - symmetry. apply map_empty. intros k.
    destruct (filter _ (filter _ cache) !! k) as [c|] eqn:E; [|reflexivity].
    apply map_lookup_filter_Some in E as [E Hs].
    apply map_lookup_filter_Some in E as [_ Hf]. cbn in Hs, Hf. congruence.
Qed.

Lemma kept_kept (time : Q) (cache : gmap string Cached) :
  kept time (kept time cache) = kept time cache.
Proof. unfold kept. apply map_filter_filter_r. auto. Qed.

Lemma allCached_empty : allCached ∅ = [].
Proof. unfold allCached. rewrite map_to_list_empty. reflexivity. Qed.

(** X22. [cleanupUnusedResources] keeps exactly the cache entries used
    within the last 60 s (a missing or zero [lastUsed] counts as unused);
    the textures, materials and geometries it disposes are exactly the
    resources of the entries it removes; it touches neither the scene nor
    the tracked lists; and run again at the same time it disposes nothing
    and leaves the caches as they are. *)
Theorem cleanup_keeps_recent_entries (v : t) :
  let time := uTime v in
  let v' := fst (cleanupUnusedResources v) in
  let events := snd (cleanupUnusedResources v) in
  (forall k c, textureCache v' !! k = Some c
               <-> textureCache v !! k = Some c /\ stale time c = false)
  /\ (forall k c, materialCache v' !! k = Some c
                  <-> materialCache v !! k = Some c /\ stale time c = false)
  /\ (forall k c, geometryCache v' !! k = Some c
                  <-> geometryCache v !! k = Some c /\ stale time c = false)
  /\ (forall r, DisposeTexture r ∈ events
                <-> exists k c, textureCache v !! k = Some c
                                /\ stale time c = true /\ resource c = r)
  /\ (forall r, DisposeMaterial r ∈ events
                <-> exists k c, materialCache v !! k = Some c
                                /\ stale time c = true /\ resource c = r)
  /\ (forall r, DisposeGeometry r ∈ events
                <-> exists k c, geometryCache v !! k = Some c
                                /\ stale time c = true /\ resource c = r)
  /\ scene v' = scene v /\ objects v' = objects v
  /\ materials v' = materials v /\ geometries v' = geometries v
  /\ snd (cleanupUnusedResources v')
     = section v (MonitorBeginSection "cleanup")
       ++ section v (MonitorEndSection "cleanup")
  /\ textureCache (fst (cleanupUnusedResources v')) = textureCache v'
  /\ materialCache (fst (cleanupUnusedResources v')) = materialCache v'
  /\ geometryCache (fst (cleanupUnusedResources v')) = geometryCache v'.
Proof.
  cbv zeta. unfold cleanupUnusedResources.
  cbn [fst snd textureCache materialCache geometryCache withCaches uTime
       scene objects materials geometries].
  split; [intros k c; apply kept_lookup|].
  split; [intros k c; apply kept_lookup|].
  split; [intros k c; apply kept_lookup|].
  assert (Hsec : forall e x, e ∈ section v x -> e = x).
  { intros e x. unfold section. destruct (performanceMonitor v).
    - apply list_elem_of_singleton.
    - intros Hin. apply elem_of_nil in Hin. contradiction. }
  split; [|split; [|split]].
  - intros r. rewrite <- elem_of_swept. rewrite !elem_of_app. split.
    + intros [Hin|[Hin|[Hin|[Hin|Hin]]]].
      * apply Hsec in Hin. discriminate.
      * apply list_elem_of_fmap in Hin as (x & [= ->] & Hx). exact Hx.
      * apply list_elem_of_fmap in Hin as (x & [=] & _).
      * apply list_elem_of_fmap in Hin as (x & [=] & _).
      * apply Hsec in Hin. discriminate.
    + intros Hin. right. left. apply list_elem_of_fmap. eauto.
  - intros r. rewrite <- elem_of_swept. rewrite !elem_of_app. split.
    + intros [Hin|[Hin|[Hin|[Hin|Hin]]]].
      * apply Hsec in Hin. discriminate.
      * apply list_elem_of_fmap in Hin as (x & [=] & _).
      * apply list_elem_of_fmap in Hin as (x & [= ->] & Hx). exact Hx.
      * apply list_elem_of_fmap in Hin as (x & [=] & _).
      * apply Hsec in Hin. discriminate.
    + intros Hin. right. right. left. apply list_elem_of_fmap. eauto.
  - intros r. rewrite <- elem_of_swept. rewrite !elem_of_app. split.
    + intros [Hin|[Hin|[Hin|[Hin|Hin]]]].
      * apply Hsec in Hin. discriminate.
      * apply list_elem_of_fmap in Hin as (x & [=] & _).
      * apply list_elem_of_fmap in Hin as (x & [=] & _).
      * apply list_elem_of_fmap in Hin as (x & [= ->] & Hx). exact Hx.
      * apply Hsec in Hin. discriminate.
    + intros Hin. right. right. right. left. apply list_elem_of_fmap. eauto.
  - repeat (split; [reflexivity|]).
    rewrite !swept_kept, !kept_kept. split; [|repeat split].
    unfold section. cbn [performanceMonitor withCaches].
    destruct (performanceMonitor v); reflexivity.
Qed.

(** X23. [handleMemoryPressure] of a visualization leaves all three
    caches empty, disposes the resource of every entry they held, passes
    the pressure on to every object pool, and keeps the scene and the
    tracked objects, materials and geometries. *)
Theorem visualization_memory_pressure_empties_caches (v : t) :
  let v' := fst (handleMemoryPressure v) in
  let events := snd (handleMemoryPressure v) in
  textureCache v' = ∅ /\ materialCache v' = ∅ /\ geometryCache v' = ∅
  /\ (forall k c, textureCache v !! k = Some c ->
                  DisposeTexture (resource c) ∈ events)
  /\ (forall k c, materialCache v !! k = Some c ->
                  DisposeMaterial (resource c) ∈ events)
  /\ (forall k c, geometryCache v !! k = Some c ->
                  DisposeGeometry (resource c) ∈ events)
  /\ (forall key, key ∈ objectPools v -> PoolMemoryPressure key ∈ events)
  /\ scene v' = scene v /\ objects v' = objects v
  /\ materials v' = materials v /\ geometries v' = geometries v
  /\ objectPools v' = objectPools v.
Proof.
  cbv zeta. unfold handleMemoryPressure, cleanupUnusedResources.
  cbn [fst snd textureCache materialCache geometryCache withCaches uTime
       scene objects materials geometries objectPools].
  repeat (split; [reflexivity|]).
  assert (Hcase : forall (cache : gmap string Cached) k c,
            cache !! k = Some c ->
            resource c ∈ swept (uTime v) cache
            \/ resource c ∈ allCached (kept (uTime v) cache)).
  { intros cache k c Hk. destruct (stale (uTime v) c) eqn:E.
    - left. apply elem_of_swept. eauto.
    - right. apply elem_of_allCached. exists k, c. split; [|reflexivity].
      apply kept_lookup. auto. }
  split; [|split; [|split; [|split]]].
  - intros k c Hk. rewrite !elem_of_app.
    destruct (Hcase _ _ _ Hk) as [Hin|Hin].
    + left. right. left. apply list_elem_of_fmap. eauto.
    + right. left. apply list_elem_of_fmap. eauto.
  - intros k c Hk. rewrite !elem_of_app.
    destruct (Hcase _ _ _ Hk) as [Hin|Hin].
    + left. right. right. left. apply list_elem_of_fmap. eauto.
    + right. right. left. apply list_elem_of_fmap. eauto.
  - intros k c Hk. rewrite !elem_of_app.
    destruct (Hcase _ _ _ Hk) as [Hin|Hin].
    + left. right. right. right. left. apply list_elem_of_fmap. eauto.
    + right. right. right. left. apply list_elem_of_fmap. eauto.
  - intros key Hkey. rewrite !elem_of_app. right. right. right. right.
    apply list_elem_of_fmap. exists key. split; [reflexivity|].
    apply elem_of_elements. exact Hkey.
  - repeat split.
Qed.

End ResourceCaches.

(** ** Base visualization: the scene and the tracked lists *)

Section SceneTracking.

Import BaseVisualization.

Lemma filter_all_true {A} (P : A -> bool) (l : list A) :
  (forall x, x ∈ l -> P x = true) -> List.filter P l = l.
Proof.
  induction l as [|x l IH]; intros Hall; [reflexivity|]. cbn.
  rewrite (Hall x) by (left). rewrite IH; [reflexivity|].
  intros y Hy. apply Hall. right. exact Hy.
Qed.

Lemma filter_filter_and {A} (P Q : A -> bool) (l : list A) :
  List.filter P (List.filter Q l) = List.filter (fun x => Q x && P x) l.
Proof.
  induction l as [|x l IH]; [reflexivity|]. cbn.
  destruct (Q x); cbn; [destruct (P x)|]; rewrite IH; reflexivity.
Qed.

Lemma filter_same {A} (P Q : A -> bool) (l : list A) :
  (forall x, P x = Q x) -> List.filter P l = List.filter Q l.
Proof.
  intros Hpq. induction l as [|x l IH]; [reflexivity|]. cbn.
  rewrite Hpq, IH. reflexivity.
Qed.

Lemma NoDup_ids_filter (P : Object3D -> bool) (sc : list Object3D) :
  NoDup (objId <$> sc) -> NoDup (objId <$> List.filter P sc).
Proof.
  induction sc as [|c sc IH]; intros Hnd; [constructor|]. cbn in *.
  apply NoDup_cons in Hnd as [Hc Hnd]. destruct (P c); [|auto].
  cbn. apply NoDup_cons. split; [|auto].
  intros Hin. apply Hc. apply list_elem_of_fmap in Hin as (x & Hx & Hin).
  apply list_elem_of_fmap. exists x. split; [exact Hx|].
  apply list_elem_of_In. apply list_elem_of_In in Hin.
  apply filter_In in Hin. tauto.
Qed.

(** With distinct children, [scene.remove] is a filter. *)
Lemma sceneRemove_filter (i : nat) (sc : list Object3D) :
  NoDup (objId <$> sc) ->
  sceneRemove i sc = List.filter (fun c => negb (objId c =? i)%nat) sc.
Proof.
  induction sc as [|c sc IH]; intros Hnd; [reflexivity|]. cbn in *.
  apply NoDup_cons in Hnd as [Hc Hnd].
  destruct (Nat.eqb_spec (objId c) i) as [E|E]; cbn.
  - symmetry. apply filter_all_true. intros x Hx.
    apply negb_true_iff, Nat.eqb_neq. intros Ex. apply Hc.
    apply list_elem_of_fmap. exists x. split; [congruence|exact Hx].
  - rewrite IH by exact Hnd. reflexivity.
Qed.

Lemma removeTracked_filter (os : list nat) :
  forall sc : list Object3D,
  NoDup (objId <$> sc) ->
  fold_left (fun sc o => sceneRemove o sc) os sc
  = List.filter (fun c => negb (bool_decide (objId c ∈ os))) sc.
Proof.
  induction os as [|o os IH]; intros sc Hnd.
  - cbn. symmetry. apply filter_all_true. intros x _.
    rewrite bool_decide_eq_false_2 by apply not_elem_of_nil. reflexivity.
  - cbn [fold_left]. rewrite (sceneRemove_filter o sc Hnd).
    rewrite IH by (apply NoDup_ids_filter, Hnd).
    rewrite filter_filter_and. apply filter_same. intros c.
    destruct (Nat.eqb_spec (objId c) o) as [E|E]; cbn.
    + rewrite bool_decide_eq_true_2 by (rewrite E; left). reflexivity.
    + destruct (bool_decide_reflect (objId c ∈ os)) as [Hin|Hout].
      * rewrite bool_decide_eq_true_2 by (right; exact Hin). reflexivity.
      * rewrite bool_decide_eq_false_2; [reflexivity|].
        intros Hin. apply elem_of_cons in Hin as [Hin|Hin]; auto.
Qed.

(** X24. [clearScene(false)] on a scene whose children are distinct
    objects removes exactly the tracked objects that are direct children
    of the scene: the children left are the untracked ones, in their
    order, with their subtrees untouched; the tracked list is emptied and
    the materials and geometries stay tracked for a later [dispose]. *)
Theorem clearScene_keeps_untracked_children (v : t) :
  NoDup (objId <$> scene v) ->
  let v' := clearScene false v in
  scene v'
  = List.filter (fun c => negb (bool_decide (objId c ∈ objects v))) (scene v)
  /\ objects v' = []
  /\ materials v' = materials v
  /\ geometries v' = geometries v.
Proof.
  intros Hnd. cbv zeta. unfold clearScene.
  cbn [scene objects materials geometries withTracking].
  rewrite (removeTracked_filter _ _ Hnd). repeat split.
Qed.

Lemma detach_objId (i : nat) (o : Object3D) : objId (detach i o) = objId o.
Proof. destruct o; reflexivity. Qed.

Lemma pushNew_NoDup (x : nat) (l : list nat) :
  NoDup l -> NoDup (pushNew x l).
Proof.
  intros Hl. unfold pushNew. case_bool_decide as Hin; [exact Hl|].
  apply NoDup_app. split; [exact Hl|]. split; [|apply NoDup_singleton].
  intros y Hy Hs. apply list_elem_of_singleton in Hs as ->. exact (Hin Hy).
Qed.

Lemma pushNew_elem (x y : nat) (l : list nat) :
  y ∈ pushNew x l <-> y = x \/ y ∈ l.
Proof.
  unfold pushNew. case_bool_decide as Hin.
  - split; [auto|]. intros [->|Hy]; assumption.
  - rewrite elem_of_app, list_elem_of_singleton. tauto.
Qed.

Lemma pushAll_NoDup (xs : list nat) :
  forall l, NoDup l -> NoDup (fold_left (fun acc x => pushNew x acc) xs l).
Proof.
  induction xs as [|x xs IH]; intros l Hl; [exact Hl|].
  cbn. apply IH, pushNew_NoDup, Hl.
Qed.

Lemma pushAll_elem (xs : list nat) :
  forall l y,
  y ∈ fold_left (fun acc x => pushNew x acc) xs l <-> y ∈ xs \/ y ∈ l.
Proof.
  induction xs as [|x xs IH]; intros l y; cbn.
  - split; [auto|]. intros [Hy|Hy]; [|exact Hy].
    apply elem_of_nil in Hy. contradiction.
  - rewrite IH, pushNew_elem, elem_of_cons. tauto.
Qed.

(** X25. [addObject] always makes the object the last child of the scene
    and the only child with its identity, and counts a draw call for a
    mesh, points, line or sprite.  The object is tracked for disposal when
    [trackForDisposal] is set, and also, whatever that flag says, when the
    draw-call budget is exceeded by a mesh with geometry batching on. *)
Theorem addObject_places_object (o : Object3D) (trackForDisposal : bool)
    (importance : Q) (v : t) :
  let v' := fst (addObject o trackForDisposal importance v) in
  let calls :=
    if isDrawable (objKind o) then currentDrawCalls v + 1
    else currentDrawCalls v in
  let overBudget :=
    (drawCallBudget v <? calls) && isMesh (objKind o)
    && shouldBatchGeometry v in
  scene v' = sceneAdd o (scene v)
  /\ last (scene v') = Some o
  /\ (forall c, c ∈ scene v' -> objId c = objId o -> c = o)
  /\ currentDrawCalls v' = calls
  /\ objects v'
     = (if trackForDisposal || overBudget then objects v ++ [objId o]
        else objects v).
Proof.
  cbv zeta. unfold addObject. cbn [fst].
  cbn [drawCallBudget shouldBatchGeometry withUpdate].
  set (calls := if isDrawable (objKind o) then _ else _).
  set (over := (drawCallBudget v <? calls) && isMesh (objKind o)
               && shouldBatchGeometry v).
  assert (Hshape : forall v1 : t,
            scene v1 = sceneAdd o (scene v) ->
            currentDrawCalls v1 = calls ->
            objects v1
            = (if trackForDisposal || over then objects v ++ [objId o]
               else objects v) ->
            scene v1 = sceneAdd o (scene v)
            /\ last (scene v1) = Some o
            /\ (forall c, c ∈ scene v1 -> objId c = objId o -> c = o)
            /\ currentDrawCalls v1 = calls
            /\ objects v1
               = (if trackForDisposal || over then objects v ++ [objId o]
                  else objects v)).
  { intros v1 Hs Hc Ho. split; [exact Hs|]. rewrite Hs.
    split; [apply last_snoc|]. split; [|split; assumption].
    intros c Hin Hid. unfold sceneAdd in Hin.
    apply elem_of_app in Hin as [Hin|Hin].
    - exfalso.
      apply list_elem_of_In, in_map_iff in Hin as (x & <- & Hx).
      rewrite detach_objId in Hid.
      apply filter_In in Hx as [_ Hx].
      apply negb_true_iff, Nat.eqb_neq in Hx. contradiction.
    - apply list_elem_of_singleton in Hin. exact Hin. }
  destruct over eqn:Eover.
  - unfold mergeWithExistingGeometry.
    destruct (objKind o) as [g m| | | |]; apply Hshape;
      rewrite ?orb_true_r; reflexivity.
  - destruct (objKind o) as [g m| | | |];
      destruct (Num.Qltb (7 # 10) importance);
      apply Hshape; try reflexivity;
      destruct trackForDisposal; reflexivity.
Qed.

(** X26. [addObject] keeps the tracked materials and geometries free of
    duplicates, so [dispose] disposes each of them once.  A mesh's
    geometry and its single material are tracked afterwards; the materials
    of a material array are tracked on the normal path, but on the
    batching path (draw-call budget exceeded) the materials list is left
    as it was. *)
Theorem addObject_tracks_without_duplicates (g : nat) (m : Materials)
    (children : list Object3D) (i : nat) (trackForDisposal : bool)
    (importance : Q) (v : t) :
  NoDup (materials v) ->
  NoDup (geometries v) ->
  let o := Obj i (Mesh g m) children in
  let v' := fst (addObject o trackForDisposal importance v) in
  let overBudget :=
    (drawCallBudget v <? currentDrawCalls v + 1) && shouldBatchGeometry v in
  NoDup (materials v') /\ NoDup (geometries v')
  /\ g ∈ geometries v'
  /\ (forall x, x ∈ materials v -> x ∈ materials v')
  /\ match m with
     | SingleMaterial x => x ∈ materials v'
     | MaterialArray xs =>
         if overBudget then materials v' = materials v
         else forall x, x ∈ xs -> x ∈ materials v'
     end.
Proof.
  intros Hm Hg. cbv zeta. unfold addObject. cbn [fst].
  cbn [objKind isDrawable isMesh drawCallBudget shouldBatchGeometry
       withUpdate andb].
  rewrite andb_true_r.
  destruct ((drawCallBudget v <? currentDrawCalls v + 1)
            && shouldBatchGeometry v) eqn:Eover.
  - unfold mergeWithExistingGeometry.
    cbn [objKind materials geometries withTracking withUpdate].
    destruct m as [x|xs].
    + split; [apply pushNew_NoDup, Hm|]. split; [apply pushNew_NoDup, Hg|].
      split; [apply pushNew_elem; auto|].
      split; [intros y Hy; apply pushNew_elem; auto|].
      apply pushNew_elem; auto.
    + split; [exact Hm|]. split; [apply pushNew_NoDup, Hg|].
      split; [apply pushNew_elem; auto|]. split; [auto|reflexivity].
  - destruct (Num.Qltb (7 # 10) importance);
      cbn [objKind materials geometries withTracking withUpdate withLod];
      destruct m as [x|xs].
    + split; [apply pushNew_NoDup, Hm|]. split; [apply pushNew_NoDup, Hg|].
      split; [apply pushNew_elem; auto|].
      split; [intros y Hy; apply pushNew_elem; auto|].
      apply pushNew_elem; auto.
    + split; [apply pushAll_NoDup, Hm|]. split; [apply pushNew_NoDup, Hg|].
      split; [apply pushNew_elem; auto|].
      split; intros y Hy; apply pushAll_elem; auto.
    + split; [apply pushNew_NoDup, Hm|]. split; [apply pushNew_NoDup, Hg|].
      split; [apply pushNew_elem; auto|].
      split; [intros y Hy; apply pushNew_elem; auto|].
      apply pushNew_elem; auto.
    + split; [apply pushAll_NoDup, Hm|]. split; [apply pushNew_NoDup, Hg|].
      split; [apply pushNew_elem; auto|].
      split; intros y Hy; apply pushAll_elem; auto.
Qed.

End SceneTracking.

Lemma clearScene_keeps_untracked_children_witness :
  let v' := BaseVisualization.clearScene false Sample.throttledVisualization in
  BaseVisualization.scene v'
  = [BaseVisualization.Obj 2 BaseVisualization.Plain
       [BaseVisualization.Obj 3 BaseVisualization.Points []]]
  /\ BaseVisualization.objects v' = [].
Proof.
  cbv zeta.
  destruct (clearScene_keeps_untracked_children Sample.throttledVisualization)
    as (Hs & Ho & _).
  - apply (bool_decide_unpack _). vm_compute. exact I.
  - split; [rewrite Hs; vm_compute; reflexivity|exact Ho].
Defined.

Lemma addObject_tracks_without_duplicates_witness :
  let v' :=
    fst (BaseVisualization.addObject
           (BaseVisualization.Obj 7
              (BaseVisualization.Mesh 10
                 (BaseVisualization.MaterialArray [20; 22]%nat)) [])
           true (5 # 10) Sample.throttledVisualization) in
  NoDup (BaseVisualization.materials v')
  /\ NoDup (BaseVisualization.geometries v')
  /\ (22%nat ∈ BaseVisualization.materials v').
Proof.
  cbv zeta.
  destruct (addObject_tracks_without_duplicates 10
              (BaseVisualization.MaterialArray [20; 22]%nat) [] 7 true
              (5 # 10) Sample.throttledVisualization)
    as (Hm & Hg & _ & _ & Harr).
  - apply (bool_decide_unpack _). vm_compute. exact I.
  - apply (bool_decide_unpack _). vm_compute. exact I.
  - split; [exact Hm|]. split; [exact Hg|].
    apply Harr. apply (bool_decide_unpack _). vm_compute. exact I.
Defined.

(** ** Base visualization: mapping audio values *)

Section MapRange.

Import BaseVisualization.

(** X27. [mapRange] on doubles, for a non-degenerate input range
    ([inMin != inMax]): it sends [inMin] to [outMin] exactly; with [clamp]
    the result lies in [[outMin, outMax]] when [outMin <= outMax], and is
    [outMin] for every input when the output range is reversed
    ([outMax < outMin]); and for [inMin < inMax] and [outMin <= outMax] it
    is monotone in the value, clamped or not, rounding included.  The image
    of [inMax] is [outMax] only up to rounding. *)
Theorem mapRange_contract (inMin inMax outMin outMax : Q) :
  ~ (inMin == inMax)%Q ->
  ((Num.roundDouble outMin == outMin)%Q ->
   (mapRange inMin inMin inMax outMin outMax false == outMin)%Q)
  /\ ((outMin <= outMax)%Q ->
      forall value,
        (outMin <= mapRange value inMin inMax outMin outMax true <= outMax)%Q)
  /\ ((outMax < outMin)%Q ->
      forall value,
        (mapRange value inMin inMax outMin outMax true == outMin)%Q)
  /\ ((inMin < inMax)%Q -> (outMin <= outMax)%Q ->
      forall (clamp : bool) (v1 v2 : Q),
        (v1 <= v2)%Q ->
        (mapRange v1 inMin inMax outMin outMax clamp
         <= mapRange v2 inMin inMax outMin outMax clamp)%Q).
Proof.
  intros Hne. split; [|split; [|split]].
  - intros Hdouble. unfold mapRange, Num.fadd, Num.fdiv, Num.fmul.
    assert (H0 : Num.fsub inMin inMin = 0%Q)
      by (apply roundDouble_zero; ring).
    rewrite H0.
    assert (H1 : Num.roundDouble (0 * Num.fsub outMax outMin) = 0%Q)
      by (apply roundDouble_zero; ring).
    rewrite H1.
    assert (H2 : Num.roundDouble (0 / Num.fsub inMax inMin) = 0%Q)
      by (apply roundDouble_zero; unfold Qdiv; ring).
    rewrite H2. rewrite <- Hdouble at 2. apply roundDouble_comp. ring.
  - intros Hout value. unfold mapRange. split.
    + apply Q.le_max_l.
    + apply Q.max_lub; [exact Hout|apply Q.le_min_l].
  - intros Hrev value. unfold mapRange. apply Q.max_l.
    eapply Qle_trans; [apply Q.le_min_l|]. apply Qlt_le_weak, Hrev.
  - intros Hin Hout clamp v1 v2 Hv.
    assert (Hlin : (mapRange v1 inMin inMax outMin outMax false
                    <= mapRange v2 inMin inMax outMin outMax false)%Q).
    { unfold mapRange, Num.fadd, Num.fdiv, Num.fmul.
      assert (Ha : (Num.fsub v1 inMin <= Num.fsub v2 inMin)%Q)
        by (apply roundDouble_mono; lra).
      assert (Hd : (0 <= Num.fsub outMax outMin)%Q)
        by (apply roundDouble_nonneg; lra).
      assert (Hr : (0 < Num.fsub inMax inMin)%Q)
        by (apply roundDouble_pos; lra).
      apply roundDouble_mono. apply Qplus_le_compat; [|apply Qle_refl].
      apply roundDouble_mono. unfold Qdiv.
      apply Qmult_le_compat_r;
        [|apply Qlt_le_weak, Qinv_lt_0_compat, Hr].
      apply roundDouble_mono. apply Qmult_le_compat_r; assumption. }
    destruct clamp; [|exact Hlin]. unfold mapRange in *.
    apply Q.max_le_compat_l, Q.min_le_compat_l, Hlin.
Qed.

End MapRange.

Lemma mapRange_contract_witness :
  (BaseVisualization.mapRange 0 0 255 1 3 false == 1)%Q
  /\ (1 <= BaseVisualization.mapRange 400 0 255 1 3 true <= 3)%Q
  /\ (BaseVisualization.mapRange 100 0 255 1 3 false
      <= BaseVisualization.mapRange 200 0 255 1 3 false)%Q.
Proof.
  destruct (mapRange_contract 0 255 1 3) as (Hlo & Hclamp & _ & Hmono).
  - vm_compute. discriminate.
  - split; [apply Hlo; vm_compute; reflexivity|].
    split; [apply Hclamp; vm_compute; discriminate|].
    apply Hmono; [reflexivity|vm_compute; discriminate|vm_compute; discriminate].
Defined.

(** The image of [inMax] can miss [outMax]: [mapRange(3, 0, 3, 0, 0.1)] is
    the double after [0.1], as [(3 * 0.1) / 3] is in the code. *)
Lemma mapRange_inMax_rounds :
  let tenth := Num.roundDouble (1 # 10) in
  (BaseVisualization.mapRange 3 0 3 0 tenth false
   == tenth + Num.pow2 (-56))%Q
  /\ ~ (BaseVisualization.mapRange 3 0 3 0 tenth false == tenth)%Q.
Proof.
  cbv zeta. split; [vm_compute; reflexivity|vm_compute; discriminate].
Qed.

(** ** LOD manager: importance marks *)

(** X28. The set of important objects is only ever read by
    [isImportant]: after [markAsImportant] the object is reported
    important and after [clearImportance] it is not, but marking changes no
    answer of [shouldUpdate], [getParticleCount], [getGeometryDetail] or
    [getEffectComplexity]. *)
Theorem importance_marks_change_no_lod_answer (o : nat) (m : LodManager.t)
    (importance distance base : Q) (toCamera : option Q) :
  let m' := LodManager.markAsImportant o m in
  LodManager.isImportant o m' = true
  /\ LodManager.isImportant o (LodManager.clearImportance o m') = false
  /\ fst (LodManager.shouldUpdate importance distance m')
     = fst (LodManager.shouldUpdate importance distance m)
  /\ LodManager.getParticleCount base importance distance m'
     = LodManager.getParticleCount base importance distance m
  /\ LodManager.getGeometryDetail base toCamera importance m'
     = LodManager.getGeometryDetail base toCamera importance m
  /\ LodManager.getEffectComplexity m' = LodManager.getEffectComplexity m.
Proof.
  cbv zeta. split; [|split; [|split; [|split; [|split]]]].
  - unfold LodManager.isImportant, LodManager.markAsImportant. cbn.
    apply bool_decide_eq_true_2. set_solver.
  - unfold LodManager.isImportant, LodManager.clearImportance,
      LodManager.markAsImportant. cbn.
    apply bool_decide_eq_false_2. set_solver.
  - unfold LodManager.shouldUpdate, LodManager.markAsImportant,
      LodManager.getCurrentLodLevel. cbn.
    destruct (LodManager.index _ _); reflexivity.
  - reflexivity.
  - reflexivity.
  - reflexivity.
Qed.
